(** * NeuMan dataset sampler: a shallow embedding of [hugs/datasets/neuman.py]

    The development follows the Python module top to bottom: the data splits,
    the per-scene lookup tables, the bounding box of a skeleton, the patch
    sampler and the per-frame sample assembler with its eager cache.

    Conventions.
    - Python [int]s and numpy integer indices are [Z]; array lengths that
      drive recursion are [nat].
    - Python [float]s and float64 array entries are Rocq's primitive binary64
      floats, so that rounding is the one the program has.
    - A raised exception is a value of [result]; code that uses the global
      numpy random state threads it explicitly. *)

From Stdlib Require Import ZArith Floats Ascii String.
From Stdlib Require Uint63.
From stdpp Require Import base tactics list strings gmap sorting.

Local Open Scope Z_scope.

#[local] Set Warnings "-inexact-float".

(** ** Exceptions *)

Inductive exn : Type :=
| ValueError
| IndexError
| KeyError
| TypeError
| ZeroDivisionError
| OverflowError
| AssertionError
| UnboundLocalError.

Inductive result (A : Type) : Type :=
| Ok (a : A)
| Raise (e : exn).

Arguments Ok {A} a.
Arguments Raise {A} e.

#[global] Instance result_ret : MRet result := fun A a => Ok a.

#[global] Instance result_bind : MBind result := fun A B k m =>
  match m with
  | Ok a => k a
  | Raise e => Raise e
  end.

Definition py_assert (b : bool) : result unit :=
  if b then Ok tt else Raise AssertionError.

(** ** Python numbers *)


(** [float(z)] for an [int] that fits 63 bits, which covers every length and
    index of this module. *)
Definition py_float_of_int (z : Z) : float :=
  if z <? 0 then PrimFloat.opp (PrimFloat.of_uint63 (Uint63.of_Z (- z)))
  else PrimFloat.of_uint63 (Uint63.of_Z z).

(** [int(x)]: truncation toward zero; [nan] and the infinities raise. *)
Definition py_int_of_float (x : float) : result Z :=
  match Prim2SF x with
  | S754_nan => Raise ValueError
  | S754_infinity _ => Raise OverflowError
  | S754_zero _ => Ok 0
  | S754_finite s m e =>
      let mag := if 0 <=? e then Zpos m * 2 ^ e else Zpos m / 2 ^ (- e) in
      Ok (if s then - mag else mag)
  end.

(** [a / b] on two [int]s (true division). *)
Definition py_truediv_int (a b : Z) : result float :=
  if b =? 0 then Raise ZeroDivisionError
  else Ok (PrimFloat.div (py_float_of_int a) (py_float_of_int b)).

(** ** Python lists: ranges, indexing and slices *)

Definition py_len {A : Type} (l : list A) : Z := Z.of_nat (length l).

(** [l[i]]: a negative index counts from the end. *)
Definition py_index {A : Type} (l : list A) (i : Z) : result A :=
  if (- py_len l <=? i) && (i <? py_len l) then
    match l !! Z.to_nat (if i <? 0 then i + py_len l else i) with
    | Some x => Ok x
    | None => Raise IndexError
    end
  else Raise IndexError.

(** [list(range(start, start + n))] and [list(range(n))] *)
Fixpoint py_range_from (start : Z) (n : nat) : list Z :=
  match n with
  | O => []
  | S n' => start :: py_range_from (start + 1) n'
  end.

Definition py_range (n : Z) : list Z := py_range_from 0 (Z.to_nat n).

(** Every [step]-th element, the first one after skipping [c]. *)
Fixpoint take_every {A : Type} (step c : nat) (l : list A) : list A :=
  match l with
  | [] => []
  | x :: l' =>
      match c with
      | O => x :: take_every step (Nat.pred step) l'
      | S c' => take_every step c' l'
      end
  end.

(** Bounds of [l[i:j]] for a list of length [len] (step 1). *)
Definition slice_bound (len i : Z) : Z :=
  if i <? 0 then Z.max (i + len) 0 else Z.min i len.

(** [l[start:stop]] *)
Definition py_slice {A : Type} (l : list A) (start stop : Z) : list A :=
  let s := slice_bound (py_len l) start in
  let e := slice_bound (py_len l) stop in
  take (Z.to_nat (e - s)) (drop (Z.to_nat s) l).

(** [l[:stop]] and [l[start:]] *)
Definition py_slice_to {A : Type} (l : list A) (stop : Z) : list A :=
  py_slice l 0 stop.

Definition py_slice_from {A : Type} (l : list A) (start : Z) : list A :=
  py_slice l start (py_len l).

(** [l[start::step]]: a zero step raises; a negative step walks down from
    [start] to the head of the list. *)
Definition py_slice_from_step {A : Type} (l : list A) (start step : Z)
  : result (list A) :=
  if step =? 0 then Raise ValueError
  else if 0 <? step then
    Ok (take_every (Z.to_nat step) 0
          (drop (Z.to_nat (slice_bound (py_len l) start)) l))
  else
    let s := if start <? 0 then Z.max (start + py_len l) (-1)
             else Z.min start (py_len l - 1) in
    Ok (take_every (Z.to_nat (- step)) 0 (reverse (take (Z.to_nat (s + 1)) l))).

(** [list(set(a) - set(b))]; the iteration order of a Python set is not
    specified, the model lists the survivors in the order of [a]. *)
Definition set_difference (a b : list Z) : list Z := list_difference a b.

(** ** [get_data_splits] *)

Section DataSplits.

(** A capture is opaque here: only the number of captures is read. *)
Variable capture : Type.

Definition get_data_splits (captures : list capture)
  : result (list Z * list Z * list Z) :=
  let scene_length := py_len captures in
  let num_val := scene_length / 5 in
  q ← py_truediv_int 1 num_val;
  length ← py_int_of_float (PrimFloat.mul q (py_float_of_int scene_length));
  let offset := length / 2 in
  val_list ← py_slice_from_step (py_range scene_length) offset length;
  let train_list := set_difference (py_range scene_length) val_list in
  let test_list := py_slice_to val_list (py_len val_list / 2) in
  let val_list' := py_slice_from val_list (py_len val_list / 2) in
  _ ← py_assert (0 <? py_len train_list);
  _ ← py_assert (0 <? py_len test_list);
  _ ← py_assert (0 <? py_len val_list');
  Ok (train_list, val_list', test_list).

End DataSplits.

Arguments get_data_splits {capture} captures.


(** ** Float vectors *)

Definition vec : Type := list float.

Definition vscale (c : float) (v : vec) : vec := (fun x => PrimFloat.mul x c) <$> v.
Definition vdiv (v : vec) (c : float) : vec := (fun x => PrimFloat.div x c) <$> v.
Definition vadd (u v : vec) : vec := zip_with PrimFloat.add u v.
Definition vsub (u v : vec) : vec := zip_with PrimFloat.sub u v.

(** [np.pi] *)
Definition np_pi : float := 0x1.921fb54442d18p+1%float.

(** The transcendental functions of the C library that numpy calls. *)
Class Libm := {
  np_cos : float -> float;
  np_sin : float -> float;
  np_arctan : float -> float;
}.

(** ** Scene names *)

(** [os.path.basename] (posix): what follows the last slash. *)
Fixpoint after_last_slash (s : string) : option string :=
  match s with
  | EmptyString => None
  | String c s' =>
      match after_last_slash s' with
      | Some t => Some t
      | None => if Ascii.eqb c "/"%char then Some s' else None
      end
  end.

Definition basename (s : string) : string :=
  default s (after_last_slash s).

(** The scenes that the three lookup tables below know. *)
Definition recognized_scenes : list string :=
  ["seattle"; "citron"; "parkinglot"; "bike"; "jogging"; "lab"]%string.

(** ** [mocap_path] *)

Definition mocap_path (scene_name : string) : result (string * Z * Z * Z) :=
  if String.eqb (basename scene_name) "seattle" then
    Ok ("./data/SFU/0005/0005_SideSkip001_poses.npz"%string, 0, 800, 4)
  else if String.eqb (basename scene_name) "citron" then
    Ok ("./data/MPI_mosh/00093/irish_dance_poses.npz"%string, 0, 1000, 4)
  else if String.eqb (basename scene_name) "parkinglot" then
    Ok ("./data/SFU/0005/0005_2FeetJump001_poses.npz"%string, 0, 1200, 4)
  else if String.eqb (basename scene_name) "bike" then
    Ok ("./data/MPI_mosh/50002/misc_poses.npz"%string, 0, 250, 1)
  else if String.eqb (basename scene_name) "jogging" then
    Ok ("./data/SFU/0007/0007_Cartwheel001_poses.npz"%string, 200, 1000, 8)
  else if String.eqb (basename scene_name) "lab" then
    Ok ("./data/SFU/0008/0008_ChaCha001_poses.npz"%string, 0, 1000, 4)
  else Raise ValueError.

(** ** [alignment]

    The second parameter of the Python function, [motion_name], is not read. *)

(** A one-dimensional numpy array with its dtype, and a Python number. *)
Inductive ndarray1 : Type :=
| IntArray (l : list Z)
| FloatArray (l : vec).

Inductive pynum : Type :=
| PyInt (z : Z)
| PyFloat (x : float).

(** [a / 180 * np.pi] on an array: true division always yields floats. *)
Definition deg2rad (a : ndarray1) : ndarray1 :=
  let xs := match a with
            | IntArray l => py_float_of_int <$> l
            | FloatArray l => l
            end in
  FloatArray (vscale np_pi (vdiv xs 180%float)).

Definition alignment (scene_name : string)
  : result (ndarray1 * ndarray1 * pynum) :=
  Ok
  (if String.eqb (basename scene_name) "seattle" then
    (FloatArray [(-2.25)%float; 1.08%float; 8.18%float],
     deg2rad (FloatArray [90.4%float; (-4.2)%float; (-1)%float]),
     PyFloat 1.8%float)
  else if String.eqb (basename scene_name) "citron" then
    (FloatArray [6.33%float; 1.7%float; 10.7%float],
     deg2rad (FloatArray [72.4%float; 168.2%float; (-4.4)%float]),
     PyFloat 2.5%float)
  else if String.eqb (basename scene_name) "parkinglot" then
    (FloatArray [(-0.8)%float; 2.35%float; 12.67%float],
     deg2rad (IntArray [94; -85; -363]),
     PyFloat 3.0%float)
  else if String.eqb (basename scene_name) "bike" then
    (FloatArray [0.0%float; 0.88%float; 3.89%float],
     deg2rad (FloatArray [88.8%float; 180%float; 1.8%float]),
     PyFloat 1.0%float)
  else if String.eqb (basename scene_name) "jogging" then
    (FloatArray [0.0%float; 0.24%float; 0.33%float],
     deg2rad (FloatArray [95.8%float; (-1.2)%float; (-2.2)%float]),
     PyFloat 0.25%float)
  else if String.eqb (basename scene_name) "lab" then
    (FloatArray [5.76%float; 3.03%float; 11.69%float],
     deg2rad (FloatArray [90.4%float; (-4.2)%float; (-1.8)%float]),
     PyFloat 3.0%float)
  else
    (IntArray [0; 0; 0], deg2rad (IntArray [0; 0; 0]), PyInt 1)).

(** ** numpy on two-dimensional arrays *)

(** A two-dimensional array: its shape and its entries in row-major order.
    An entry may itself be a vector (an [(H, W, 3)] image is an [array2] of
    pixels). *)
Record array2 (A : Type) : Type := mk_array2 {
  nrows : Z;
  ncols : Z;
  cells : list A;
}.

Arguments mk_array2 {A} nrows ncols cells.
Arguments nrows {A} a.
Arguments ncols {A} a.
Arguments cells {A} a.

Definition array2_wf {A : Type} (a : array2 A) : Prop :=
  0 <= nrows a /\ 0 <= ncols a /\ py_len (cells a) = nrows a * ncols a.

Definition same_shape {A B : Type} (a : array2 A) (b : array2 B) : bool :=
  (nrows a =? nrows b) && (ncols a =? ncols b).

Definition array2_map {A B : Type} (f : A -> B) (a : array2 A) : array2 B :=
  mk_array2 (nrows a) (ncols a) (f <$> cells a).

(** [a[y, x]] for indices known to be in range. *)
Definition array2_get {A : Type} (a : array2 A) (y x : Z) : option A :=
  if (0 <=? y) && (y <? nrows a) && (0 <=? x) && (x <? ncols a)
  then cells a !! Z.to_nat (y * ncols a + x) else None.

(** ** Captures *)

(** What the scene reader hands out for one capture.  The reader is not part
    of this module, so a capture is known by its accessors only; assigning
    [cam_pose.camera_center_in_world] is the reader's setter. *)
Class Capture (capture : Type) := {
  captured_image : capture -> array2 (list Z);
  intrinsic_matrix : capture -> list vec;
  extrinsic_matrix : capture -> list vec;
  size : capture -> Z * Z;
  cam_pose_world_to_camera : capture -> list vec;
  cam_pose_camera_to_world : capture -> list vec;
  cam_pose_right : capture -> vec;
  cam_pose_up : capture -> vec;
  cam_pose_forward : capture -> vec;
  cam_pose_camera_center_in_world : capture -> vec;
  set_camera_center_in_world : capture -> vec -> capture;
}.

(** ** [rendering_caps] *)

Section RenderingCaps.

Context {LM : Libm} {capture : Type} {CO : Capture capture}.

(** [i/nframes * 2 * np.pi] and [2 * i/nframes * 2 * np.pi] *)
Definition angle1 (i nframes : Z) : result float :=
  q ← py_truediv_int i nframes;
  Ok (PrimFloat.mul (PrimFloat.mul q 2%float) np_pi).

Definition angle2 (i nframes : Z) : result float :=
  q ← py_truediv_int (2 * i) nframes;
  Ok (PrimFloat.mul (PrimFloat.mul q 2%float) np_pi).

(** One pass of the [for i in range(nframes)] loop of a branch. *)
Definition caps_loop (nframes : Z) (body : Z -> result capture)
  : result (list capture) :=
  mapM body (py_range nframes).

Definition ellipse_cap (captures : list capture) (ref : Z)
    (angle : Z -> Z -> result float)
    (ellipse_a ellipse_b x_shift : float) (nframes i : Z) : result capture :=
  temp ← py_index captures ref;
  t ← angle i nframes;
  let x_offset :=
    vscale (PrimFloat.add (PrimFloat.mul ellipse_a (np_cos t)) x_shift)
           (cam_pose_right temp) in
  let y_offset :=
    vscale (np_sin t) (vscale ellipse_b (cam_pose_up temp)) in
  Ok (set_camera_center_in_world temp
        (vadd (vadd (cam_pose_camera_center_in_world temp) x_offset) y_offset)).

Definition rendering_caps (scene_name : string) (nframes : Z)
    (captures : list capture) : result (list capture) :=
  if String.eqb (basename scene_name) "seattle" then
    caps_loop nframes (fun i =>
      temp ← py_index captures 20;
      t ← angle1 i nframes;
      let ellipse_a := PrimFloat.mul 0.15%float 10%float in
      let ellipse_b := 0.05%float in
      let x_offset :=
        vscale (np_cos t) (vscale ellipse_a (cam_pose_right temp)) in
      let y_offset :=
        vscale (np_sin t) (vscale ellipse_b (cam_pose_up temp)) in
      Ok (set_camera_center_in_world temp
            (vadd (vadd (cam_pose_camera_center_in_world temp) x_offset)
                  y_offset)))
  else if String.eqb (basename scene_name) "citron" then
    caps_loop nframes
      (ellipse_cap captures 33 angle2 (PrimFloat.mul 0.15%float 3%float)
         (PrimFloat.mul 0.03%float 3%float) 0.2%float nframes)
  else if String.eqb (basename scene_name) "parkinglot" then
    caps_loop nframes
      (ellipse_cap captures 23 angle2 (PrimFloat.mul 0.15%float 10%float)
         (PrimFloat.mul 0.03%float 5%float) 0.2%float nframes)
  else if String.eqb (basename scene_name) "bike" then
    let start_id := 25 in
    let interval := PrimFloat.mul 0.005%float 2%float in
    caps_loop nframes (fun i =>
      temp ← py_index captures start_id;
      Ok (set_camera_center_in_world temp
            (vadd (cam_pose_camera_center_in_world temp)
                  (vscale (PrimFloat.mul interval (py_float_of_int i))
                          (cam_pose_right temp)))))
  else if String.eqb (basename scene_name) "jogging" then
    let start_id := 67 in
    let interval := 0.01%float in
    caps_loop nframes (fun i =>
      temp ← py_index captures start_id;
      Ok (set_camera_center_in_world temp
            (vsub (cam_pose_camera_center_in_world temp)
                  (vscale (PrimFloat.mul interval (py_float_of_int i))
                          (cam_pose_right temp)))))
  else if String.eqb (basename scene_name) "lab" then
    let start_id := 39 in
    let ellipse_a := PrimFloat.mul 0.15%float 10%float in
    let ellipse_b := 0.03%float in
    caps_loop nframes (fun i =>
      temp ← py_index captures start_id;
      t ← angle1 i nframes;
      let x_offset :=
        vscale (PrimFloat.mul ellipse_a (np_cos t)) (cam_pose_right temp) in
      let y_offset :=
        vscale (np_sin t) (vscale ellipse_b (cam_pose_up temp)) in
      let temp' :=
        set_camera_center_in_world temp
          (vadd (vadd (cam_pose_camera_center_in_world temp) x_offset)
                y_offset) in
      Ok (set_camera_center_in_world temp'
            (vadd (cam_pose_camera_center_in_world temp')
                  (vscale 0.2%float (cam_pose_forward temp')))))
  else
    (* [return dummy_caps] with [dummy_caps] never assigned *)
    Raise UnboundLocalError.

End RenderingCaps.

(** ** numpy on one-dimensional arrays *)

(** [np.minimum] and [np.maximum] on two floats: a [nan] on either side is
    returned. *)
Definition np_minimum (a b : float) : float :=
  if PrimFloat.leb a b || PrimFloat.is_nan a then a else b.

Definition np_maximum (a b : float) : float :=
  if PrimFloat.leb b a || PrimFloat.is_nan a then a else b.

(** [np.min(a, axis=0)] and [np.max(a, axis=0)] on an array of rows; an
    empty array has no minimum. *)
Definition np_min_axis0 (a : list vec) : result vec :=
  match a with
  | [] => Raise ValueError
  | r :: rs => Ok (foldl (zip_with np_minimum) r rs)
  end.

Definition np_max_axis0 (a : list vec) : result vec :=
  match a with
  | [] => Raise ValueError
  | r :: rs => Ok (foldl (zip_with np_maximum) r rs)
  end.

(** [np.count_nonzero] of a boolean array. *)
Definition count_true (m : list bool) : Z :=
  py_len (filter (fun b => b = true) m).

(** [np.where(m)[0]]: the positions that hold [True]. *)
Fixpoint np_where_from (k : Z) (m : list bool) : list Z :=
  match m with
  | [] => []
  | b :: m' =>
      if b then k :: np_where_from (k + 1) m' else np_where_from (k + 1) m'
  end.

Definition np_where (m : list bool) : list Z := np_where_from 0 m.

(** [np.cumsum(m)] of a boolean array. *)
Fixpoint np_cumsum_from (acc : Z) (m : list bool) : list Z :=
  match m with
  | [] => []
  | b :: m' =>
      let acc' := acc + (if b then 1 else 0) in
      acc' :: np_cumsum_from acc' m'
  end.

Definition np_cumsum (m : list bool) : list Z := np_cumsum_from 0 m.

(** [a[mask]] with a boolean mask: the shapes must agree. *)
Fixpoint compress {A : Type} (mask : list bool) (a : list A) : list A :=
  match mask, a with
  | b :: mask', x :: a' =>
      if b then x :: compress mask' a' else compress mask' a'
  | _, _ => []
  end.

Definition np_mask_index {A : Type} (a : list A) (mask : list bool)
  : result (list A) :=
  if py_len mask =? py_len a then Ok (compress mask a) else Raise IndexError.

(** [a[inds]] with an integer index array. *)
Definition np_take {A : Type} (a : list A) (inds : list Z) : result (list A) :=
  mapM (py_index a) inds.

(** [np.bitwise_and] of two one-dimensional boolean arrays, with numpy's
    broadcasting of a length-one operand. *)
Definition np_bitwise_and (a b : list bool) : result (list bool) :=
  if py_len a =? py_len b then Ok (zip_with andb a b)
  else match a, b with
       | [x], _ => Ok (andb x <$> b)
       | _, [y] => Ok ((fun x => andb x y) <$> a)
       | _, _ => Raise ValueError
       end.

(** [np.clip(a, a_min, a_max)] is [minimum(maximum(a, a_min), a_max)]. *)
Definition np_clip (a a_min a_max : Z) : Z := Z.min (Z.max a a_min) a_max.

(** [np.concatenate] of one-dimensional arrays; it needs at least one. *)
Definition np_concatenate {A : Type} (ls : list (list A)) : result (list A) :=
  match ls with
  | [] => Raise ValueError
  | _ => Ok (concat ls)
  end.

(** ** numpy on two-dimensional arrays, continued *)

(** [np.where(a)] on a two-dimensional boolean array: the row and column
    coordinates of the true entries, in row-major order. *)
Definition np_where2 (a : array2 bool) : list Z * list Z :=
  let ks := np_where (cells a) in
  ((fun k => k / ncols a) <$> ks, (fun k => k mod ncols a) <$> ks).

(** [a.reshape(-1)] *)
Definition reshape_flat {A : Type} (a : array2 A) : list A := cells a.

(** [a.reshape(H, W)]; image sizes are not negative, so the inference that
    numpy does for a [-1] dimension is left out. *)
Definition np_reshape2 {A : Type} (a : list A) (H W : Z) : result (array2 A) :=
  if (0 <=? H) && (0 <=? W) && (H * W =? py_len a)
  then Ok (mk_array2 H W a) else Raise ValueError.

(** The half-open range that the slice [i:j] selects on an axis of length
    [len]. *)
Definition slice_range (len i j : Z) : Z * Z :=
  let s := slice_bound len i in
  (s, Z.max s (slice_bound len j)).

(** [z = np.zeros_like(a); z[y0:y1, x0:x1] = True] *)
Definition window_mask {A : Type} (a : array2 A) (y0 y1 x0 x1 : Z)
  : array2 bool :=
  let '(r0, r1) := slice_range (nrows a) y0 y1 in
  let '(c0, c1) := slice_range (ncols a) x0 x1 in
  mk_array2 (nrows a) (ncols a)
    ((fun k =>
        let r := k / ncols a in
        let c := k mod ncols a in
        (r0 <=? r) && (r <? r1) && (c0 <=? c) && (c <? c1))
     <$> py_range (nrows a * ncols a)).

(** [a[y0:y1, x0:x1]] *)
Definition crop {A : Type} (a : array2 A) (y0 y1 x0 x1 : Z) : array2 A :=
  let '(r0, r1) := slice_range (nrows a) y0 y1 in
  let '(c0, c1) := slice_range (ncols a) x0 x1 in
  mk_array2 (r1 - r0) (c1 - c0)
    (concat
       ((fun r => take (Z.to_nat (c1 - c0))
                    (drop (Z.to_nat (r * ncols a + c0)) (cells a)))
        <$> py_range_from r0 (Z.to_nat (r1 - r0)))).

(** [np.stack(arrays, axis=0)]: at least one array, all of one shape. *)
Definition np_stack {A : Type} (l : list (array2 A)) : result (list (array2 A)) :=
  match l with
  | [] => Raise ValueError
  | a :: l' =>
      if forallb (same_shape a) l' then Ok l else Raise ValueError
  end.

(** ** The numpy random state *)

(** [np.random.choice(n, size=[1], replace=False)[0]] for [n > 0] reads and
    advances the global generator and yields an index below [n]. *)
Class RandomState (rng : Type) := {
  random_choice : rng -> Z -> Z * rng;
  random_choice_range :
    forall (s : rng) (n : Z), 0 < n -> 0 <= (random_choice s n).1 < n;
}.

Definition np_random_choice {rng : Type} {RS : RandomState rng} (n : Z) (s : rng)
  : result (Z * rng) :=
  if n <=? 0 then Raise ValueError else Ok (random_choice s n).

(** ** [skeleton_to_bbox] *)

Record bbox : Type := mk_bbox {
  min_xyz : vec;
  max_xyz : vec;
}.

Definition skeleton_to_bbox (skeleton : list vec) (bbox_offset : float)
  : result bbox :=
  lo ← np_min_axis0 skeleton;
  hi ← np_max_axis0 skeleton;
  Ok (mk_bbox ((fun x => PrimFloat.sub x bbox_offset) <$> lo)
              ((fun x => PrimFloat.add x bbox_offset) <$> hi)).

Definition default_bbox_offset : float := 0.3%float.

(** ** The patch sampler *)

Section PatchSampler.

Context {rng : Type} {RS : RandomState rng}.

(** What [_get_patch_ray_indices] returns: the compacted ray indices, the
    patch's validity mask and its two corners [[x_min, y_min]] and
    [[x_max, y_max]]. *)
Definition patch : Type := list Z * array2 bool * (Z * Z) * (Z * Z).

(** The center that the random draw picks among the true pixels of
    [candidate_mask], as [(center_x, center_y)]. *)
Definition choose_center (candidate_mask : array2 bool) (s : rng)
  : result (Z * Z * rng) :=
  let '(valid_ys, valid_xs) := np_where2 candidate_mask in
  '(select_idx, s') ← np_random_choice (py_len valid_ys) s;
  center_x ← py_index valid_xs select_idx;
  center_y ← py_index valid_ys select_idx;
  Ok (center_x, center_y, s').

(** The window around a center: [(x_min, x_max, y_min, y_max)]. *)
Definition patch_window (center_x center_y patch_size H W : Z)
  : Z * Z * Z * Z :=
  let half_patch_size := patch_size / 2 in
  let x_min := np_clip (center_x - half_patch_size) 0 (W - patch_size) in
  let x_max := x_min + patch_size in
  let y_min := np_clip (center_y - half_patch_size) 0 (H - patch_size) in
  let y_max := y_min + patch_size in
  (x_min, x_max, y_min, y_max).

Definition _get_patch_ray_indices (ray_mask : list bool)
    (candidate_mask : array2 bool) (patch_size H W : Z) (s : rng)
  : result (patch * rng) :=
  (* determine patch center *)
  '(center_x, center_y, s') ← choose_center candidate_mask s;
  (* determine patch boundary *)
  let '(x_min, x_max, y_min, y_max) :=
    patch_window center_x center_y patch_size H W in
  let sel_ray_mask := window_mask candidate_mask y_min y_max x_min x_max in
  (* the selected ray indices and the patch valid mask *)
  let sel_ray_mask := reshape_flat sel_ray_mask in
  inter_mask ← np_bitwise_and sel_ray_mask ray_mask;
  let select_masked_inds := np_where inter_mask in
  let masked_indices := (fun c => c - 1) <$> np_cumsum ray_mask in
  select_inds ← np_take masked_indices select_masked_inds;
  inter_mask ← np_reshape2 inter_mask H W;
  Ok (select_inds, crop inter_mask y_min y_max x_min x_max,
      (x_min, y_min), (x_max, y_max), s').

(** The state of the loop of [get_patch_ray_indices]. *)
Record patch_acc : Type := mk_patch_acc {
  list_ray_indices : list (list Z);
  list_mask : list (array2 bool);
  list_xy_min : list (Z * Z);
  list_xy_max : list (Z * Z);
  total_rays : Z;
  patch_div_indices : list Z;
}.

Fixpoint patch_loop (n : nat) (ray_mask : list bool)
    (subject_mask : array2 bool) (patch_size H W : Z)
    (acc : patch_acc) (s : rng) : result (patch_acc * rng) :=
  match n with
  | O => Ok (acc, s)
  | S n' =>
      let candidate_mask := subject_mask in
      '(ray_indices, mask, xy_min, xy_max, s') ←
        _get_patch_ray_indices ray_mask candidate_mask patch_size H W s;
      let total := total_rays acc + py_len ray_indices in
      patch_loop n' ray_mask subject_mask patch_size H W
        (mk_patch_acc (list_ray_indices acc ++ [ray_indices])
                      (list_mask acc ++ [mask])
                      (list_xy_min acc ++ [xy_min])
                      (list_xy_max acc ++ [xy_max])
                      total
                      (patch_div_indices acc ++ [total]))
        s'
  end.

Record patch_info : Type := mk_patch_info {
  info_mask : list (array2 bool);
  info_xy_min : list (Z * Z);
  info_xy_max : list (Z * Z);
}.

Definition get_patch_ray_indices (N_patch : Z) (ray_mask : list bool)
    (subject_mask : array2 bool) (patch_size H W : Z) (s : rng)
  : result (list Z * patch_info * list Z * rng) :=
  '(acc, s') ←
    patch_loop (Z.to_nat N_patch) ray_mask subject_mask patch_size H W
      (mk_patch_acc [] [] [] [] 0 [0]) s;
  select_inds ← np_concatenate (list_ray_indices acc);
  masks ← np_stack (list_mask acc);
  Ok (select_inds,
      mk_patch_info masks (list_xy_min acc) (list_xy_max acc),
      patch_div_indices acc, s').

Definition select_rays {A B C D E : Type} (select_inds : list Z)
    (rays_o : list A) (rays_d : list B) (ray_img : list C)
    (nerf_near : list D) (nerf_far : list E)
  : result (list A * list B * list C * list D * list E) :=
  rays_o' ← np_take rays_o select_inds;
  rays_d' ← np_take rays_d select_inds;
  ray_img' ← np_take ray_img select_inds;
  nerf_near' ← np_take nerf_near select_inds;
  nerf_far' ← np_take nerf_far select_inds;
  Ok (rays_o', rays_d', ray_img', nerf_near', nerf_far').

(** What [sample_patch_rays] returns. *)
Record patch_sample : Type := mk_patch_sample {
  ps_rays_o : list vec;
  ps_rays_d : list vec;
  ps_ray_img : list vec;
  ps_nerf_near : list vec;
  ps_nerf_far : list vec;
  ps_target_patches : list (array2 vec);
  ps_target_patch_masks : list (array2 float);
  ps_patch_masks : list (array2 bool);
  ps_patch_div_indices : list Z;
}.

(** The crops of the image and of the mask, one per patch. *)
Definition patch_targets (img : array2 vec) (mask : array2 float)
    (info : patch_info) (N_patch : Z)
  : result (list (array2 vec) * list (array2 float)) :=
  mapM (fun i =>
          '(x_min, y_min) ← py_index (info_xy_min info) i;
          '(x_max, y_max) ← py_index (info_xy_max info) i;
          Ok (crop img y_min y_max x_min x_max,
              crop mask y_min y_max x_min x_max))
       (py_range N_patch)
  ≫= fun l => Ok (l.*1, l.*2).

Definition sample_patch_rays (img : array2 vec) (mask : array2 float)
    (H W : Z) (subject_mask : array2 bool) (ray_mask : list bool)
    (rays_o rays_d ray_img nerf_near nerf_far : list vec) (s : rng)
  : result (patch_sample * rng) :=
  let N_patch := 1 in
  let patch_size := 160 in
  '(select_inds, info, patch_div, s') ←
    get_patch_ray_indices N_patch ray_mask subject_mask patch_size H W s;
  '(rays_o', rays_d', ray_img', nerf_near', nerf_far') ←
    select_rays select_inds rays_o rays_d ray_img nerf_near nerf_far;
  '(targets, target_masks) ← patch_targets img mask info N_patch;
  target_patches ← np_stack targets;
  target_patch_masks ← np_stack target_masks;
  let patch_masks := info_mask info in
  Ok (mk_patch_sample rays_o' rays_d' ray_img' nerf_near' nerf_far'
        target_patches target_patch_masks patch_masks patch_div, s').

End PatchSampler.

(** ** Arrays of any rank and the values of a sample record *)

(** [x.astype(np.float32)] on one entry: rounding to binary32. *)
Definition f32 (x : float) : float :=
  match Prim2SF x with
  | S754_finite s m e => SF2Prim (binary_round 24 128 s m e)
  | _ => x
  end.

(** A numpy array or a torch tensor by its contents, as nested lists. *)
#[local] Unset Elimination Schemes.
Inductive nd : Type :=
| NdF (x : float)
| NdZ (z : Z)
| NdB (b : bool)
| NdList (l : list nd).
#[local] Set Elimination Schemes.

Definition nd_vec (v : vec) : nd := NdList (NdF <$> v).
Definition nd_rows (m : list vec) : nd := NdList (nd_vec <$> m).
Definition nd_ints (l : list Z) : nd := NdList (NdZ <$> l).
Definition nd_bools (l : list bool) : nd := NdList (NdB <$> l).

(** The rows of a two-dimensional array. *)
Definition array2_rows {A : Type} (a : array2 A) : list (list A) :=
  (fun r => take (Z.to_nat (ncols a)) (drop (Z.to_nat (r * ncols a)) (cells a)))
  <$> py_range (nrows a).

Definition nd_array2 {A : Type} (f : A -> nd) (a : array2 A) : nd :=
  NdList ((fun row => NdList (f <$> row)) <$> array2_rows a).

(** The float entries of an array, in order ([a.numpy().ravel()]). *)
Fixpoint nd_floats (a : nd) : vec :=
  match a with
  | NdF x => [x]
  | NdZ z => [py_float_of_int z]
  | NdB b => [if b then 1%float else 0%float]
  | NdList l => concat (nd_floats <$> l)
  end.

(** [a.astype('float32')], entry by entry. *)
Fixpoint nd_astype_f32 (a : nd) : nd :=
  match a with
  | NdF x => NdF (f32 x)
  | NdZ z => NdF (f32 (py_float_of_int z))
  | NdB b => NdF (if b then 1%float else 0%float)
  | NdList l => NdList (nd_astype_f32 <$> l)
  end.

Inductive device : Type := cpu | cuda.

Inductive value : Type :=
| VFloat (x : float)
| VInt (z : Z)
| VTensor (d : device) (t : nd)
| VArray (a : nd).

(** [len(a)] and [np.count_nonzero(a)] for an array held in a record. *)
Definition value_len (v : value) : option Z :=
  match v with
  | VArray (NdList l) | VTensor _ (NdList l) => Some (py_len l)
  | _ => None
  end.

Definition value_count_true (v : value) : option Z :=
  match v with
  | VArray (NdList l) =>
      Some (count_true
              ((fun x => match x with NdB b => b | _ => false end) <$> l))
  | _ => None
  end.

(** [v.to("cuda")] where [v] is a tensor. *)
Definition to_cuda (v : value) : value :=
  match v with
  | VTensor _ t => VTensor cuda t
  | _ => v
  end.

(** ** Numeric helpers of the sample assembler *)

Definition nonzero (x : float) : bool := negb (PrimFloat.eqb x 0%float).

(** [np.any(a, axis=0)] and [np.any(a, axis=1)] *)
Definition np_any_axis0 (a : array2 float) : list bool :=
  foldl (zip_with orb) (replicate (Z.to_nat (ncols a)) false)
        ((fun row : list float => nonzero <$> row) <$> array2_rows a).

Definition np_any_axis1 (a : array2 float) : list bool :=
  existsb nonzero <$> array2_rows a.

(** [np.where(m)[0][[0, -1]]] *)
Definition first_last_true (m : list bool) : result (Z * Z) :=
  lo ← py_index (np_where m) 0;
  hi ← py_index (np_where m) (-1);
  Ok (lo, hi).

Definition mat_get (m : list vec) (i j : Z) : result float :=
  row ← py_index m i;
  py_index row j.

(** [m.T] for a two-dimensional tensor *)
Definition mat_transpose (m : list vec) : list vec :=
  match m with
  | [] => []
  | r :: _ =>
      (fun j => (fun row => default 0%float (row !! j)) <$> m)
      <$> seq 0 (length r)
  end.

(** [a = np.zeros(72); a[3:] = tail]: the tail must have 69 entries, or one
    that numpy repeats. *)
Definition pose72 (tail : vec) : result vec :=
  if py_len tail =? 69 then Ok (replicate 3 0%float ++ tail)
  else match tail with
       | [x] => Ok (replicate 3 0%float ++ replicate 69 x)
       | _ => Raise ValueError
       end.

(** [img[msk == 0] = bgcolor] on a copy of [img] *)
Definition mask_background (img : array2 vec) (msk : array2 float)
    (bgcolor : vec) : result (array2 vec) :=
  if same_shape img msk then
    Ok (mk_array2 (nrows img) (ncols img)
          (zip_with (fun px m => if PrimFloat.eqb m 0%float then bgcolor else px)
                    (cells img) (cells msk)))
  else Raise IndexError.

(** ** Ray-box intersection *)

(** Modelled from the spec: [rays_intersect_3d_bbox] lives in
    [hugs/utils/camera_util.py], which is not among the sources.  Section 4.3
    of the specification describes the slab method: per axis the two
    parametric distances to the box planes, a zero direction component being
    no constraint when the origin is inside the slab and a miss otherwise;
    [near] is the largest per-axis lower bound, [far] the smallest upper
    bound; a ray hits when [near <= far] and [far >= 0].  The distances come
    back for the hitting rays only, with the mask over all rays. *)
Definition slab (lo hi o d : float) : option (float * float) :=
  if PrimFloat.eqb d 0%float then
    if PrimFloat.leb lo o && PrimFloat.leb o hi
    then Some (neg_infinity, infinity) else None
  else
    let t1 := PrimFloat.div (PrimFloat.sub lo o) d in
    let t2 := PrimFloat.div (PrimFloat.sub hi o) d in
    Some (np_minimum t1 t2, np_maximum t1 t2).

Fixpoint ray_box (lo hi o d : vec) (near far : float) : option (float * float) :=
  match lo, hi, o, d with
  | l :: lo', h :: hi', oi :: o', di :: d' =>
      match slab l h oi di with
      | Some (t_lo, t_hi) =>
          ray_box lo' hi' o' d' (np_maximum near t_lo) (np_minimum far t_hi)
      | None => None
      end
  | _, _, _, _ => Some (near, far)
  end.

Definition ray_hit (b : bbox) (o d : vec) : option (float * float) :=
  match ray_box (min_xyz b) (max_xyz b) o d neg_infinity infinity with
  | Some (near, far) =>
      if PrimFloat.leb near far && PrimFloat.leb 0%float far
      then Some (near, far) else None
  | None => None
  end.

Definition rays_intersect_3d_bbox (b : bbox) (rays_o rays_d : list vec)
  : list float * list float * list bool :=
  let hits := zip_with (ray_hit b) rays_o rays_d in
  (fst <$> omap id hits, snd <$> omap id hits, (fun h => bool_decide (is_Some h)) <$> hits).

(** ** The collaborators of the sample assembler *)

(** The body model, the camera utilities and the tensor routines that
    [get_single_item] calls and that live outside this module.  They are
    functions of their arguments. *)
Class Externals := {
  (* [SMPL_NUMPY('neutral', './data/smpl')(poses, betas)[1]] *)
  smpl_joints : vec -> vec -> list vec;
  (* [get_predefined_pose('da_pose')[0]] *)
  da_pose : vec;
  approx_gaussian_bone_volumes : list vec -> vec -> vec -> nd;
  apply_global_tfm_to_camera : list vec -> vec -> vec -> list vec;
  get_rays_from_KRT :
    Z -> Z -> list vec -> list vec -> vec -> array2 vec * array2 vec;
  body_pose_to_body_RTs : vec -> list vec -> nd * nd;
  get_canonical_global_tfms : list vec -> nd;
  get_projection_matrix : float -> float -> float -> float -> list vec;
  (* [a.unsqueeze(0).bmm(b.unsqueeze(0)).squeeze(0)] and [a.inverse()] *)
  torch_bmm : list vec -> list vec -> list vec;
  torch_inverse : list vec -> list vec;
  (* [t.mean(dim=0)] *)
  torch_mean0 : list nd -> vec;
  (* [cv2.dilate(msk, np.ones((20, 20), np.uint8), msk, iterations=1)] *)
  cv2_dilate : array2 float -> array2 float;
}.

(** The entries of a training sample that are read off the sampled patch. *)
Definition patch_keys : list string :=
  ["rays"; "nerf_near"; "nerf_far"; "patch_div_indices"; "patch_masks";
   "target_patches"; "target_patch_masks"; "target_rgbs"]%string.

(** ** The dataset object *)

Inductive split_t : Type := train | val | anim.

Abbreviation datum := (gmap string value).

(** The attributes of a [NeumanDataset] that the sample assembler reads,
    and the cache.  [__init__] fills them from the scene reader, the pose
    file and the mask directory. *)
Record NeumanDataset (capture : Type) : Type := mk_dataset {
  split : split_t;
  mode : string;
  scene_captures : list capture;
  smpl_params : gmap string (list nd);
  msk_lists : list (array2 Z);
  train_split : list Z;
  val_split : list Z;
  manual_rotmat : nd;
  manual_scale : nd;
  manual_trans : nd;
  num_frames : Z;
  cached_data : option (list datum);
}.

Arguments mk_dataset {capture}.
Arguments split {capture} _.
Arguments mode {capture} _.
Arguments scene_captures {capture} _.
Arguments smpl_params {capture} _.
Arguments msk_lists {capture} _.
Arguments train_split {capture} _.
Arguments val_split {capture} _.
Arguments manual_rotmat {capture} _.
Arguments manual_scale {capture} _.
Arguments manual_trans {capture} _.
Arguments num_frames {capture} _.
Arguments cached_data {capture} _.

Section SampleAssembler.

Context {LM : Libm} {EX : Externals} {capture : Type} {CO : Capture capture}
        {rng : Type} {RS : RandomState rng}.

Implicit Type self : NeumanDataset capture.

(** [__len__] *)
Definition __len__ self : Z :=
  match split self with
  | train => py_len (train_split self)
  | val => py_len (val_split self)
  | anim => num_frames self
  end.

(** [self.smpl_params[key][idx]] *)
Definition smpl_param self (key : string) (idx : Z) : result nd :=
  match smpl_params self !! key with
  | Some t => py_index t idx
  | None => Raise KeyError
  end.

(** [self.smpl_params[key]] *)
Definition smpl_param_all self (key : string) : result (list nd) :=
  match smpl_params self !! key with
  | Some t => Ok t
  | None => Raise KeyError
  end.

(** Lines 451-470: the image, the mask and the box of the mask. *)
Definition load_image (cap : capture) : array2 vec :=
  array2_map
    (fun px => (fun c => f32 (PrimFloat.div (py_float_of_int c) 255%float))
               <$> take 3 px)
    (captured_image cap).

Definition load_mask self (idx : Z) : result (array2 float) :=
  raw ← py_index (msk_lists self) idx;
  let msk :=
    array2_map (fun c => PrimFloat.div (py_float_of_int c) 255%float) raw in
  let msk := if String.eqb (mode self) "scene" then cv2_dilate msk else msk in
  Ok (array2_map f32 msk).

Definition mask_bbox (msk : array2 float) : result (list Z) :=
  let rows := np_any_axis0 msk in
  let cols := np_any_axis1 msk in
  '(ymin, ymax) ← first_last_true rows;
  '(xmin, xmax) ← first_last_true cols;
  Ok [xmin; ymin; xmax; ymax].

(** [img.transpose(2, 0, 1)]: one plane per colour channel. *)
Definition image_planes (img : array2 vec) : nd :=
  NdList ((fun c => nd_array2 (fun px => NdF (default 0%float (px !! c))) img)
          <$> seq 0 3).

Definition image_fields self (cap : capture) (idx : Z)
  : result (array2 vec * array2 float * datum) :=
  let img := load_image cap in
  msk ← load_mask self idx;
  bbox ← mask_bbox msk;
  Ok (img, msk,
      <["bbox" := VTensor cpu (nd_vec ((fun z => f32 (py_float_of_int z)) <$> bbox))]>
      (<["mask" := VTensor cpu (nd_array2 NdF msk)]>
      (<["rgb" := VTensor cpu (image_planes img)]> ∅))).

(** Lines 472-509: the camera and the pose entries. *)
Definition camera_fields self (cap : capture) (idx : Z) (datum0 : datum)
  : result datum :=
  let K := intrinsic_matrix cap in
  let width := (size cap).2 in
  let height := (size cap).1 in
  k00 ← mat_get K 0 0;
  k11 ← mat_get K 1 1;
  let fovx :=
    PrimFloat.mul 2%float
      (np_arctan (PrimFloat.div (py_float_of_int width)
                                (PrimFloat.mul 2%float k00))) in
  let fovy :=
    PrimFloat.mul 2%float
      (np_arctan (PrimFloat.div (py_float_of_int height)
                                (PrimFloat.mul 2%float k11))) in
  let zfar := 100.0%float in
  let znear := 0.01%float in
  let world_view_transform := mat_transpose (cam_pose_world_to_camera cap) in
  let c2w := cam_pose_camera_to_world cap in
  let projection_matrix :=
    mat_transpose (get_projection_matrix znear zfar fovx fovy) in
  let full_proj_transform := torch_bmm world_view_transform projection_matrix in
  row3 ← py_index (torch_inverse world_view_transform) 3;
  let camera_center := take 3 row3 in
  let cam_intrinsics := (fun row : vec => f32 <$> row) <$> K in
  betas ← smpl_param self "betas" idx;
  global_orient ← smpl_param self "global_orient" idx;
  body_pose ← smpl_param self "body_pose" idx;
  transl ← smpl_param self "transl" idx;
  smpl_scale ← smpl_param self "scale" idx;
  Ok (<["far" := VFloat zfar]>
     (<["near" := VFloat znear]>
     (<["smpl_scale" := VTensor cpu smpl_scale]>
     (<["transl" := VTensor cpu transl]>
     (<["body_pose" := VTensor cpu body_pose]>
     (<["global_orient" := VTensor cpu global_orient]>
     (<["betas" := VTensor cpu betas]>
     (<["cam_intrinsics" := VTensor cpu (nd_rows cam_intrinsics)]>
     (<["camera_center" := VTensor cpu (nd_vec camera_center)]>
     (<["full_proj_transform" := VTensor cpu (nd_rows full_proj_transform)]>
     (<["c2w" := VTensor cpu (nd_rows c2w)]>
     (<["world_view_transform" := VTensor cpu (nd_rows world_view_transform)]>
     (<["image_width" := VInt width]>
     (<["image_height" := VInt height]>
     (<["fovy" := VFloat fovy]>
     (<["fovx" := VFloat fovx]> datum0)))))))))))))))).

(** Lines 512-524: the canonical skeleton, its box and the motion-weight
    priors.  The method stores them in attributes of [self] and reads them
    back further down in the same call. *)
Record canonical : Type := mk_canonical {
  canonical_joints : list vec;
  canonical_bbox : bbox;
  motion_weights_priors : nd;
}.

Definition canonical_fields self : result canonical :=
  poses ← pose72 da_pose;
  all_betas ← smpl_param_all self "betas";
  let betas := torch_mean0 all_betas in
  let joints := smpl_joints poses betas in
  box ← skeleton_to_bbox joints default_bbox_offset;
  Ok (mk_canonical joints box
        (nd_astype_f32 (approx_gaussian_bone_volumes joints (min_xyz box)
                                                     (max_xyz box)))).

(** Lines 529-547: the box of the posed skeleton and one ray per pixel. *)
Record frame_rays : Type := mk_frame_rays {
  fr_dst_bbox : bbox;
  fr_dst_poses : vec;
  fr_rays_o : array2 vec;
  fr_rays_d : array2 vec;
}.

Definition get_frame_rays self (cap : capture) (idx : Z) : result frame_rays :=
  let K := intrinsic_matrix cap in
  let W := (size cap).2 in
  let H := (size cap).1 in
  body_pose ← smpl_param self "body_pose" idx;
  poses ← pose72 (nd_floats body_pose);
  betas ← smpl_param self "betas" idx;
  let joints := smpl_joints poses (nd_floats betas) in
  dst_bbox ← skeleton_to_bbox joints default_bbox_offset;
  body_pose' ← smpl_param self "body_pose" idx;
  dst_poses ← pose72 (nd_floats body_pose');
  Rh ← smpl_param self "global_orient" idx;
  Th ← smpl_param self "transl" idx;
  let E := apply_global_tfm_to_camera (extrinsic_matrix cap)
             (nd_floats Rh) (nd_floats Th) in
  let R := (fun row : vec => take 3 row) <$> take 3 E in
  T ← mapM (fun row : vec =>
              x ← py_index row 3; Ok (PrimFloat.div x 13.0%float))
           (take 3 E);
  let '(rays_o, rays_d) := get_rays_from_KRT H W K R T in
  Ok (mk_frame_rays dst_bbox dst_poses rays_o rays_d).

(** Lines 552-563: the rays are flattened, intersected with the box and
    cut down to those that meet it. *)
Record compacted : Type := mk_compacted {
  c_ray_mask : list bool;
  c_rays_o : list vec;
  c_rays_d : list vec;
  c_ray_img : list vec;
  c_nerf_near : list vec;
  c_nerf_far : list vec;
}.

Definition compact_rays (dst_bbox : bbox) (img : array2 vec)
    (rays_o rays_d : array2 vec) : result compacted :=
  let ray_img := reshape_flat img in
  let rays_o := reshape_flat rays_o in
  let rays_d := reshape_flat rays_d in
  let '(nerf_near, nerf_far, ray_mask) :=
    rays_intersect_3d_bbox dst_bbox rays_o rays_d in
  rays_o ← np_mask_index rays_o ray_mask;
  rays_d ← np_mask_index rays_d ray_mask;
  ray_img ← np_mask_index ray_img ray_mask;
  let nerf_near := (fun x => [f32 x]) <$> nerf_near in
  let nerf_far := (fun x => [f32 x]) <$> nerf_far in
  Ok (mk_compacted ray_mask rays_o rays_d ray_img nerf_near nerf_far).

(** [np.stack([rays_o, rays_d], axis=0)] *)
Definition stack_rays (rays_o rays_d : list vec) : result nd :=
  if py_len rays_o =? py_len rays_d
  then Ok (NdList [nd_rows rays_o; nd_rows rays_d])
  else Raise ValueError.

Definition nd_patches {A : Type} (f : A -> nd) (l : list (array2 A)) : nd :=
  NdList (nd_array2 f <$> l).

(** [2.0 / (max_xyz - min_xyz)] on the float32 corners of the canonical box. *)
Definition cnl_bbox_scale_xyz (cnl : canonical) : vec :=
  (fun x => f32 (PrimFloat.div 2.0%float x))
  <$> (f32 <$> vsub (f32 <$> max_xyz (canonical_bbox cnl))
                    (f32 <$> min_xyz (canonical_bbox cnl))).

(** [np.zeros((3)).astype('float32')] *)
Definition bgcolor : vec := f32 <$> replicate 3 0%float.

(** The [datum.update] calls of lines 580-630. *)
Definition train_datum (cnl : canonical) (fr : frame_rays) (c : compacted)
    (p : patch_sample) (batch_rays : nd) (datum0 : datum) : datum :=
  let '(dst_Rs, dst_Ts) :=
    body_pose_to_body_RTs (fr_dst_poses fr) (canonical_joints cnl) in
  let cnl_gtfms := get_canonical_global_tfms (canonical_joints cnl) in
  let dst_posevec_69 :=
    (fun x => PrimFloat.add x 1e-2%float) <$> drop 3 (fr_dst_poses fr) in
  <["dst_posevec" := VArray (nd_vec dst_posevec_69)]>
  (<["cnl_bbox_scale_xyz" := VArray (nd_vec (cnl_bbox_scale_xyz cnl))]>
  (<["cnl_bbox_max_xyz" := VArray (nd_vec (f32 <$> max_xyz (canonical_bbox cnl)))]>
  (<["cnl_bbox_min_xyz" := VArray (nd_vec (f32 <$> min_xyz (canonical_bbox cnl)))]>
  (<["motion_weights_priors" := VArray (motion_weights_priors cnl)]>
  (<["cnl_gtfms" := VArray cnl_gtfms]>
  (<["dst_Ts" := VArray dst_Ts]>
  (<["dst_Rs" := VArray dst_Rs]>
  (<["target_rgbs" := VArray (nd_rows (ps_ray_img p))]>
  (<["target_patch_masks" := VArray (nd_patches NdF (ps_target_patch_masks p))]>
  (<["target_patches" := VArray (nd_patches nd_vec (ps_target_patches p))]>
  (<["patch_masks" := VArray (nd_patches NdB (ps_patch_masks p))]>
  (<["patch_div_indices" := VArray (nd_ints (ps_patch_div_indices p))]>
  (<["bgcolor" := VArray (nd_vec bgcolor)]>
  (<["nerf_far" := VArray (nd_rows (ps_nerf_far p))]>
  (<["nerf_near" := VArray (nd_rows (ps_nerf_near p))]>
  (<["rays" := VArray batch_rays]>
  (<["ray_mask" := VArray (nd_bools (c_ray_mask c))]> datum0))))))))))))))))).

(** Lines 511-630: what a training or validation sample adds. *)
Definition train_fields self (cap : capture) (idx : Z)
    (img : array2 vec) (msk : array2 float) (datum0 : datum) (s : rng)
  : result (datum * rng) :=
  cnl ← canonical_fields self;
  let W := (size cap).2 in
  let H := (size cap).1 in
  fr ← get_frame_rays self cap idx;
  img_cv2 ← mask_background img msk bgcolor;
  c ← compact_rays (fr_dst_bbox fr) img (fr_rays_o fr) (fr_rays_d fr);
  '(p, s') ←
    sample_patch_rays img_cv2 msk H W
      (array2_map (fun x => PrimFloat.ltb 0%float x) msk)
      (c_ray_mask c) (c_rays_o c) (c_rays_d c) (c_ray_img c)
      (c_nerf_near c) (c_nerf_far c) s;
  batch_rays ← stack_rays (ps_rays_o p) (ps_rays_d p);
  _ ← py_assert (forallb (fun x => PrimFloat.leb 0%float x)
                         (cnl_bbox_scale_xyz cnl));
  Ok (train_datum cnl fr c p batch_rays datum0, s').

(** Lines 632-637: what an animation sample adds. *)
Definition anim_fields self (datum0 : datum) : datum :=
  <["manual_trans" := VTensor cpu (manual_trans self)]>
  (<["manual_scale" := VTensor cpu (manual_scale self)]>
  (<["manual_rotmat" := VTensor cpu (manual_rotmat self)]> datum0)).

Definition get_single_item self (i : Z) (s : rng) : result (datum * rng) :=
  idx ← match split self with
        | train => py_index (train_split self) i
        | val => py_index (val_split self) i
        | anim => Ok i
        end;
  cap ← py_index (scene_captures self) idx;
  match split self with
  | anim =>
      datum1 ← camera_fields self cap idx ∅;
      Ok (anim_fields self datum1, s)
  | _ =>
      '(img, msk, datum0) ← image_fields self cap idx;
      datum1 ← camera_fields self cap idx datum0;
      train_fields self cap idx img msk datum1 s
  end.

(** [load_data_to_cuda]: every sample is built once, in index order, its
    tensors are moved to the accelerator and the record is kept. *)
Fixpoint build_cache self (indices : list Z) (s : rng)
  : result (list datum * rng) :=
  match indices with
  | [] => Ok ([], s)
  | i :: rest =>
      '(datum1, s') ← get_single_item self i s;
      '(tail, s'') ← build_cache self rest s';
      Ok ((to_cuda <$> (datum1 : datum)) :: tail, s'')
  end.

Definition set_cached_data self (c : option (list datum))
  : NeumanDataset capture :=
  mk_dataset (split self) (mode self) (scene_captures self)
    (smpl_params self) (msk_lists self) (train_split self) (val_split self)
    (manual_rotmat self) (manual_scale self) (manual_trans self)
    (num_frames self) c.

Definition load_data_to_cuda self (s : rng)
  : result (NeumanDataset capture * rng) :=
  '(cache, s') ← build_cache self (py_range (__len__ self)) s;
  Ok (set_cached_data self (Some cache), s').

(** The last lines of [__init__]: the cache is emptied and filled. *)
Definition init_cached_data self (s : rng)
  : result (NeumanDataset capture * rng) :=
  let self := set_cached_data self None in
  match cached_data self with
  | None => load_data_to_cuda self s
  | Some _ => Ok (self, s)
  end.

(** [__getitem__]; without a cache it calls [get_single_item] with a
    keyword that the method does not take. *)
Definition __getitem__ self (idx : Z) : result datum :=
  match cached_data self with
  | None => Raise TypeError
  | Some cache => py_index cache idx
  end.

End SampleAssembler.


(** * A small scene for the examples

    Two captures of 160 rows and 161 columns.  The mask has two foreground
    pixels, at the two ends of the first row, so that the window of the one
    160-pixel patch starts at column 0 or at column 1 according to the draw.
    Only the rays of column 0 meet the box of the skeleton.  The values of
    the collaborators are simple stand-ins; the examples do not depend on
    them. *)

Definition stub_libm : Libm :=
  {| np_cos := fun _ => 1%float;
     np_sin := fun _ => 0%float;
     np_arctan := fun x => x |}.

Record demo_capture : Type := mk_demo_capture {
  dc_image : array2 (list Z);
  dc_intrinsic : list vec;
  dc_extrinsic : list vec;
  dc_size : Z * Z;
  dc_center : vec;
}.

Definition identity4 : list vec :=
  [[1; 0; 0; 0]; [0; 1; 0; 0]; [0; 0; 1; 0]; [0; 0; 0; 1]]%float.

Definition demo_capture_ops : Capture demo_capture :=
  {| captured_image := dc_image;
     intrinsic_matrix := dc_intrinsic;
     extrinsic_matrix := dc_extrinsic;
     size := dc_size;
     cam_pose_world_to_camera := fun _ => identity4;
     cam_pose_camera_to_world := fun _ => identity4;
     cam_pose_right := fun _ => [1; 0; 0]%float;
     cam_pose_up := fun _ => [0; 1; 0]%float;
     cam_pose_forward := fun _ => [0; 0; 1]%float;
     cam_pose_camera_center_in_world := dc_center;
     set_camera_center_in_world := fun c v =>
       mk_demo_capture (dc_image c) (dc_intrinsic c) (dc_extrinsic c)
                       (dc_size c) v |}.

Definition demo_externals : Externals :=
  {| smpl_joints := fun _ _ => [[-1; -1; -1]; [1; 1; 1]]%float;
     da_pose := replicate 69 0%float;
     approx_gaussian_bone_volumes := fun _ lo hi => NdList [nd_vec lo; nd_vec hi];
     apply_global_tfm_to_camera := fun E _ _ => E;
     get_rays_from_KRT := fun H W _ _ _ =>
       (mk_array2 H W ((fun _ => [0; 0; -5]%float) <$> py_range (H * W)),
        mk_array2 H W
          ((fun k => if k `mod` W =? 0 then [0; 0; 1]%float
                     else [10; 0; 1]%float) <$> py_range (H * W)));
     body_pose_to_body_RTs := fun poses joints => (nd_vec poses, nd_rows joints);
     get_canonical_global_tfms := nd_rows;
     get_projection_matrix := fun znear zfar fovx fovy =>
       [[fovx; 0; 0; 0]; [0; fovy; 0; 0]; [0; 0; zfar; znear]; [0; 0; 1; 0]]%float;
     torch_bmm := fun a _ => a;
     torch_inverse := fun a => a;
     torch_mean0 := fun l => match l with x :: _ => nd_floats x | [] => [] end;
     cv2_dilate := fun m => m |}.

Definition demo_image : array2 (list Z) :=
  mk_array2 160 161 ((fun k => [k `mod` 161; 128; 255]) <$> py_range (160 * 161)).

Definition demo_mask : array2 Z :=
  mk_array2 160 161
    ((fun k => if (k =? 0) || (k =? 160) then 255 else 0) <$> py_range (160 * 161)).

Definition demo_cap : demo_capture :=
  mk_demo_capture demo_image
    [[100; 0; 80.5]; [0; 100; 80]; [0; 0; 1]]%float
    identity4 (160, 161) [0; 0; 0]%float.

Definition demo_smpl_params : gmap string (list nd) :=
  <["betas" := replicate 2 (nd_vec (replicate 10 0.5%float))]>
  (<["body_pose" := replicate 2 (nd_vec (replicate 69 0.1%float))]>
  (<["global_orient" := replicate 2 (nd_vec [0; 0; 0]%float)]>
  (<["transl" := replicate 2 (nd_vec [0; 0; 0]%float)]>
  (<["scale" := replicate 2 (NdF 1%float)]> ∅)))).

Definition demo_dataset : NeumanDataset demo_capture :=
  mk_dataset train "human_scene" [demo_cap; demo_cap] demo_smpl_params
    [demo_mask; demo_mask] [0; 1] [0; 1] (NdList []) (NdList []) (NdList [])
    2 None.

(** A generator for the examples: the state counts the draws, and the draw
    among [n] candidates is the count modulo [n]. *)
Definition counter_choice (s n : Z) : Z * Z := (s `mod` n, s + 1).

Lemma counter_choice_range (s n : Z) :
  0 < n -> 0 <= (counter_choice s n).1 < n.
Proof. intros Hn. simpl. apply Z.mod_pos_bound. exact Hn. Qed.

Definition counter_rng : RandomState Z :=
  {| random_choice := counter_choice;
     random_choice_range := counter_choice_range |}.

(** [get_single_item] on the small scene, by the index and the state of the
    generator. *)
Abbreviation demo_item i s :=
  (@get_single_item stub_libm demo_externals demo_capture demo_capture_ops
     Z counter_rng demo_dataset i s).

(** The cache of the small scene, filled from the state [s], then the
    record served for the index [i] and the record that [get_single_item]
    yields for [i] at that time. *)
Abbreviation demo_init s :=
  (@init_cached_data stub_libm demo_externals demo_capture demo_capture_ops
     Z counter_rng demo_dataset s).

Abbreviation demo_cached_and_fresh i s :=
  ('(self', s') ← demo_init s;
   cached ← __getitem__ self' i;
   '(fresh, _) ←
     @get_single_item stub_libm demo_externals demo_capture demo_capture_ops
       Z counter_rng self' i s';
   Ok (cached, fresh)).

(** A mask of three rows and four columns with three foreground pixels, and
    a ray mask over its twelve pixels. *)
Definition demo_subject_mask : array2 bool :=
  mk_array2 3 4 [false; false; true; false;
                 false; true; false; false;
                 false; false; false; true].

Definition demo_ray_mask : list bool :=
  [true; false; true; false;
   false; true; true; false;
   false; false; true; true].

Definition is_ok {A : Type} (r : result A) : bool :=
  match r with
  | Ok _ => true
  | Raise _ => false
  end.

(** * Predicates of the statements *)

(** The order of binary64 as a proposition, and the floats that are numbers. *)
Definition fle (a b : float) : Prop := PrimFloat.leb a b = true.

Definition not_nan (a : float) : Prop := PrimFloat.is_nan a = false.

(** Componentwise order on points, and the points that the claim is about:
    [d] coordinates, none of them a [nan]. *)
Definition vle (u v : vec) : Prop := Forall2 fle u v.


(** What the loop of [get_patch_ray_indices] keeps true of its lists. *)
Definition patch_acc_ok (ray_mask : list bool) (acc : patch_acc) : Prop :=
  Forall (fun v => 0 <= v < count_true ray_mask) (concat (list_ray_indices acc)) /\
  total_rays acc = py_len (concat (list_ray_indices acc)) /\
  StronglySorted Z.le (patch_div_indices acc) /\
  Forall (fun d => d <= total_rays acc) (patch_div_indices acc) /\
  head (patch_div_indices acc) = Some 0 /\
  last (patch_div_indices acc) = Some (total_rays acc).

(** What three entries of a record say: the patch boundaries, the number of
    rows of [target_rgbs] and the number of true entries of [ray_mask]. *)
Definition patch_summary (r : result (datum * Z))
  : result (option value * option Z * option Z) :=
  d ← r;
  Ok (d.1 !! "patch_div_indices",
      d.1 !! "target_rgbs" ≫= value_len,
      d.1 !! "ray_mask" ≫= value_count_true).

(** * Further reading aids for the statements *)

(** The number of entries of a one-dimensional array, and whether a Python
    number is positive. *)
Definition ndarray1_len (a : ndarray1) : Z :=
  match a with
  | IntArray l => py_len l
  | FloatArray l => py_len l
  end.

Definition pynum_positive (x : pynum) : bool :=
  match x with
  | PyInt z => 0 <? z
  | PyFloat x => PrimFloat.ltb 0%float x
  end.

(** What the loop of [get_patch_ray_indices] keeps true of its four lists
    patch by patch: the [k]-th mask is the ray mask cut to the [k]-th window,
    and the [k]-th stretch of [patch_div_indices] is as long as that mask has
    true entries. *)
Definition patch_layout (ray_mask : list bool) (H W : Z)
    (masks : list (array2 bool)) (xy_mins xy_maxs : list (Z * Z))
    (div : list Z) : Prop :=
  length xy_mins = length masks /\ length xy_maxs = length masks /\
  length div = S (length masks) /\
  forall (k : nat) (m : array2 bool), masks !! k = Some m ->
    exists (x_min y_min x_max y_max d0 d1 : Z),
      xy_mins !! k = Some (x_min, y_min) /\
      xy_maxs !! k = Some (x_max, y_max) /\
      m = crop (mk_array2 H W ray_mask) y_min y_max x_min x_max /\
      div !! k = Some d0 /\ div !! S k = Some d1 /\
      d1 - d0 = count_true (cells m).

(** Line 232 of [__init__], for the training and validation datasets:
    [self.train_split, _, self.val_split = get_data_splits(scene)].  The
    second list that [get_data_splits] returns is dropped and the third one
    becomes [val_split]. *)
Definition init_splits {capture : Type} (captures : list capture)
  : result (list Z * list Z) :=
  '(train_split, _, val_split) ← get_data_splits captures;
  Ok (train_split, val_split).

(** Lines 440-445 of [get_single_item]: the capture index of the [i]-th
    sample of a dataset. *)
Definition frame_index {capture : Type} (self : NeumanDataset capture) (i : Z)
  : result Z :=
  match split self with
  | train => py_index (train_split self) i
  | val => py_index (val_split self) i
  | anim => Ok i
  end.

(** The keys of a sample record, in the order of the [datum.update] calls
    read backwards (the last key written comes first). *)
Definition image_keys : list string := ["bbox"; "mask"; "rgb"]%string.

Definition camera_keys : list string :=
  ["far"; "near"; "smpl_scale"; "transl"; "body_pose"; "global_orient";
   "betas"; "cam_intrinsics"; "camera_center"; "full_proj_transform"; "c2w";
   "world_view_transform"; "image_width"; "image_height"; "fovy";
   "fovx"]%string.

Definition train_keys : list string :=
  ["dst_posevec"; "cnl_bbox_scale_xyz"; "cnl_bbox_max_xyz"; "cnl_bbox_min_xyz";
   "motion_weights_priors"; "cnl_gtfms"; "dst_Ts"; "dst_Rs"; "target_rgbs";
   "target_patch_masks"; "target_patches"; "patch_masks"; "patch_div_indices";
   "bgcolor"; "nerf_far"; "nerf_near"; "rays"; "ray_mask"]%string.

Definition anim_keys : list string :=
  ["manual_trans"; "manual_scale"; "manual_rotmat"]%string.

Definition sample_keys (sp : split_t) : list string :=
  match sp with
  | anim => anim_keys ++ camera_keys
  | _ => train_keys ++ camera_keys ++ image_keys
  end.

(** ** [load_smpl_param]

    The archive that [np.load] opens is read as the dictionary of its
    arrays.  An array is known by its contents, so an empty list stands for
    an empty one-dimensional array. *)

Definition nd_is_list (a : nd) : bool :=
  match a with
  | NdList _ => true
  | _ => false
  end.

(** [a[..., 3:]] and [a[..., :3]]: [f] cuts every innermost row; an array
    without axes cannot be indexed. *)
Fixpoint nd_slice_last (f : list nd -> list nd) (a : nd) : result nd :=
  match a with
  | NdList l =>
      if forallb nd_is_list l then
        l' ← mapM (nd_slice_last f) l;
        Ok (NdList l')
      else Ok (NdList (f l))
  | _ => Raise IndexError
  end.

(** [a.astype(np.float32).reshape(1, 10)] *)
Definition nd_reshape_1_10 (a : nd) : result nd :=
  let flat := nd_floats (nd_astype_f32 a) in
  if py_len flat =? 10 then Ok (nd_rows [flat]) else Raise ValueError.

Definition npz_get (smpl_params : gmap string nd) (key : string) : result nd :=
  match smpl_params !! key with
  | Some a => Ok a
  | None => Raise KeyError
  end.

Definition load_smpl_param (npz : gmap string nd) : result (gmap string nd) :=
  let smpl_params := npz in
  smpl_params ←
    match smpl_params !! "thetas" with
    | Some thetas =>
        body_pose ← nd_slice_last (drop 3) thetas;
        let smpl_params := <["body_pose" := body_pose]> smpl_params in
        thetas ← npz_get smpl_params "thetas";
        global_orient ← nd_slice_last (take 3) thetas;
        Ok (<["global_orient" := global_orient]> smpl_params)
    | None => Ok smpl_params
    end;
  betas ← npz_get smpl_params "betas";
  betas ← nd_reshape_1_10 betas;
  body_pose ← npz_get smpl_params "body_pose";
  global_orient ← npz_get smpl_params "global_orient";
  transl ← npz_get smpl_params "transl";
  Ok (<["betas" := betas]>
     (<["body_pose" := nd_astype_f32 body_pose]>
     (<["global_orient" := nd_astype_f32 global_orient]>
     (<["transl" := nd_astype_f32 transl]> ∅)))).

(** An archive for the examples: one frame with five pose entries. *)
Definition demo_npz : gmap string nd :=
  <["betas" := nd_vec (replicate 10 0.5%float)]>
  (<["transl" := nd_vec [0; 0; 0]%float]>
  (<["body_pose" := nd_vec [9; 9]%float]>
  (<["thetas" := nd_rows [[1; 2; 3; 4; 5]%float]]> ∅))).

(** * Properties *)

(** ** Exceptions and binds *)

Lemma bind_Ok {A B : Type} (m : result A) (k : A -> result B) (b : B) :
  m ≫= k = Ok b -> exists a, m = Ok a /\ k a = Ok b.
Proof. destruct m as [a|e]; simpl; intros Hk; [eauto | discriminate]. Qed.

Lemma py_assert_Ok (b : bool) (u : unit) : py_assert b = Ok u -> b = true.
Proof. destruct b; [reflexivity | discriminate]. Qed.

(** Splits a successful run into its steps, first to last. *)
Ltac inv_bind H :=
  repeat
    (let a := fresh "r" in
     let Ha := fresh "Hstep" in
     apply bind_Ok in H; destruct H as (a & Ha & H)).

(** ** Lists and slices *)

Lemma py_range_from_seqZ (start : Z) (n : nat) :
  py_range_from start n = seqZ start (Z.of_nat n).
Proof.
  revert start; induction n as [|n IH]; intros start; [reflexivity|].
  rewrite seqZ_cons by lia. simpl. rewrite IH. do 2 f_equal; lia.
Qed.

Lemma py_range_seqZ (n : Z) : py_range n = seqZ 0 n.
Proof.
  unfold py_range. rewrite py_range_from_seqZ.
  destruct (Z.le_gt_cases 0 n) as [Hn|Hn].
  - by rewrite Z2Nat.id.
  - rewrite Z2Nat.nonpos by lia. by rewrite !seqZ_nil by lia.
Qed.

Lemma NoDup_py_range (n : Z) : NoDup (py_range n).
Proof. rewrite py_range_seqZ. apply NoDup_seqZ. Qed.

Lemma elem_of_py_range (n k : Z) : k ∈ py_range n <-> 0 <= k < n.
Proof. rewrite py_range_seqZ, elem_of_seqZ. lia. Qed.

Lemma length_py_range (n : Z) : length (py_range n) = Z.to_nat n.
Proof. rewrite py_range_seqZ. apply length_seqZ. Qed.

Lemma take_every_sublist {A : Type} (step c : nat) (l : list A) :
  take_every step c l `sublist_of` l.
Proof.
  revert c; induction l as [|x l IH]; intros c; simpl.
  - constructor.
  - destruct c; [apply sublist_skip | apply sublist_cons]; apply IH.
Qed.

Lemma py_slice_from_step_sub {A : Type} (l v : list A) (start step : Z) :
  py_slice_from_step l start step = Ok v -> NoDup l -> NoDup v /\ v ⊆ l.
Proof.
  unfold py_slice_from_step; intros Hv Hl.
  destruct (step =? 0); [discriminate|].
  destruct (0 <? step); injection Hv as <-.
  - assert (Hs : take_every (Z.to_nat step) 0
                   (drop (Z.to_nat (slice_bound (py_len l) start)) l)
                 `sublist_of` l).
    { etransitivity; [apply take_every_sublist | apply sublist_drop]. }
    split; [eapply sublist_NoDup; eauto | by apply sublist_subseteq].
  - set (k := Z.to_nat _ : nat) at 2.
    assert (Hs : take_every (Z.to_nat (- step)) 0 (reverse (take k l))
                 `sublist_of` reverse (take k l))
      by apply take_every_sublist.
    split.
    + eapply sublist_NoDup; [|exact Hs].
      rewrite reverse_Permutation.
      eapply sublist_NoDup; [exact Hl | apply sublist_take].
    + intros x Hx. eapply elem_of_sublist in Hx; [|exact Hs].
      rewrite elem_of_reverse in Hx.
      eapply elem_of_sublist; [exact Hx | apply sublist_take].
Qed.

Lemma list_difference_length (l v : list Z) :
  NoDup l -> NoDup v -> v ⊆ l ->
  (length (list_difference l v) + length v = length l)%nat.
Proof.
  intros Hl Hv Hsub. rewrite <- length_app.
  apply Permutation_length, NoDup_Permutation; [|exact Hl|].
  - apply NoDup_app. split; [by apply NoDup_list_difference|]. split; [|exact Hv].
    intros x Hx. apply list_elem_of_difference in Hx. tauto.
  - intros x. rewrite elem_of_app, list_elem_of_difference.
    split; [intros [[Hx _]|Hx]; auto|].
    intros Hx. destruct (decide (x ∈ v)); auto.
Qed.

Lemma py_slice_to_take {A : Type} (l : list A) (h : Z) :
  0 <= h <= py_len l -> py_slice_to l h = take (Z.to_nat h) l.
Proof.
  unfold py_slice_to, py_slice, slice_bound, py_len; intros Hh.
  destruct (0 <? 0) eqn:E0; [lia|]. destruct (h <? 0) eqn:Eh; [lia|].
  rewrite (Z.min_l h), (Z.min_l 0) by lia. simpl. f_equal. lia.
Qed.

Lemma py_slice_from_drop {A : Type} (l : list A) (h : Z) :
  0 <= h <= py_len l -> py_slice_from l h = drop (Z.to_nat h) l.
Proof.
  unfold py_slice_from, py_slice, slice_bound, py_len; intros Hh.
  destruct (h <? 0) eqn:Eh; [lia|].
  destruct (Z.of_nat (length l) <? 0) eqn:El; [lia|].
  rewrite (Z.min_l h) by lia. rewrite Z.min_id.
  apply take_ge. rewrite length_drop. lia.
Qed.

(** ** [get_data_splits] *)

Lemma get_data_splits_Ok {capture : Type} (captures : list capture)
    (train_list val_list test_list : list Z) :
  get_data_splits captures = Ok (train_list, val_list, test_list) ->
  exists (v : list Z) (h : nat),
    NoDup v /\ v ⊆ py_range (py_len captures) /\
    train_list = list_difference (py_range (py_len captures)) v /\
    test_list = take h v /\ val_list = drop h v /\
    0 < py_len train_list /\ 0 < py_len test_list /\ 0 < py_len val_list.
Proof.
  unfold get_data_splits; intros Hs. inv_bind Hs.
  apply py_assert_Ok, Z.ltb_lt in Hstep2, Hstep3, Hstep4.
  injection Hs as <- <- <-.
  apply py_slice_from_step_sub in Hstep1 as [Hnd Hsub]; [|apply NoDup_py_range].
  assert (Hh : 0 <= py_len r1 / 2 <= py_len r1).
  { unfold py_len. split; [apply Z.div_pos; lia|].
    apply Z.div_le_upper_bound; lia. }
  rewrite py_slice_to_take in * by exact Hh.
  rewrite py_slice_from_drop in * by exact Hh.
  exists r1, (Z.to_nat (py_len r1 / 2)). unfold set_difference in *. tauto.
Qed.

(** C8. When [get_data_splits] returns, the three lists are made of capture
    indices below the number of captures, no index occurs twice or in two
    lists, the three lengths add up to the number of captures, and no list is
    empty.  With 100 captures it returns, and the lengths add up to 100.
    With fewer than ten captures it raises instead of returning a split. *)
Theorem get_data_splits_partition (capture : Type) (captures : list capture) :
  (forall train_list val_list test_list : list Z,
      get_data_splits captures = Ok (train_list, val_list, test_list) ->
      (forall x, x ∈ (train_list ++ val_list ++ test_list) ->
                 0 <= x < py_len captures) /\
      NoDup (train_list ++ val_list ++ test_list) /\
      (forall x, x ∈ train_list -> (x ∉ val_list) /\ (x ∉ test_list)) /\
      (forall x, x ∈ val_list -> x ∉ test_list) /\
      py_len train_list + py_len val_list + py_len test_list = py_len captures /\
      0 < py_len train_list /\ 0 < py_len val_list /\ 0 < py_len test_list) /\
  (length captures = 100%nat ->
   exists train_list val_list test_list : list Z,
     get_data_splits captures = Ok (train_list, val_list, test_list) /\
     py_len train_list + py_len val_list + py_len test_list = 100) /\
  ((length captures < 10)%nat ->
   exists e : exn, get_data_splits captures = Raise e).
Proof.
  split; [|split].
  - intros train_list val_list test_list Hs.
    apply get_data_splits_Ok in Hs
      as (v & h & Hnd & Hsub & -> & -> & -> & Htr & Hte & Hva).
    pose proof (list_difference_length _ _ (NoDup_py_range (py_len captures))
                  Hnd Hsub) as Hlen.
    assert (Hperm : drop h v ++ take h v ≡ₚ v).
    { rewrite (comm (++)). by rewrite take_drop. }
    assert (Hnd3 : NoDup (list_difference (py_range (py_len captures)) v
                          ++ drop h v ++ take h v)).
    { rewrite Hperm. apply NoDup_app.
      split; [apply NoDup_list_difference, NoDup_py_range|]. split; [|exact Hnd].
      intros x Hx. apply list_elem_of_difference in Hx. tauto. }
    split; [|split; [exact Hnd3|split; [|split; [|split]]]].
    + intros x Hx. rewrite Hperm in Hx.
      assert (Hin : x ∈ py_range (py_len captures)).
      { apply elem_of_app in Hx as [Hx|Hx]; [|by apply Hsub].
        apply list_elem_of_difference in Hx. tauto. }
      apply elem_of_py_range in Hin. lia.
    + apply NoDup_app in Hnd3 as (_ & Hdis & _).
      intros x Hx. specialize (Hdis x Hx). rewrite elem_of_app in Hdis. tauto.
    + apply NoDup_app in Hnd3 as (_ & _ & Hnd2).
      apply NoDup_app in Hnd2 as (_ & Hdis & _). exact Hdis.
    + unfold py_len in *. rewrite length_py_range in Hlen.
      pose proof (f_equal length (take_drop h v)) as Hv.
      rewrite length_app in Hv. lia.
    + tauto.
  - intros Hlen. unfold get_data_splits, py_len. rewrite Hlen.
    vm_compute. eexists _, _, _. split; reflexivity.
  - intros Hlen. unfold get_data_splits, py_len.
    destruct (length captures) as [|n]; [vm_compute; eauto|].
    do 9 (destruct n as [|n]; [vm_compute; eauto|]). lia.
Qed.

(** ** The lookup tables *)

Lemma not_recognized (scene_name : string) :
  basename scene_name ∉ recognized_scenes ->
  forall name : string, name ∈ recognized_scenes ->
                        String.eqb (basename scene_name) name = false.
Proof.
  intros Hnot name Hin. apply String.eqb_neq. intros <-. contradiction.
Qed.

(** C6, as the code has it.  For a scene name whose basename is none of the
    recognized scenes, [mocap_path] raises [ValueError] and [rendering_caps]
    raises too (its result variable was never assigned), so neither returns a
    default; [alignment] does not raise: it returns the identity alignment
    (zero translation, zero rotation, scale one). *)
Theorem unrecognized_scene_lookups {LM : Libm} {capture : Type}
    {CO : Capture capture}
    (scene_name : string) (nframes : Z) (captures : list capture) :
  basename scene_name ∉ recognized_scenes ->
  mocap_path scene_name = Raise ValueError /\
  rendering_caps scene_name nframes captures = Raise UnboundLocalError /\
  alignment scene_name
  = Ok (IntArray [0; 0; 0], FloatArray [0%float; 0%float; 0%float], PyInt 1).
Proof.
  intros Hnot. pose proof (not_recognized _ Hnot) as Hne.
  unfold mocap_path, rendering_caps, alignment.
  rewrite !Hne by (unfold recognized_scenes; set_solver).
  split; [reflexivity | split; [reflexivity | vm_compute; reflexivity]].
Qed.

(** C6, witness: the scene name [scenes/office]. *)
Lemma unrecognized_scene_lookups_witness :
  (basename "scenes/office" ∉ recognized_scenes) /\
  mocap_path "scenes/office" = Raise ValueError /\
  rendering_caps (LM := stub_libm) (CO := demo_capture_ops)
    "scenes/office" 3 [demo_cap] = Raise UnboundLocalError /\
  alignment "scenes/office"
  = Ok (IntArray [0; 0; 0], FloatArray [0%float; 0%float; 0%float], PyInt 1).
Proof.
  assert (Hnot : basename "scenes/office" ∉ recognized_scenes).
  { vm_compute. intros Hin.
    repeat (apply elem_of_cons in Hin as [Hin|Hin]; [discriminate Hin|]).
    by apply elem_of_nil in Hin. }
  split; [exact Hnot|].
  exact (unrecognized_scene_lookups (LM := stub_libm) (CO := demo_capture_ops)
           "scenes/office" 3 [demo_cap] Hnot).
Defined.

(** C6, counterexample to the claim as stated: for an unrecognized scene
    [alignment] returns a configuration. *)
Lemma alignment_returns_default :
(basename "scenes/office" ∉ recognized_scenes) /\
  exists cfg, alignment "scenes/office" = Ok cfg.
Proof.
  split.
  - vm_compute. intros Hin. repeat (apply elem_of_cons in Hin as [Hin|Hin]; [discriminate Hin|]).
    by apply elem_of_nil in Hin.
  - eexists. reflexivity.
Qed.

(** ** Indexing *)

Lemma mapM_Ok {A B : Type} (f : A -> result B) (l : list A) (vs : list B) :
  mapM f l = Ok vs -> Forall2 (fun x v => f x = Ok v) l vs.
Proof.
  revert vs; induction l as [|x l IH]; intros vs Hm; simpl in Hm.
  - injection Hm as <-. constructor.
  - inv_bind Hm. injection Hm as <-. constructor; auto.
Qed.

Lemma mapM_Ok_length {A B : Type} (f : A -> result B) (l : list A) (vs : list B) :
  mapM f l = Ok vs -> length vs = length l.
Proof. intros Hm. apply mapM_Ok in Hm. symmetry. eapply Forall2_length, Hm. Qed.

Lemma mapM_total {A B : Type} (f : A -> result B) (l : list A) :
  Forall (fun x => exists v, f x = Ok v) l -> exists vs, mapM f l = Ok vs.
Proof.
  induction 1 as [|x l [v Hv] _ [vs IH]]; simpl.
  - by exists [].
  - rewrite Hv. simpl. rewrite IH. simpl. by exists (v :: vs).
Qed.

Lemma py_index_Ok {A : Type} (l : list A) (i : Z) (x : A) :
  py_index l i = Ok x ->
  - py_len l <= i < py_len l /\
  l !! Z.to_nat (if i <? 0 then i + py_len l else i) = Some x.
Proof.
  unfold py_index. intros Hi.
  destruct (_ && _) eqn:Hb; [|discriminate].
  apply andb_true_iff in Hb as [Hlo Hhi].
  destruct (l !! _) eqn:Hl; [|discriminate].
  injection Hi as <-. split; [lia | reflexivity].
Qed.

Lemma py_index_nonneg {A : Type} (l : list A) (i : Z) (x : A) :
  0 <= i -> py_index l i = Ok x -> l !! Z.to_nat i = Some x.
Proof.
  intros Hi Hx. apply py_index_Ok in Hx as [_ Hx].
  destruct (i <? 0) eqn:E; [lia | exact Hx].
Qed.

Lemma py_index_in_range {A : Type} (l : list A) (i : Z) :
  0 <= i < py_len l -> exists x, py_index l i = Ok x /\ l !! Z.to_nat i = Some x.
Proof.
  intros Hi. unfold py_index.
  destruct (_ && _) eqn:Hb; [|apply andb_false_iff in Hb; lia].
  destruct (i <? 0) eqn:E; [lia|].
  destruct (lookup_lt_is_Some_2 l (Z.to_nat i)) as [x Hx]; [unfold py_len in Hi; lia|].
  rewrite Hx. eauto.
Qed.

Lemma np_take_length {A : Type} (a : list A) (inds : list Z) (vs : list A) :
  np_take a inds = Ok vs -> py_len vs = py_len inds.
Proof. intros Hm. unfold py_len. f_equal. by eapply mapM_Ok_length. Qed.

(** ** Boolean masks *)

Lemma count_true_cons (b : bool) (m : list bool) :
  count_true (b :: m) = (if b then 1 else 0) + count_true m.
Proof.
  unfold count_true, py_len. destruct b.
  - rewrite filter_cons_True by done. simpl length. lia.
  - rewrite filter_cons_False by done. lia.
Qed.

Lemma count_true_nil : count_true [] = 0.
Proof. reflexivity. Qed.

Lemma count_true_nonneg (m : list bool) : 0 <= count_true m.
Proof. unfold count_true, py_len. lia. Qed.

Lemma count_true_le_len (m : list bool) : count_true m <= py_len m.
Proof.
  unfold count_true, py_len. pose proof (length_filter (fun b => b = true) m). lia.
Qed.

Lemma count_true_take (n : nat) (m : list bool) :
  count_true (take n m) <= count_true m.
Proof.
  revert n; induction m as [|b m IH]; intros n.
  - rewrite take_nil. lia.
  - destruct n as [|n]; simpl take.
    + rewrite count_true_nil. apply count_true_nonneg.
    + rewrite !count_true_cons. specialize (IH n). lia.
Qed.

Lemma count_true_take_pos (n : nat) (m : list bool) :
  m !! n = Some true -> 1 <= count_true (take (S n) m).
Proof.
  revert n; induction m as [|b m IH]; intros n Hn; [discriminate|].
  rewrite firstn_cons, count_true_cons.
  destruct n as [|n]; simpl in Hn.
  - injection Hn as ->. pose proof (count_true_nonneg (take 0 m)). lia.
  - specialize (IH n Hn). destruct b; lia.
Qed.

Lemma compress_length {A : Type} (mask : list bool) (a : list A) :
  length mask = length a -> py_len (compress mask a) = count_true mask.
Proof.
  revert a; induction mask as [|b mask IH]; intros [|x a] Hlen;
    try discriminate; [reflexivity|].
  simpl. rewrite count_true_cons. injection Hlen as Hlen. specialize (IH a Hlen).
  destruct b; unfold py_len in *; simpl length; lia.
Qed.

Lemma np_mask_index_length {A : Type} (a vs : list A) (mask : list bool) :
  np_mask_index a mask = Ok vs ->
  py_len mask = py_len a /\ py_len vs = count_true mask.
Proof.
  unfold np_mask_index. destruct (_ =? _) eqn:E; [|discriminate].
  intros Hvs; injection Hvs as <-. apply Z.eqb_eq in E. split; [exact E|].
  apply compress_length. unfold py_len in E. lia.
Qed.

Lemma np_where_from_spec (m : list bool) (start k : Z) :
  k ∈ np_where_from start m <->
  start <= k /\ m !! Z.to_nat (k - start) = Some true.
Proof.
  revert start; induction m as [|b m IH]; intros start; simpl.
  - rewrite elem_of_nil. split; [tauto | intros [_ Hk]; discriminate].
  - assert (Hstep : start + 1 <= k /\ m !! Z.to_nat (k - (start + 1)) = Some true
                    <-> start < k /\ (b :: m) !! Z.to_nat (k - start) = Some true).
    { split; intros [Hle Hk]; (split; [lia|]).
      - replace (Z.to_nat (k - start)) with (S (Z.to_nat (k - (start + 1)))) by lia.
        exact Hk.
      - replace (Z.to_nat (k - start)) with (S (Z.to_nat (k - (start + 1)))) in Hk by lia.
        exact Hk. }
    destruct b.
    + rewrite elem_of_cons, IH, Hstep. split.
      * intros [->|[Hlt Hk]]; [|split; [lia | exact Hk]].
        split; [lia|]. by rewrite Z.sub_diag.
      * intros [Hle Hk]. destruct (decide (k = start)) as [->|Hne]; [by left|].
        right. split; [lia | exact Hk].
    + rewrite IH, Hstep. split.
      * intros [Hlt Hk]. split; [lia | exact Hk].
      * intros [Hle Hk]. destruct (decide (k = start)) as [->|Hne].
        -- rewrite Z.sub_diag in Hk. discriminate.
        -- split; [lia | exact Hk].
Qed.

Lemma np_where_spec (m : list bool) (k : Z) :
  k ∈ np_where m <-> 0 <= k /\ m !! Z.to_nat k = Some true.
Proof. unfold np_where. rewrite np_where_from_spec, Z.sub_0_r. reflexivity. Qed.

Lemma np_where_from_length (m : list bool) (start : Z) :
  py_len (np_where_from start m) = count_true m.
Proof.
  revert start; induction m as [|b m IH]; intros start; [reflexivity|].
  simpl. rewrite count_true_cons. specialize (IH (start + 1)).
  destruct b; unfold py_len in *; simpl length; lia.
Qed.

Lemma np_cumsum_from_lookup (m : list bool) (acc : Z) (j : nat) :
  (j < length m)%nat ->
  np_cumsum_from acc m !! j = Some (acc + count_true (take (S j) m)).
Proof.
  revert acc j; induction m as [|b m IH]; intros acc j Hj; simpl in Hj; [lia|].
  rewrite firstn_cons, count_true_cons. destruct j as [|j]; simpl.
  - rewrite take_0, count_true_nil. f_equal. lia.
  - rewrite IH by lia. f_equal. lia.
Qed.

Lemma np_cumsum_from_length (m : list bool) (acc : Z) :
  length (np_cumsum_from acc m) = length m.
Proof. revert acc; induction m as [|b m IH]; intros acc; simpl; [|rewrite IH]; done. Qed.

(** An entry of [np.cumsum(ray_mask) - 1] read at a position where the mask
    holds lies in the compacted index range. *)
Lemma masked_index_range (ray_mask : list bool) (k v : Z) :
  0 <= k -> ray_mask !! Z.to_nat k = Some true ->
  py_index ((fun c => c - 1) <$> np_cumsum ray_mask) k = Ok v ->
  0 <= v < count_true ray_mask.
Proof.
  intros Hk Hm Hv. apply py_index_nonneg in Hv; [|exact Hk].
  rewrite list_lookup_fmap in Hv. unfold np_cumsum in Hv.
  rewrite np_cumsum_from_lookup in Hv by (by eapply lookup_lt_Some).
  injection Hv as <-.
  pose proof (count_true_take_pos _ _ Hm).
  pose proof (count_true_take (S (Z.to_nat k)) ray_mask). lia.
Qed.

(** ** Two-dimensional arrays *)

Lemma slice_range_bounds (len i j : Z) :
  0 <= len ->
  0 <= (slice_range len i j).1 <= (slice_range len i j).2 /\
  (slice_range len i j).2 <= len.
Proof.
  intros Hlen. unfold slice_range, slice_bound. simpl.
  destruct (Z.ltb_spec i 0), (Z.ltb_spec j 0); lia.
Qed.

Lemma slice_range_inside (len i j : Z) :
  0 <= i <= j -> j <= len -> slice_range len i j = (i, j).
Proof.
  intros Hi Hj. unfold slice_range, slice_bound.
  destruct (i <? 0) eqn:Ei; [lia|]. destruct (j <? 0) eqn:Ej; [lia|].
  f_equal; lia.
Qed.

Lemma length_concat_fmap_const {A B : Type} (f : A -> list B) (l : list A) (n : nat) :
  Forall (fun x => length (f x) = n) l ->
  length (concat (f <$> l)) = (n * length l)%nat.
Proof.
  induction 1 as [|x l Hx Hl IH]; [simpl; lia|].
  rewrite fmap_cons. change (concat (f x :: (f <$> l))) with (f x ++ concat (f <$> l)).
  rewrite length_app, IH, Hx. simpl length. lia.
Qed.

Lemma elem_of_py_range_from (start k : Z) (n : nat) :
  k ∈ py_range_from start n <-> start <= k < start + Z.of_nat n.
Proof. rewrite py_range_from_seqZ, elem_of_seqZ. reflexivity. Qed.

Lemma length_py_range_from (start : Z) (n : nat) :
  length (py_range_from start n) = n.
Proof. rewrite py_range_from_seqZ, length_seqZ. lia. Qed.

Lemma crop_wf {A : Type} (a : array2 A) (y0 y1 x0 x1 : Z) :
  array2_wf a -> array2_wf (crop a y0 y1 x0 x1).
Proof.
  intros (Hr & Hc & Hlen). unfold crop.
  pose proof (slice_range_bounds (nrows a) y0 y1 Hr) as Hy.
  pose proof (slice_range_bounds (ncols a) x0 x1 Hc) as Hx.
  destruct (slice_range (nrows a) y0 y1) as [r0 r1].
  destruct (slice_range (ncols a) x0 x1) as [c0 c1]. simpl in Hy, Hx.
  unfold array2_wf; simpl. split; [lia|]. split; [lia|].
  unfold py_len in *.
  rewrite (length_concat_fmap_const _ _ (Z.to_nat (c1 - c0))).
  - rewrite length_py_range_from, Nat2Z.inj_mul, !Z2Nat.id by lia. lia.
  - apply Forall_forall. intros r Hin. apply elem_of_py_range_from in Hin.
    rewrite length_take, length_drop.
    assert (r * ncols a + c1 <= nrows a * ncols a) by nia.
    assert (0 <= r * ncols a) by nia. lia.
Qed.

Lemma crop_shape {A : Type} (a : array2 A) (y0 y1 x0 x1 : Z) :
  0 <= y0 <= y1 -> y1 <= nrows a -> 0 <= x0 <= x1 -> x1 <= ncols a ->
  nrows (crop a y0 y1 x0 x1) = y1 - y0 /\ ncols (crop a y0 y1 x0 x1) = x1 - x0.
Proof.
  intros Hy0 Hy1 Hx0 Hx1. unfold crop.
  rewrite !slice_range_inside by lia. split; reflexivity.
Qed.

Lemma window_mask_length {A : Type} (a : array2 A) (y0 y1 x0 x1 : Z) :
  array2_wf a ->
  py_len (cells (window_mask a y0 y1 x0 x1)) = nrows a * ncols a.
Proof.
  intros (Hr & Hc & _). unfold window_mask.
  destruct (slice_range (nrows a) y0 y1) as [r0 r1].
  destruct (slice_range (ncols a) x0 x1) as [c0 c1]. cbn [cells].
  unfold py_len. rewrite length_fmap, length_py_range. nia.
Qed.

Lemma np_stack_total {A : Type} (l : list (array2 A)) (p q : Z) :
  l <> [] -> Forall (fun m => nrows m = p /\ ncols m = q) l -> np_stack l = Ok l.
Proof.
  intros Hne Hall. destruct l as [|a l]; [done|]. unfold np_stack.
  apply Forall_cons in Hall as [[Ha1 Ha2] Hall].
  replace (forallb (same_shape a) l) with true; [reflexivity|].
  symmetry. apply forallb_forall. intros m Hm.
  rewrite Forall_forall in Hall. apply list_elem_of_In in Hm.
  destruct (Hall m Hm) as [Hm1 Hm2]. unfold same_shape.
  rewrite andb_true_iff, !Z.eqb_eq. lia.
Qed.

Lemma np_reshape2_Ok {A : Type} (l : list A) (H W : Z) (a : array2 A) :
  np_reshape2 l H W = Ok a ->
  a = mk_array2 H W l /\ array2_wf a.
Proof.
  unfold np_reshape2. destruct (_ && _) eqn:Hb; [|discriminate].
  intros Ha; injection Ha as <-.
  apply andb_true_iff in Hb as [Hb Hlen]. apply andb_true_iff in Hb as [HH HW].
  split; [reflexivity|]. unfold array2_wf; simpl. lia.
Qed.

(** ** The patch sampler *)

Section PatchSamplerProps.

Context {rng : Type} {RS : RandomState rng}.

Lemma np_random_choice_Ok (n : Z) (s s' : rng) (i : Z) :
  np_random_choice n s = Ok (i, s') -> 0 <= i < n.
Proof.
  unfold np_random_choice. destruct (n <=? 0) eqn:E; [discriminate|].
  intros Hc; injection Hc as Hc. pose proof (random_choice_range s n) as Hr.
  rewrite Hc in Hr. simpl in Hr. apply Hr. lia.
Qed.

Lemma choose_center_empty (candidate_mask : array2 bool) (s : rng) :
  count_true (cells candidate_mask) = 0 ->
  choose_center candidate_mask s = Raise ValueError.
Proof.
  intros Hz. unfold choose_center, np_where2, np_where, np_random_choice.
  unfold py_len at 1. rewrite length_fmap.
  pose proof (np_where_from_length (cells candidate_mask) 0) as Hl.
  unfold py_len in Hl. rewrite Hl, Hz. reflexivity.
Qed.

Lemma choose_center_Ok (candidate_mask : array2 bool) (s s' : rng)
    (center_x center_y : Z) :
  array2_wf candidate_mask ->
  choose_center candidate_mask s = Ok (center_x, center_y, s') ->
  0 <= center_x < ncols candidate_mask /\
  0 <= center_y < nrows candidate_mask /\
  array2_get candidate_mask center_y center_x = Some true.
Proof.
  intros (Hr & Hc & Hlen). unfold choose_center, np_where2. intros Hch.
  inv_bind Hch. destruct r as [select_idx s1]. inv_bind Hch.
  injection Hch as <- <- <-.
  apply np_random_choice_Ok in Hstep.
  apply py_index_nonneg in Hstep0, Hstep1; try lia.
  rewrite list_lookup_fmap in Hstep0, Hstep1.
  destruct (np_where (cells candidate_mask) !! Z.to_nat select_idx) as [k|] eqn:Hk;
    [|discriminate].
  injection Hstep0 as <-. injection Hstep1 as <-.
  apply list_elem_of_lookup_2, np_where_spec in Hk as [Hk0 Hk].
  pose proof (lookup_lt_Some _ _ _ Hk) as Hlt. unfold py_len in Hlen.
  assert (Hcpos : 0 < ncols candidate_mask) by nia.
  pose proof (Z.mod_pos_bound k _ Hcpos) as Hmod.
  pose proof (Z.div_mod k (ncols candidate_mask) ltac:(lia)) as Hdm.
  assert (Hdiv : 0 <= k `div` ncols candidate_mask < nrows candidate_mask).
  { split; [apply Z.div_pos; lia|]. apply Z.div_lt_upper_bound; [lia|]. nia. }
  split; [lia|]. split; [lia|].
  unfold array2_get.
  replace (_ && _ && _ && _) with true
    by (symmetry; rewrite !andb_true_iff; lia).
  rewrite <- Hk. f_equal. lia.
Qed.

Lemma choose_center_total (candidate_mask : array2 bool) (s : rng) :
  0 < count_true (cells candidate_mask) ->
  exists center_x center_y s',
    choose_center candidate_mask s = Ok (center_x, center_y, s').
Proof.
  intros Hpos. unfold choose_center, np_where2.
  set (ks := np_where (cells candidate_mask)).
  assert (Hl : py_len ks = count_true (cells candidate_mask))
    by apply np_where_from_length.
  assert (Hly : py_len ((fun k => k `div` ncols candidate_mask) <$> ks) = py_len ks)
    by (unfold py_len; by rewrite length_fmap).
  assert (Hlx : py_len ((fun k => k `mod` ncols candidate_mask) <$> ks) = py_len ks)
    by (unfold py_len; by rewrite length_fmap).
  unfold np_random_choice. rewrite Hly.
  destruct (py_len ks <=? 0) eqn:E; [lia|]. simpl.
  destruct (random_choice s (py_len ks)) as [i s1] eqn:Hi.
  pose proof (random_choice_range s (py_len ks) ltac:(lia)) as Hr.
  rewrite Hi in Hr. simpl in Hr.
  destruct (py_index_in_range ((fun k => k `mod` ncols candidate_mask) <$> ks) i)
    as (x & Hx & _); [lia|].
  destruct (py_index_in_range ((fun k => k `div` ncols candidate_mask) <$> ks) i)
    as (y & Hy & _); [lia|].
  rewrite Hx. simpl. rewrite Hy. simpl. eauto.
Qed.

End PatchSamplerProps.

Section PatchSamplerTheorems.

Context {rng : Type} {RS : RandomState rng}.

Lemma np_bitwise_and_selected (sel ray_mask inter : list bool) (k : Z) :
  np_bitwise_and sel ray_mask = Ok inter ->
  k ∈ np_where inter -> k < py_len ray_mask ->
  0 <= k /\ ray_mask !! Z.to_nat k = Some true.
Proof.
  unfold np_bitwise_and. intros Hand Hk Hlt.
  apply np_where_spec in Hk as [Hk0 Hk]. split; [exact Hk0|].
  destruct (py_len sel =? py_len ray_mask).
  - injection Hand as <-. apply lookup_zip_with_Some in Hk as (x & y & Hxy & _ & Hy).
    symmetry in Hxy. apply andb_true_iff in Hxy as [_ ->]. exact Hy.
  - destruct sel as [|x [|x' sel]].
    + destruct ray_mask as [|y [|y' ray_mask]]; try discriminate.
      injection Hand as <-. discriminate.
    + injection Hand as <-. rewrite list_lookup_fmap in Hk.
      destruct (ray_mask !! Z.to_nat k) as [y|]; [|discriminate].
      injection Hk as Hk. apply andb_true_iff in Hk as [_ ->]. reflexivity.
    + destruct ray_mask as [|y [|y' ray_mask]]; try discriminate.
      injection Hand as <-.
      unfold py_len in Hlt. simpl in Hlt.
      replace (Z.to_nat k) with 0%nat in * by lia. simpl in Hk.
      injection Hk as Hk. apply andb_true_iff in Hk as [_ ->]. reflexivity.
Qed.


(** The steps of a successful [_get_patch_ray_indices]. *)
Lemma _get_patch_ray_indices_Ok (ray_mask : list bool)
    (candidate_mask : array2 bool) (patch_size H W : Z) (s s' : rng)
    (select_inds : list Z) (mask : array2 bool) (xy_min xy_max : Z * Z) :
  _get_patch_ray_indices ray_mask candidate_mask patch_size H W s
  = Ok (select_inds, mask, xy_min, xy_max, s') ->
  exists (center_x center_y : Z) (inter : list bool),
    choose_center candidate_mask s = Ok (center_x, center_y, s') /\
    xy_min = (np_clip (center_x - patch_size / 2) 0 (W - patch_size),
              np_clip (center_y - patch_size / 2) 0 (H - patch_size)) /\
    xy_max = (xy_min.1 + patch_size, xy_min.2 + patch_size) /\
    np_bitwise_and
      (cells (window_mask candidate_mask xy_min.2 xy_max.2 xy_min.1 xy_max.1))
      ray_mask = Ok inter /\
    np_take ((fun c => c - 1) <$> np_cumsum ray_mask) (np_where inter)
    = Ok select_inds /\
    array2_wf (mk_array2 H W inter) /\
    mask = crop (mk_array2 H W inter) xy_min.2 xy_max.2 xy_min.1 xy_max.1.
Proof.
  unfold _get_patch_ray_indices. intros Hp. inv_bind Hp.
  destruct r as [[center_x center_y] s1]. unfold patch_window in Hp.
  inv_bind Hp. injection Hp as <- <- <- <- <-.
  apply np_reshape2_Ok in Hstep2 as [-> Hwf].
  exists center_x, center_y, r. simpl. tauto.
Qed.

Lemma _get_patch_ray_indices_range (ray_mask : list bool)
    (candidate_mask : array2 bool) (patch_size H W : Z) (s s' : rng)
    (select_inds : list Z) (mask : array2 bool) (xy_min xy_max : Z * Z) :
  _get_patch_ray_indices ray_mask candidate_mask patch_size H W s
  = Ok (select_inds, mask, xy_min, xy_max, s') ->
  Forall (fun v => 0 <= v < count_true ray_mask) select_inds.
Proof.
  intros Hp. apply _get_patch_ray_indices_Ok in Hp
    as (cx & cy & inter & _ & _ & _ & Hand & Htake & _).
  apply mapM_Ok in Htake. apply Forall_forall. intros v Hv.
  apply list_elem_of_lookup in Hv as [i Hv].
  destruct (Forall2_lookup_r _ _ _ _ _ Htake Hv) as (k & Hk & Hkv).
  apply list_elem_of_lookup_2 in Hk.
  pose proof (py_index_Ok _ _ _ Hkv) as [Hrange _].
  unfold py_len in Hrange. unfold np_cumsum in Hrange.
  rewrite length_fmap, np_cumsum_from_length in Hrange.
  destruct (np_bitwise_and_selected _ _ _ _ Hand Hk) as [Hk0 Hm];
    [unfold py_len; lia|].
  eapply masked_index_range; eauto.
Qed.

(** A successful patch request with [0 < patch_size <= min(H, W)] on a
    candidate mask of shape [(H, W)]: the window, the mask and the center. *)
Lemma _get_patch_ray_indices_window (ray_mask : list bool)
    (candidate_mask : array2 bool) (patch_size H W : Z) (s s' : rng)
    (select_inds : list Z) (mask : array2 bool)
    (x_min y_min x_max y_max : Z) :
  0 < patch_size <= Z.min H W ->
  array2_wf candidate_mask ->
  nrows candidate_mask = H -> ncols candidate_mask = W ->
  _get_patch_ray_indices ray_mask candidate_mask patch_size H W s
  = Ok (select_inds, mask, (x_min, y_min), (x_max, y_max), s') ->
  (0 <= x_min /\ x_max = x_min + patch_size /\ x_max <= W) /\
  (0 <= y_min /\ y_max = y_min + patch_size /\ y_max <= H) /\
  (nrows mask = patch_size /\ ncols mask = patch_size /\ array2_wf mask) /\
  exists center_x center_y : Z,
    choose_center candidate_mask s = Ok (center_x, center_y, s') /\
    (x_min <= center_x < x_max /\ y_min <= center_y < y_max) /\
    x_min = Z.min (Z.max (center_x - patch_size / 2) 0) (W - patch_size) /\
    y_min = Z.min (Z.max (center_y - patch_size / 2) 0) (H - patch_size).
Proof.
  intros Hsize Hwf HH HW Hp.
  apply _get_patch_ray_indices_Ok in Hp
    as (cx & cy & inter & Hc & Hmin & Hmax & _ & _ & Hwf' & ->).
  injection Hmin as -> ->. injection Hmax as -> ->. cbn [fst snd].
  apply choose_center_Ok in Hc as Hcenter; [|exact Hwf].
  rewrite HH, HW in Hcenter. destruct Hcenter as (Hcx & Hcy & _).
  unfold np_clip in *.
  assert (Hhalf : 0 <= patch_size / 2 < patch_size).
  { split; [apply Z.div_pos; lia | apply Z.div_lt; lia]. }
  assert (Hdm : patch_size <= 2 * (patch_size / 2) + 1).
  { pose proof (Z.div_mod patch_size 2 ltac:(lia)).
    pose proof (Z.mod_pos_bound patch_size 2 ltac:(lia)). lia. }
  split; [lia|]. split; [lia|]. split.
  - destruct (crop_shape (mk_array2 H W inter)
      (Z.min (Z.max (cy - patch_size / 2) 0) (H - patch_size))
      (Z.min (Z.max (cy - patch_size / 2) 0) (H - patch_size) + patch_size)
      (Z.min (Z.max (cx - patch_size / 2) 0) (W - patch_size))
      (Z.min (Z.max (cx - patch_size / 2) 0) (W - patch_size) + patch_size))
      as [Hrows Hcols]; [cbn [nrows ncols]; lia ..|].
    rewrite Hrows, Hcols. split; [lia|]. split; [lia|].
    apply crop_wf, Hwf'.
  - exists cx, cy. split; [exact Hc|]. split; [lia|]. split; reflexivity.
Qed.

(** On a mask of the image's shape that holds a true pixel, and a ray mask
    with one entry per pixel, [_get_patch_ray_indices] returns. *)
Lemma _get_patch_ray_indices_total (ray_mask : list bool)
    (candidate_mask : array2 bool) (patch_size H W : Z) (s : rng) :
  array2_wf candidate_mask ->
  nrows candidate_mask = H -> ncols candidate_mask = W ->
  py_len ray_mask = H * W ->
  0 < count_true (cells candidate_mask) ->
  exists (select_inds : list Z) (mask : array2 bool) (xy_min xy_max : Z * Z)
         (s' : rng),
    _get_patch_ray_indices ray_mask candidate_mask patch_size H W s
    = Ok (select_inds, mask, xy_min, xy_max, s').
Proof.
  intros Hwf HH HW Hlen Hpos.
  destruct (choose_center_total candidate_mask s Hpos) as (cx & cy & s' & Hc).
  unfold _get_patch_ray_indices. rewrite Hc. cbn [mbind result_bind].
  unfold patch_window.
  set (x_min := np_clip (cx - patch_size / 2) 0 (W - patch_size)).
  set (y_min := np_clip (cy - patch_size / 2) 0 (H - patch_size)).
  pose proof (window_mask_length candidate_mask y_min (y_min + patch_size)
                x_min (x_min + patch_size) Hwf) as Hsel.
  rewrite HH, HW, <- Hlen in Hsel.
  unfold reshape_flat, np_bitwise_and at 1. rewrite Hsel, Z.eqb_refl.
  cbn [mbind result_bind].
  set (inter := zip_with andb _ ray_mask).
  assert (Hinter : py_len inter = py_len ray_mask).
  { unfold inter, py_len in *. rewrite length_zip_with. lia. }
  destruct (mapM_total (py_index ((fun c => c - 1) <$> np_cumsum ray_mask))
              (np_where inter)) as [inds Hinds].
  { apply Forall_forall. intros k Hk. apply np_where_spec in Hk as [Hk0 Hk].
    apply lookup_lt_Some in Hk.
    destruct (py_index_in_range ((fun c => c - 1) <$> np_cumsum ray_mask) k)
      as (v & Hv & _); [|by exists v].
    unfold py_len in *. unfold np_cumsum.
    rewrite length_fmap, np_cumsum_from_length. lia. }
  unfold np_take. rewrite Hinds. cbn [mbind result_bind].
  unfold np_reshape2. destruct Hwf as (Hr & Hcl & _).
  replace ((0 <=? H) && (0 <=? W) && (H * W =? py_len inter)) with true
    by (symmetry; rewrite !andb_true_iff; lia).
  cbn [mbind result_bind]. eauto 10.
Qed.

(** C9. A patch request with [0 < patch_size <= min(H, W)] on a candidate
    mask of shape [(H, W)] returns once the mask holds a true pixel and the
    ray mask has one entry per pixel.  The window it returns around its
    center is [patch_size] wide and high and lies inside the image, and the
    mask it returns has that shape.  The corners are the centered window
    clipped to the image, so a center near the border moves the window and
    does not shrink it. *)
Theorem patch_window_inside_image (ray_mask : list bool)
    (candidate_mask : array2 bool) (patch_size H W : Z) (s : rng) :
  0 < patch_size <= Z.min H W ->
  array2_wf candidate_mask ->
  nrows candidate_mask = H -> ncols candidate_mask = W ->
  (py_len ray_mask = H * W -> 0 < count_true (cells candidate_mask) ->
   exists (select_inds : list Z) (mask : array2 bool) (xy_min xy_max : Z * Z)
          (s' : rng),
     _get_patch_ray_indices ray_mask candidate_mask patch_size H W s
     = Ok (select_inds, mask, xy_min, xy_max, s')) /\
  forall (s' : rng) (select_inds : list Z) (mask : array2 bool)
         (x_min y_min x_max y_max : Z),
    _get_patch_ray_indices ray_mask candidate_mask patch_size H W s
    = Ok (select_inds, mask, (x_min, y_min), (x_max, y_max), s') ->
    (0 <= x_min /\ x_max = x_min + patch_size /\ x_max <= W) /\
    (0 <= y_min /\ y_max = y_min + patch_size /\ y_max <= H) /\
    (nrows mask = patch_size /\ ncols mask = patch_size /\ array2_wf mask) /\
    exists center_x center_y : Z,
      choose_center candidate_mask s = Ok (center_x, center_y, s') /\
      (x_min <= center_x < x_max /\ y_min <= center_y < y_max) /\
      x_min = Z.min (Z.max (center_x - patch_size / 2) 0) (W - patch_size) /\
      y_min = Z.min (Z.max (center_y - patch_size / 2) 0) (H - patch_size).
Proof.
  intros Hsize Hwf HH HW. split.
  - intros Hlen Hpos. by apply _get_patch_ray_indices_total.
  - intros s' select_inds mask x_min y_min x_max y_max Hp.
    by eapply _get_patch_ray_indices_window.
Qed.

Lemma patch_loop_ok (n : nat) (ray_mask : list bool) (subject_mask : array2 bool)
    (patch_size H W : Z) (acc acc' : patch_acc) (s s' : rng) :
  patch_loop n ray_mask subject_mask patch_size H W acc s = Ok (acc', s') ->
  patch_acc_ok ray_mask acc -> patch_acc_ok ray_mask acc'.
Proof.
  revert acc s. induction n as [|n IH]; intros acc s Hloop Hok; simpl in Hloop.
  - injection Hloop as <- _. exact Hok.
  - inv_bind Hloop. destruct r as [[[[ray_indices mask] xy_min] xy_max] s1].
    apply IH in Hloop; [exact Hloop|]. clear IH Hloop.
    apply _get_patch_ray_indices_range in Hstep.
    destruct Hok as (Hrange & Htotal & Hsorted & Hle & Hhead & Hlast).
    unfold patch_acc_ok; simpl.
    rewrite concat_app, Forall_app. simpl. rewrite app_nil_r.
    assert (Hlen : py_len (concat (list_ray_indices acc) ++ ray_indices)
                   = total_rays acc + py_len ray_indices).
    { unfold py_len in *. rewrite length_app. lia. }
    pose proof (Zle_0_nat (length ray_indices)) as Hnn. fold (py_len ray_indices) in Hnn.
    split; [tauto|]. split; [by rewrite Hlen|]. split; [|split; [|split]].
    + apply StronglySorted_app_2; [|exact Hsorted|repeat constructor].
      intros x1 x2 Hx1 Hx2. apply list_elem_of_singleton in Hx2 as ->.
      rewrite Forall_forall in Hle. specialize (Hle x1 Hx1). lia.
    + apply Forall_app. split.
      * eapply Forall_impl; [exact Hle|]. simpl. intros; lia.
      * repeat constructor. lia.
    + destruct (patch_div_indices acc); [discriminate | exact Hhead].
    + apply last_snoc.
Qed.

Lemma patch_loop_total (n : nat) (ray_mask : list bool)
    (subject_mask : array2 bool) (patch_size H W : Z) (acc : patch_acc) (s : rng) :
  0 < patch_size <= Z.min H W ->
  array2_wf subject_mask ->
  nrows subject_mask = H -> ncols subject_mask = W ->
  py_len ray_mask = H * W ->
  0 < count_true (cells subject_mask) ->
  Forall (fun m => nrows m = patch_size /\ ncols m = patch_size) (list_mask acc) ->
  exists (acc' : patch_acc) (s' : rng),
    patch_loop n ray_mask subject_mask patch_size H W acc s = Ok (acc', s') /\
    Forall (fun m => nrows m = patch_size /\ ncols m = patch_size)
           (list_mask acc') /\
    length (list_ray_indices acc') = (length (list_ray_indices acc) + n)%nat /\
    length (list_mask acc') = (length (list_mask acc) + n)%nat.
Proof.
  intros Hsize Hwf HH HW Hlen Hpos. revert acc s.
  induction n as [|n IH]; intros acc s Hacc; simpl.
  - exists acc, s. rewrite !Nat.add_0_r. tauto.
  - destruct (_get_patch_ray_indices_total ray_mask subject_mask patch_size H W s
                Hwf HH HW Hlen Hpos)
      as (inds & mask & [x_min y_min] & [x_max y_max] & s1 & Hp).
    rewrite Hp. cbn [mbind result_bind].
    destruct (_get_patch_ray_indices_window _ _ _ _ _ _ _ _ _ _ _ _ _
                Hsize Hwf HH HW Hp) as (_ & _ & (Hrows & Hcols & _) & _).
    destruct (IH (mk_patch_acc (list_ray_indices acc ++ [inds])
                    (list_mask acc ++ [mask])
                    (list_xy_min acc ++ [(x_min, y_min)])
                    (list_xy_max acc ++ [(x_max, y_max)])
                    (total_rays acc + py_len inds)
                    (patch_div_indices acc ++ [total_rays acc + py_len inds]))
                s1) as (acc' & s' & Hloop & Hshape & Hn1 & Hn2).
    { cbn [list_mask]. apply Forall_app. split; [exact Hacc|].
      by repeat constructor. }
    exists acc', s'. split; [exact Hloop|]. split; [exact Hshape|].
    cbn [list_ray_indices list_mask] in Hn1, Hn2.
    rewrite length_app in Hn1, Hn2. simpl in Hn1, Hn2. lia.
Qed.

(** With at least one patch requested, a patch that fits the image, a
    subject mask of the image's shape that holds a true pixel and a ray mask
    with one entry per pixel, [get_patch_ray_indices] returns. *)
Lemma get_patch_ray_indices_total (N_patch : Z) (ray_mask : list bool)
    (subject_mask : array2 bool) (patch_size H W : Z) (s : rng) :
  1 <= N_patch ->
  0 < patch_size <= Z.min H W ->
  array2_wf subject_mask ->
  nrows subject_mask = H -> ncols subject_mask = W ->
  py_len ray_mask = H * W ->
  0 < count_true (cells subject_mask) ->
  exists (select_inds : list Z) (info : patch_info) (div : list Z) (s' : rng),
    get_patch_ray_indices N_patch ray_mask subject_mask patch_size H W s
    = Ok (select_inds, info, div, s').
Proof.
  intros HN Hsize Hwf HH HW Hlen Hpos. unfold get_patch_ray_indices.
  destruct (patch_loop_total (Z.to_nat N_patch) ray_mask subject_mask patch_size
              H W (mk_patch_acc [] [] [] [] 0 [0]) s Hsize Hwf HH HW Hlen Hpos)
    as (acc & s' & Hloop & Hshape & Hn1 & Hn2); [constructor|].
  rewrite Hloop. cbn [mbind result_bind]. simpl in Hn1, Hn2.
  unfold np_concatenate.
  destruct (list_ray_indices acc) as [|r rs] eqn:Hr; [simpl in Hn1; lia|].
  cbn [mbind result_bind].
  rewrite (np_stack_total (list_mask acc) patch_size patch_size); [|..|exact Hshape].
  - cbn [mbind result_bind]. eauto 10.
  - intros Hnil. rewrite Hnil in Hn2. simpl in Hn2. lia.
Qed.

(** C2. Whenever [get_patch_ray_indices] returns, every selected ray index
    lies in the compacted range [0, count_true ray_mask), and
    [patch_div_indices] is non-decreasing, starts at 0 and ends with the
    number of selected indices.  It returns when at least one patch that
    fits the image is requested, the subject mask has the image's shape and
    holds a true pixel, and the ray mask has one entry per pixel. *)
Theorem get_patch_ray_indices_bounds (N_patch : Z) (ray_mask : list bool)
    (subject_mask : array2 bool) (patch_size H W : Z) (s : rng) :
  (forall (s' : rng) (select_inds : list Z) (info : patch_info) (div : list Z),
      get_patch_ray_indices N_patch ray_mask subject_mask patch_size H W s
      = Ok (select_inds, info, div, s') ->
      Forall (fun v => 0 <= v < count_true ray_mask) select_inds /\
      StronglySorted Z.le div /\
      head div = Some 0 /\
      last div = Some (py_len select_inds)) /\
  (1 <= N_patch -> 0 < patch_size <= Z.min H W ->
   array2_wf subject_mask ->
   nrows subject_mask = H -> ncols subject_mask = W ->
   py_len ray_mask = H * W ->
   0 < count_true (cells subject_mask) ->
   exists (select_inds : list Z) (info : patch_info) (div : list Z) (s' : rng),
     get_patch_ray_indices N_patch ray_mask subject_mask patch_size H W s
     = Ok (select_inds, info, div, s')).
Proof.
  split; [|by apply get_patch_ray_indices_total].
  intros s' select_inds info div.
  unfold get_patch_ray_indices. intros Hg.
  apply bind_Ok in Hg as ([acc s1] & Hloop & Hg).
  apply bind_Ok in Hg as (inds & Hcat & Hg).
  apply bind_Ok in Hg as (masks & _ & Hg).
  injection Hg as <- _ <- _.
  assert (Hinds : inds = concat (list_ray_indices acc)).
  { unfold np_concatenate in Hcat.
    destruct (list_ray_indices acc); [discriminate | by injection Hcat]. }
  subst inds. apply patch_loop_ok in Hloop.
  - destruct Hloop as (Hrange & Htotal & Hsorted & _ & Hhead & Hlast).
    rewrite <- Htotal. tauto.
  - unfold patch_acc_ok; simpl. split; [constructor|]. split; [reflexivity|].
    split; [repeat constructor|]. split; [repeat constructor; lia|]. tauto.
Qed.

Lemma _get_patch_ray_indices_empty (ray_mask : list bool)
    (candidate_mask : array2 bool) (patch_size H W : Z) (s : rng) :
  count_true (cells candidate_mask) = 0 ->
  _get_patch_ray_indices ray_mask candidate_mask patch_size H W s
  = Raise ValueError.
Proof.
  intros Hz. unfold _get_patch_ray_indices.
  by rewrite (choose_center_empty _ _ Hz).
Qed.

Lemma get_patch_ray_indices_empty (N_patch : Z) (ray_mask : list bool)
    (subject_mask : array2 bool) (patch_size H W : Z) (s : rng) :
  count_true (cells subject_mask) = 0 ->
  get_patch_ray_indices N_patch ray_mask subject_mask patch_size H W s
  = Raise ValueError.
Proof.
  intros Hz. unfold get_patch_ray_indices.
  destruct (Z.to_nat N_patch) as [|n]; simpl; [reflexivity|].
  by rewrite (_get_patch_ray_indices_empty _ _ _ _ _ _ Hz).
Qed.

(** C7. With a subject mask that holds no true pixel, patch sampling raises
    an error at each of its three levels and returns no patch.  With at least
    one true pixel the draw of the center succeeds, and the center it yields
    is a pixel where the subject mask is true. *)
Theorem patch_center_on_subject (subject_mask : array2 bool) :
  (count_true (cells subject_mask) = 0 ->
   (forall ray_mask patch_size H W (s : rng),
       _get_patch_ray_indices ray_mask subject_mask patch_size H W s
       = Raise ValueError) /\
   (forall N_patch ray_mask patch_size H W (s : rng),
       get_patch_ray_indices N_patch ray_mask subject_mask patch_size H W s
       = Raise ValueError) /\
   (forall img mask H W ray_mask rays_o rays_d ray_img nerf_near nerf_far
           (s : rng),
       sample_patch_rays img mask H W subject_mask ray_mask rays_o rays_d
         ray_img nerf_near nerf_far s = Raise ValueError)) /\
  (array2_wf subject_mask -> 0 < count_true (cells subject_mask) ->
   forall s : rng,
     exists (center_x center_y : Z) (s' : rng),
       choose_center subject_mask s = Ok (center_x, center_y, s') /\
       array2_get subject_mask center_y center_x = Some true).
Proof.
  split.
  - intros Hz. split; [|split].
    + intros. by apply _get_patch_ray_indices_empty.
    + intros. by apply get_patch_ray_indices_empty.
    + intros. unfold sample_patch_rays.
      by rewrite (get_patch_ray_indices_empty _ _ _ _ _ _ _ Hz).
  - intros Hwf Hpos s.
    destruct (choose_center_total subject_mask s Hpos) as (cx & cy & s' & Hc).
    exists cx, cy, s'. split; [exact Hc|].
    by apply choose_center_Ok in Hc as (_ & _ & Hget).
Qed.

End PatchSamplerTheorems.

(** ** The order of binary64 *)

Lemma SFcompare_refl (x : spec_float) :
  x <> S754_nan -> SFcompare x x = Some Eq.
Proof.
  destruct x as [s| s | |s m e]; intros Hx; try congruence; simpl.
  - reflexivity.
  - by destruct s.
  - rewrite Z.compare_refl. change (Pos.compare_cont Eq m m) with (Pos.compare m m).
    rewrite Pos.compare_refl. by destruct s.
Qed.

Lemma not_nan_spec (a : float) : not_nan a <-> Prim2SF a <> S754_nan.
Proof.
  unfold not_nan, is_nan. rewrite FloatAxioms.eqb_spec. unfold SFeqb. split.
  - intros Hn Heq. rewrite Heq in Hn. discriminate.
  - intros Hn. by rewrite SFcompare_refl.
Qed.


Lemma fle_not_nan (a b : float) : fle a b -> not_nan a /\ not_nan b.
Proof.
  unfold fle. rewrite FloatAxioms.leb_spec, !not_nan_spec. unfold SFleb.
  destruct (Prim2SF a), (Prim2SF b); simpl; intros Hle; split; congruence.
Qed.









(** ** [skeleton_to_bbox] *)


Lemma vle_lookup (u v : vec) (k : nat) (a b : float) :
  vle u v -> u !! k = Some a -> v !! k = Some b -> fle a b.
Proof. intros Huv Ha Hb. eapply Forall2_lookup_lr; eauto. Qed.







(** ** The sample assembler *)

Section SampleAssemblerProps.

Context {LM : Libm} {EX : Externals} {capture : Type} {CO : Capture capture}
        {rng : Type} {RS : RandomState rng}.

Implicit Type self : NeumanDataset capture.


Lemma get_single_item_cache_irrelevant self (c : option (list datum))
    (i : Z) (s : rng) :
  get_single_item (set_cached_data self c) i s = get_single_item self i s.
Proof. reflexivity. Qed.

Lemma train_fields_Ok self (cap : capture) (idx : Z) (img : array2 vec)
    (msk : array2 float) (datum0 d : datum) (s s' : rng) :
  train_fields self cap idx img msk datum0 s = Ok (d, s') ->
  exists cnl fr img_cv2 c p batch_rays,
    canonical_fields self = Ok cnl /\
    get_frame_rays self cap idx = Ok fr /\
    mask_background img msk bgcolor = Ok img_cv2 /\
    compact_rays (fr_dst_bbox fr) img (fr_rays_o fr) (fr_rays_d fr) = Ok c /\
    sample_patch_rays img_cv2 msk (size cap).1 (size cap).2
      (array2_map (fun x => PrimFloat.ltb 0%float x) msk)
      (c_ray_mask c) (c_rays_o c) (c_rays_d c) (c_ray_img c)
      (c_nerf_near c) (c_nerf_far c) s = Ok (p, s') /\
    stack_rays (ps_rays_o p) (ps_rays_d p) = Ok batch_rays /\
    d = train_datum cnl fr c p batch_rays datum0.
Proof.
  unfold train_fields. intros Ht.
  apply bind_Ok in Ht as (cnl & Hcnl & Ht).
  apply bind_Ok in Ht as (fr & Hfr & Ht).
  apply bind_Ok in Ht as (img_cv2 & Himg & Ht).
  apply bind_Ok in Ht as (c & Hc & Ht).
  apply bind_Ok in Ht as ([p s1] & Hp & Ht).
  apply bind_Ok in Ht as (batch_rays & Hb & Ht).
  apply bind_Ok in Ht as (u & _ & Ht).
  injection Ht as <- <-.
  exists cnl, fr, img_cv2, c, p, batch_rays. tauto.
Qed.

Lemma get_single_item_Ok self (i : Z) (s s' : rng) (d : datum) :
  split self <> anim ->
  get_single_item self i s = Ok (d, s') ->
  exists idx cap img msk datum0 datum1,
    py_index (scene_captures self) idx = Ok cap /\
    image_fields self cap idx = Ok (img, msk, datum0) /\
    camera_fields self cap idx datum0 = Ok datum1 /\
    train_fields self cap idx img msk datum1 s = Ok (d, s').
Proof.
  unfold get_single_item. intros Hsplit Hg.
  apply bind_Ok in Hg as (idx & _ & Hg).
  apply bind_Ok in Hg as (cap & Hcap & Hg).
  destruct (split self); try done.
  - apply bind_Ok in Hg as ([[img msk] datum0] & Him & Hg).
    apply bind_Ok in Hg as (datum1 & Hcam & Hg).
    exists idx, cap, img, msk, datum0, datum1. tauto.
  - apply bind_Ok in Hg as ([[img msk] datum0] & Him & Hg).
    apply bind_Ok in Hg as (datum1 & Hcam & Hg).
    exists idx, cap, img, msk, datum0, datum1. tauto.
Qed.



(** *** The compaction *)

Lemma omap_hits_length {A : Type} (hits : list (option A)) :
  py_len (omap id hits)
  = count_true ((fun h => bool_decide (is_Some h)) <$> hits).
Proof.
  induction hits as [|[a|] hits IH]; [reflexivity| |].
  - rewrite fmap_cons, count_true_cons.
    change (omap id (Some a :: hits)) with (a :: omap id hits).
    unfold py_len in *. simpl length.
    rewrite bool_decide_true by (by eexists). lia.
  - rewrite fmap_cons, count_true_cons.
    change (omap id (None :: hits)) with (omap id hits).
    rewrite bool_decide_false by (intros [? ?]; discriminate). lia.
Qed.

Lemma rays_intersect_3d_bbox_lengths (b : bbox) (rays_o rays_d : list vec) :
  let '(near, far, mask) := rays_intersect_3d_bbox b rays_o rays_d in
  py_len near = count_true mask /\ py_len far = count_true mask /\
  length mask = Nat.min (length rays_o) (length rays_d).
Proof.
  unfold rays_intersect_3d_bbox. set (hits := zip_with _ _ _).
  pose proof (omap_hits_length hits) as Hl. unfold py_len in *.
  rewrite !length_fmap. split; [exact Hl|]. split; [exact Hl|].
  apply length_zip_with.
Qed.

Lemma compact_rays_Ok (dst_bbox : bbox) (img rays_o rays_d : array2 vec)
    (c : compacted) :
  compact_rays dst_bbox img rays_o rays_d = Ok c ->
  py_len (c_ray_mask c) = py_len (cells img) /\
  py_len (c_rays_o c) = count_true (c_ray_mask c) /\
  py_len (c_rays_d c) = count_true (c_ray_mask c) /\
  py_len (c_ray_img c) = count_true (c_ray_mask c) /\
  py_len (c_nerf_near c) = count_true (c_ray_mask c) /\
  py_len (c_nerf_far c) = count_true (c_ray_mask c).
Proof.
  unfold compact_rays, reshape_flat. intros Hc.
  pose proof (rays_intersect_3d_bbox_lengths dst_bbox (cells rays_o) (cells rays_d))
    as Hl.
  destruct (rays_intersect_3d_bbox _ _ _) as [[near far] mask].
  destruct Hl as (Hnear & Hfar & _).
  apply bind_Ok in Hc as (ro & Hro & Hc).
  apply bind_Ok in Hc as (rd & Hrd & Hc).
  apply bind_Ok in Hc as (ri & Hri & Hc).
  injection Hc as <-. simpl.
  apply np_mask_index_length in Hro as [_ Hro], Hrd as [_ Hrd], Hri as [Hlen Hri].
  unfold py_len in *. rewrite !length_fmap. tauto.
Qed.

(** *** One patch *)


Lemma sample_patch_rays_Ok (img : array2 vec) (mask : array2 float) (H W : Z)
    (subject_mask : array2 bool) (ray_mask : list bool)
    (rays_o rays_d ray_img nerf_near nerf_far : list vec) (s s' : rng)
    (p : patch_sample) :
  sample_patch_rays img mask H W subject_mask ray_mask rays_o rays_d ray_img
    nerf_near nerf_far s = Ok (p, s') ->
  exists select_inds pmask x_min y_min x_max y_max,
    _get_patch_ray_indices ray_mask subject_mask 160 H W s
    = Ok (select_inds, pmask, (x_min, y_min), (x_max, y_max), s') /\
    np_take rays_o select_inds = Ok (ps_rays_o p) /\
    np_take rays_d select_inds = Ok (ps_rays_d p) /\
    np_take ray_img select_inds = Ok (ps_ray_img p) /\
    np_take nerf_near select_inds = Ok (ps_nerf_near p) /\
    np_take nerf_far select_inds = Ok (ps_nerf_far p) /\
    ps_target_patches p = [crop img y_min y_max x_min x_max] /\
    ps_target_patch_masks p = [crop mask y_min y_max x_min x_max] /\
    ps_patch_masks p = [pmask] /\
    ps_patch_div_indices p = [0; py_len select_inds].
Proof.
  unfold sample_patch_rays, get_patch_ray_indices. intros Hs.
  apply bind_Ok in Hs as ([[[inds info] div] s1] & Hg & Hs).
  apply bind_Ok in Hg as ([acc s2] & Hloop & Hg).
  change (Z.to_nat 1) with 1%nat in Hloop. simpl in Hloop.
  apply bind_Ok in Hloop as ([[[[ray_indices pmask] [x_min y_min]] [x_max y_max]] s3]
                            & Hpatch & Hloop).
  injection Hloop as <- <-. simpl in Hg.
  rewrite app_nil_r in Hg. injection Hg as <- <- <- <-.
  apply bind_Ok in Hs as ([[[[ro rd] ri] nn] nf] & Hsel & Hs).
  unfold select_rays in Hsel.
  apply bind_Ok in Hsel as (ro' & Hro & Hsel).
  apply bind_Ok in Hsel as (rd' & Hrd & Hsel).
  apply bind_Ok in Hsel as (ri' & Hri & Hsel).
  apply bind_Ok in Hsel as (nn' & Hnn & Hsel).
  apply bind_Ok in Hsel as (nf' & Hnf & Hsel).
  injection Hsel as <- <- <- <- <-.
  apply bind_Ok in Hs as ([targets target_masks] & Htg & Hs).
  unfold patch_targets in Htg. simpl in Htg.
  injection Htg as <- <-.
  simpl in Hs. injection Hs as <- <-. simpl.
  exists ray_indices, pmask, x_min, y_min, x_max, y_max.
  rewrite Z.add_0_l. tauto.
Qed.


Lemma py_index_elem_of {A : Type} (l : list A) (i : Z) (x : A) :
  py_index l i = Ok x -> x ∈ l.
Proof. intros Hx. apply py_index_Ok in Hx as [_ Hx]. by eapply list_elem_of_lookup_2. Qed.

Lemma image_fields_Ok self (cap : capture) (idx : Z) (img : array2 vec)
    (msk : array2 float) (datum0 : datum) :
  image_fields self cap idx = Ok (img, msk, datum0) -> img = load_image cap.
Proof.
  unfold image_fields. intros Hi.
  apply bind_Ok in Hi as (m & _ & Hi). apply bind_Ok in Hi as (b & _ & Hi).
  by injection Hi as <- _ _.
Qed.

Lemma mask_background_Ok (img img' : array2 vec) (msk : array2 float) (bg : vec) :
  mask_background img msk bg = Ok img' ->
  nrows img = nrows msk /\ ncols img = ncols msk.
Proof.
  unfold mask_background, same_shape.
  destruct (_ && _) eqn:Hs; [|discriminate]. intros _.
  apply andb_true_iff in Hs. lia.
Qed.



(** *** The random draw *)

Lemma choose_center_same_draw (candidate_mask : array2 bool) (s1 s2 s1' s2' : rng)
    (cx1 cy1 cx2 cy2 : Z) :
  (forall n, (random_choice s1 n).1 = (random_choice s2 n).1) ->
  choose_center candidate_mask s1 = Ok (cx1, cy1, s1') ->
  choose_center candidate_mask s2 = Ok (cx2, cy2, s2') ->
  cx1 = cx2 /\ cy1 = cy2.
Proof.
  unfold choose_center, np_where2, np_random_choice. intros Hdraw H1 H2.
  specialize (Hdraw (py_len ((fun k => k `div` ncols candidate_mask)
                             <$> np_where (cells candidate_mask)))).
  destruct (_ <=? 0); [discriminate|].
  destruct (random_choice s1 _) as [i1 t1], (random_choice s2 _) as [i2 t2].
  simpl in Hdraw, H1, H2. subst i2.
  apply bind_Ok in H1 as (x1 & Hx1 & H1). apply bind_Ok in H1 as (y1 & Hy1 & H1).
  apply bind_Ok in H2 as (x2 & Hx2 & H2). apply bind_Ok in H2 as (y2 & Hy2 & H2).
  injection H1 as <- <- _. injection H2 as <- <- _. split; congruence.
Qed.

Lemma _get_patch_ray_indices_same_draw (ray_mask : list bool)
    (candidate_mask : array2 bool) (patch_size H W : Z) (s1 s2 s1' s2' : rng)
    (r1 r2 : patch) :
  (forall n, (random_choice s1 n).1 = (random_choice s2 n).1) ->
  _get_patch_ray_indices ray_mask candidate_mask patch_size H W s1 = Ok (r1, s1') ->
  _get_patch_ray_indices ray_mask candidate_mask patch_size H W s2 = Ok (r2, s2') ->
  r1 = r2.
Proof.
  intros Hdraw H1 H2.
  destruct r1 as [[[inds1 m1] min1] max1], r2 as [[[inds2 m2] min2] max2].
  apply _get_patch_ray_indices_Ok in H1
    as (cx1 & cy1 & inter1 & Hc1 & -> & -> & Ha1 & Ht1 & _ & ->).
  apply _get_patch_ray_indices_Ok in H2
    as (cx2 & cy2 & inter2 & Hc2 & -> & -> & Ha2 & Ht2 & _ & ->).
  destruct (choose_center_same_draw _ _ _ _ _ _ _ _ _ Hdraw Hc1 Hc2) as [<- <-].
  rewrite Ha1 in Ha2. injection Ha2 as <-.
  rewrite Ht1 in Ht2. injection Ht2 as <-. reflexivity.
Qed.

Lemma sample_patch_rays_same_draw (img : array2 vec) (mask : array2 float)
    (H W : Z) (subject_mask : array2 bool) (ray_mask : list bool)
    (rays_o rays_d ray_img nerf_near nerf_far : list vec)
    (s1 s2 s1' s2' : rng) (p1 p2 : patch_sample) :
  (forall n, (random_choice s1 n).1 = (random_choice s2 n).1) ->
  sample_patch_rays img mask H W subject_mask ray_mask rays_o rays_d ray_img
    nerf_near nerf_far s1 = Ok (p1, s1') ->
  sample_patch_rays img mask H W subject_mask ray_mask rays_o rays_d ray_img
    nerf_near nerf_far s2 = Ok (p2, s2') ->
  p1 = p2.
Proof.
  intros Hdraw H1 H2.
  apply sample_patch_rays_Ok in H1
    as (i1 & m1 & xa1 & ya1 & xb1 & yb1 & Hp1 & A1 & B1 & C1 & D1 & E1 & F1 & G1 & I1 & J1).
  apply sample_patch_rays_Ok in H2
    as (i2 & m2 & xa2 & ya2 & xb2 & yb2 & Hp2 & A2 & B2 & C2 & D2 & E2 & F2 & G2 & I2 & J2).
  pose proof (_get_patch_ray_indices_same_draw _ _ _ _ _ _ _ _ _ _ _ Hdraw Hp1 Hp2)
    as Heq.
  injection Heq as <- <- <- <- <- <-.
  destruct p1, p2; simpl in *. congruence.
Qed.

Lemma train_datum_non_patch (cnl : canonical) (fr : frame_rays) (c : compacted)
    (p1 p2 : patch_sample) (b1 b2 : nd) (datum0 : datum) (key : string) :
  key ∉ patch_keys ->
  train_datum cnl fr c p1 b1 datum0 !! key
  = train_datum cnl fr c p2 b2 datum0 !! key.
Proof.
  intros Hnot. unfold train_datum.
  destruct (body_pose_to_body_RTs _ _) as [dst_Rs dst_Ts].
  repeat match goal with
         | |- (<[?k:=_]> _) !! key = (<[?k:=_]> _) !! key =>
             destruct (decide (k = key)) as [<-|Hne];
             [ rewrite !lookup_insert_eq;
               first [reflexivity
                     | exfalso; apply Hnot; unfold patch_keys; set_solver]
             | rewrite !(lookup_insert_ne _ k key) by exact Hne; clear Hne ]
         end.
  reflexivity.
Qed.

(** Two runs of [get_single_item] on one index differ by the random draw
    at most. *)
Lemma get_single_item_draw self (i : Z) (s1 s2 s1' s2' : rng) (d1 d2 : datum) :
  get_single_item self i s1 = Ok (d1, s1') ->
  get_single_item self i s2 = Ok (d2, s2') ->
  (forall key, key ∉ patch_keys -> d1 !! key = d2 !! key) /\
  ((forall n, (random_choice s1 n).1 = (random_choice s2 n).1) -> d1 = d2).
Proof.
  intros H1 H2.
  assert (Hcase : split self = anim \/ split self <> anim)
    by (destruct (split self); auto; right; discriminate).
  destruct Hcase as [Ha|Hsplit].
  - unfold get_single_item in H1, H2. rewrite Ha in H1, H2.
    apply bind_Ok in H1 as (idx & Hidx & H1). apply bind_Ok in H1 as (cap & Hcap & H1).
    apply bind_Ok in H2 as (idx2 & Hidx2 & H2). apply bind_Ok in H2 as (cap2 & Hcap2 & H2).
    injection Hidx as <-. injection Hidx2 as <-.
    rewrite Hcap in Hcap2. injection Hcap2 as <-.
    apply bind_Ok in H1 as (da & Hda & H1). apply bind_Ok in H2 as (db & Hdb & H2).
    rewrite Hda in Hdb. injection Hdb as <-.
    injection H1 as <- _. injection H2 as <- _. split; reflexivity.
  - assert (Hfun : forall s s' d,
               get_single_item self i s = Ok (d, s') ->
               exists idx cap img msk datum1,
                 (match split self with
                  | train => py_index (train_split self) i
                  | val => py_index (val_split self) i
                  | anim => Ok i
                  end = Ok idx) /\
                 py_index (scene_captures self) idx = Ok cap /\
                 (exists datum0, image_fields self cap idx = Ok (img, msk, datum0) /\
                                 camera_fields self cap idx datum0 = Ok datum1) /\
                 train_fields self cap idx img msk datum1 s = Ok (d, s')).
    { clear H1 H2. intros s s' d Hg. unfold get_single_item in Hg.
      apply bind_Ok in Hg as (idx & Hidx & Hg).
      apply bind_Ok in Hg as (cap & Hcap & Hg).
      exists idx, cap.
      destruct (split self) eqn:Hs.
      - apply bind_Ok in Hg as ([[img msk] datum0] & Him & Hg).
        apply bind_Ok in Hg as (datum1 & Hcam & Hg). eauto 10.
      - apply bind_Ok in Hg as ([[img msk] datum0] & Him & Hg).
        apply bind_Ok in Hg as (datum1 & Hcam & Hg). eauto 10.
      - done. }
    clear Hsplit.
    apply Hfun in H1 as (idx & cap & img & msk & db & Hidx & Hcap & (da & Him & Hcam) & H1).
    apply Hfun in H2 as (idx2 & cap2 & img2 & msk2 & db2 & Hidx2 & Hcap2 & (da2 & Him2 & Hcam2) & H2).
    rewrite Hidx in Hidx2. injection Hidx2 as <-.
    rewrite Hcap in Hcap2. injection Hcap2 as <-.
    rewrite Him in Him2. injection Him2 as <- <- <-.
    rewrite Hcam in Hcam2. injection Hcam2 as <-.
    apply train_fields_Ok in H1
      as (cnl & fr & ic & c & p1 & b1 & Hcnl & Hfr & Hic & Hc & Hp1 & Hb1 & ->).
    apply train_fields_Ok in H2
      as (cnl' & fr' & ic' & c' & p2 & b2 & Hcnl' & Hfr' & Hic' & Hc' & Hp2 & Hb2 & ->).
    rewrite Hcnl in Hcnl'. injection Hcnl' as <-.
    rewrite Hfr in Hfr'. injection Hfr' as <-.
    rewrite Hic in Hic'. injection Hic' as <-.
    rewrite Hc in Hc'. injection Hc' as <-.
    split.
    + intros key Hkey. by apply train_datum_non_patch.
    + intros Hdraw.
      pose proof (sample_patch_rays_same_draw _ _ _ _ _ _ _ _ _ _ _ _ _ _ _ _ _
                    Hdraw Hp1 Hp2) as <-.
      rewrite Hb1 in Hb2. by injection Hb2 as <-.
Qed.

(** C1, as the code has it.  Two evaluations of [get_single_item] on one
    index of one dataset differ at most in the entries read off the sampled
    patch: every other entry is the same in both, and when the random
    generator yields the same draw in both evaluations the two records are
    the same in every entry. *)
Theorem get_single_item_deterministic_up_to_draw self (i : Z)
    (s1 s2 s1' s2' : rng) (d1 d2 : datum) :
  get_single_item self i s1 = Ok (d1, s1') ->
  get_single_item self i s2 = Ok (d2, s2') ->
  (forall key, key ∉ patch_keys -> d1 !! key = d2 !! key) /\
  ((forall n, (random_choice s1 n).1 = (random_choice s2 n).1) -> d1 = d2).
Proof. apply get_single_item_draw. Qed.

(** *** The cache *)

Lemma build_cache_lookup self (indices : list Z) (s s' : rng)
    (cache : list datum) :
  build_cache self indices s = Ok (cache, s') ->
  forall (k : nat) (i : Z), indices !! k = Some i ->
    exists (s_i s_next : rng) (d : datum),
      get_single_item self i s_i = Ok (d, s_next) /\
      cache !! k = Some (to_cuda <$> d).
Proof.
  revert s cache. induction indices as [|j rest IH]; intros s cache Hb k i Hk;
    [discriminate|].
  simpl in Hb.
  apply bind_Ok in Hb as ([d1 s1] & Hitem & Hb).
  apply bind_Ok in Hb as ([tail s2] & Htail & Hb).
  injection Hb as <- <-.
  destruct k as [|k]; simpl in Hk.
  - injection Hk as <-. exists s, s1, d1. split; [exact Hitem | reflexivity].
  - exact (IH _ _ Htail k i Hk).
Qed.

Lemma py_index_lookup {A : Type} (l : list A) (i : Z) (x : A) :
  0 <= i -> l !! Z.to_nat i = Some x -> py_index l i = Ok x.
Proof.
  intros Hi Hx. unfold py_index.
  pose proof (lookup_lt_Some _ _ _ Hx) as Hlt. unfold py_len.
  destruct (_ && _) eqn:Hb; [|apply andb_false_iff in Hb; lia].
  destruct (i <? 0) eqn:E; [lia|]. by rewrite Hx.
Qed.

(** C4, as the code has it.  After [__init__] has filled the cache,
    [__getitem__] serves for every index the record that [get_single_item]
    built for it while the cache was filled, its tensors moved to the
    accelerator.  Set against an evaluation of [get_single_item] at any later
    time (with the same move of the tensors), the served record has the same
    entries except those read off the sampled patch, and the same entries
    throughout when the generator yields at that time the draw it yielded
    when the cache was filled. *)
Theorem cache_serves_built_samples self (s s' : rng)
    (self' : NeumanDataset capture) :
  init_cached_data self s = Ok (self', s') ->
  forall idx : Z, 0 <= idx < __len__ self ->
    exists (s_idx s_next : rng) (d : datum),
      get_single_item self idx s_idx = Ok (d, s_next) /\
      __getitem__ self' idx = Ok (to_cuda <$> d) /\
      forall (s2 s2' : rng) (d2 : datum),
        get_single_item self' idx s2 = Ok (d2, s2') ->
        (forall key, key ∉ patch_keys ->
                     (to_cuda <$> d) !! key = (to_cuda <$> d2) !! key) /\
        ((forall n, (random_choice s_idx n).1 = (random_choice s2 n).1) ->
         to_cuda <$> d = to_cuda <$> d2).
Proof.
  unfold init_cached_data. simpl. unfold load_data_to_cuda. intros Hinit idx Hidx.
  apply bind_Ok in Hinit as ([cache s1] & Hbuild & Hinit).
  injection Hinit as <- <-.
  change (__len__ (set_cached_data self None)) with (__len__ self) in Hbuild.
  assert (Hk : py_range (__len__ self) !! Z.to_nat idx = Some idx).
  { rewrite py_range_seqZ, lookup_seqZ_lt by lia. f_equal. lia. }
  destruct (build_cache_lookup _ _ _ _ _ Hbuild _ _ Hk) as (s_idx & s_next & d & Hd & Hc).
  rewrite get_single_item_cache_irrelevant in Hd.
  exists s_idx, s_next, d. split; [exact Hd|]. split.
  - unfold __getitem__. simpl. apply py_index_lookup; [lia | exact Hc].
  - intros s2 s2' d2 Hd2.
    change (get_single_item self idx s2 = Ok (d2, s2')) in Hd2.
    destruct (get_single_item_draw _ _ _ _ _ _ _ _ Hd Hd2) as [Hnon Hsame].
    split.
    + intros key Hkey. rewrite !lookup_fmap. by rewrite (Hnon key Hkey).
    + intros Hdraw. by rewrite (Hsame Hdraw).
Qed.

End SampleAssemblerProps.

(** * The theorems at concrete inputs *)

(** ** The small scene, evaluated *)

Lemma is_ok_Ok {A : Type} (r : result A) : is_ok r = true -> exists a, r = Ok a.
Proof. destruct r as [a|e]; [eauto | discriminate]. Qed.

Lemma demo_item_0_0 :
  patch_summary (demo_item 0 0)
  = Ok (Some (VArray (nd_ints [0; 160])), Some 160, Some 160).
Proof. vm_compute. reflexivity. Qed.

Lemma demo_item_0_1 :
  patch_summary (demo_item 0 1)
  = Ok (Some (VArray (nd_ints [0; 0])), Some 0, Some 160).
Proof. vm_compute. reflexivity. Qed.


Lemma demo_cache_1 :
  (r ← demo_cached_and_fresh 1 0;
   Ok (r.1 !! "patch_div_indices", r.2 !! "patch_div_indices"))
  = Ok (Some (VArray (nd_ints [0; 0])), Some (VArray (nd_ints [0; 160]))).
Proof. vm_compute. reflexivity. Qed.

Lemma patch_summary_Ok (r : result (datum * Z)) v :
  patch_summary r = Ok v -> exists d s', r = Ok (d, s').
Proof. destruct r as [[d s']|e]; [eauto | discriminate]. Qed.

Lemma demo_image_wf :
  Forall (fun cap => array2_wf (captured_image (Capture := demo_capture_ops) cap))
         (scene_captures demo_dataset).
Proof.
  assert (Hwf : array2_wf demo_image).
  { split; [cbn; lia|]. split; [cbn; lia|]. vm_compute. reflexivity. }
  apply List.Forall_cons; [exact Hwf|]. apply List.Forall_cons; [exact Hwf|].
  apply List.Forall_nil.
Qed.


Lemma demo_sizes :
  Forall (fun cap => size (Capture := demo_capture_ops) cap = (160, 161))
         (scene_captures demo_dataset).
Proof.
  apply List.Forall_cons; [reflexivity|]. apply List.Forall_cons; [reflexivity|].
  apply List.Forall_nil.
Qed.

(** ** C1 *)

(** C1, counterexample to the claim as stated: one index of one dataset,
    evaluated in two states of the random generator, yields two records with
    different patch boundaries. *)
Lemma get_single_item_depends_on_draw :
  patch_summary (demo_item 0 0)
  = Ok (Some (VArray (nd_ints [0; 160])), Some 160, Some 160) /\
  patch_summary (demo_item 0 1)
  = Ok (Some (VArray (nd_ints [0; 0])), Some 0, Some 160).
Proof. split; [exact demo_item_0_0 | exact demo_item_0_1]. Qed.

(** C1, witness: the two evaluations of the counterexample agree outside
    the entries of the patch. *)
Lemma get_single_item_deterministic_up_to_draw_witness :
  exists (d1 d2 : datum) (s1' s2' : Z),
    demo_item 0 0 = Ok (d1, s1') /\ demo_item 0 1 = Ok (d2, s2') /\
    forall key, key ∉ patch_keys -> d1 !! key = d2 !! key.
Proof.
  destruct (patch_summary_Ok _ _ demo_item_0_0) as (d1 & s1' & H1).
  destruct (patch_summary_Ok _ _ demo_item_0_1) as (d2 & s2' & H2).
  exists d1, d2, s1', s2'. split; [exact H1|]. split; [exact H2|].
  exact (proj1 (get_single_item_deterministic_up_to_draw
                  (LM := stub_libm) (EX := demo_externals)
                  (CO := demo_capture_ops) (RS := counter_rng)
                  demo_dataset 0 0 1 s1' s2' d1 d2 H1 H2)).
Defined.

(** ** C3 *)



(** ** C4 *)

(** C4, counterexample to the claim as stated: the record that the cache
    serves for index 1 and the record that [get_single_item] yields for
    index 1 once the cache is filled have different patch boundaries. *)
Lemma cached_record_differs_from_fresh :
  (r ← demo_cached_and_fresh 1 0;
   Ok (r.1 !! "patch_div_indices", r.2 !! "patch_div_indices"))
  = Ok (Some (VArray (nd_ints [0; 0])), Some (VArray (nd_ints [0; 160]))).
Proof. exact demo_cache_1. Qed.

(** C4, witness: the cache of the small scene. *)
Lemma cache_serves_built_samples_witness :
  exists (self' : NeumanDataset demo_capture) (s' : Z),
    demo_init 0 = Ok (self', s') /\
    0 <= 1 < __len__ demo_dataset /\
    exists (s_idx s_next : Z) (d : datum),
      demo_item 1 s_idx = Ok (d, s_next) /\
      __getitem__ self' 1 = Ok (to_cuda <$> d).
Proof.
  pose proof demo_cache_1 as Hc.
  destruct (demo_init 0) as [[self' s']|e] eqn:Hinit; [clear Hc|discriminate Hc].
  exists self', s'. split; [reflexivity|].
  assert (Hidx : 0 <= 1 < __len__ demo_dataset) by (vm_compute; split; [discriminate | reflexivity]).
  split; [exact Hidx|].
  destruct (cache_serves_built_samples (LM := stub_libm) (EX := demo_externals)
              (CO := demo_capture_ops) (RS := counter_rng)
              demo_dataset 0 s' self' Hinit 1 Hidx)
    as (s_idx & s_next & d & Hd & Hget & _).
  exists s_idx, s_next, d. split; [exact Hd | exact Hget].
Defined.

(** ** C10 *)


(** ** C2 *)

(** C2, witness: two patches of side 2 on the three-by-four mask. *)
Lemma get_patch_ray_indices_bounds_witness :
  get_patch_ray_indices (RS := counter_rng) 2 demo_ray_mask demo_subject_mask
    2 3 4 0
  = Ok ([1; 2; 3; 0; 2],
        mk_patch_info
          [mk_array2 2 2 [false; true; true; true];
           mk_array2 2 2 [true; false; false; true]]
          [(1, 0); (0, 0)] [(3, 2); (2, 2)],
        [0; 3; 5], 2) /\
  Forall (fun v => 0 <= v < count_true demo_ray_mask) [1; 2; 3; 0; 2] /\
  StronglySorted Z.le [0; 3; 5] /\
  head [0; 3; 5] = Some 0 /\
  last [0; 3; 5] = Some (py_len [1; 2; 3; 0; 2]).
Proof.
  destruct (get_patch_ray_indices_bounds (RS := counter_rng) 2 demo_ray_mask
              demo_subject_mask 2 3 4 0) as [Hbounds Hreturns].
  destruct Hreturns as (select_inds & info & div & s' & Hcall).
  - lia.
  - cbn; lia.
  - split; [cbn; lia|]. split; [cbn; lia|]. reflexivity.
  - reflexivity.
  - reflexivity.
  - reflexivity.
  - reflexivity.
  - pose proof (Hbounds s' select_inds info div Hcall) as Hb.
    vm_compute in Hcall. injection Hcall as <- <- <- <-.
    split; [vm_compute; reflexivity | exact Hb].
Defined.

(** ** C5 *)



(** ** C7 *)

(** C7, witness: the three-by-four mask, and the same mask emptied. *)
Lemma patch_center_on_subject_witness :
  _get_patch_ray_indices (RS := counter_rng) demo_ray_mask
    (mk_array2 3 4 (replicate 12 false)) 2 3 4 0 = Raise ValueError /\
  exists center_x center_y s',
    choose_center (RS := counter_rng) demo_subject_mask 1
    = Ok (center_x, center_y, s') /\
    array2_get demo_subject_mask center_y center_x = Some true.
Proof.
  destruct (patch_center_on_subject (RS := counter_rng)
              (mk_array2 3 4 (replicate 12 false))) as [Hempty _].
  destruct (patch_center_on_subject (RS := counter_rng) demo_subject_mask)
    as [_ Hfull].
  split.
  - apply Hempty. reflexivity.
  - apply Hfull.
    + split; [cbn; lia|]. split; [cbn; lia|]. reflexivity.
    + reflexivity.
Defined.

(** ** C8 *)

(** C8, witness: a scene of 100 captures. *)
Lemma get_data_splits_partition_witness :
  exists train_list val_list test_list : list Z,
    get_data_splits (replicate 100 tt) = Ok (train_list, val_list, test_list) /\
    py_len train_list + py_len val_list + py_len test_list = 100.
Proof.
  destruct (get_data_splits_partition unit (replicate 100 tt)) as (_ & H100 & _).
  apply H100. reflexivity.
Defined.

(** ** C9 *)

(** C9, witness: a patch of side 2 on the three-by-four mask, drawn at the
    pixel of row 2 and column 3, at the corner of the image. *)
Lemma patch_window_inside_image_witness :
  _get_patch_ray_indices (RS := counter_rng) demo_ray_mask demo_subject_mask
    2 3 4 2
  = Ok ([3; 4; 5], mk_array2 2 2 [true; false; true; true], (2, 1), (4, 3), 3) /\
  (0 <= 2 /\ 4 = 2 + 2 /\ 4 <= 4) /\ (0 <= 1 /\ 3 = 1 + 2 /\ 3 <= 3).
Proof.
  assert (Hsize : 0 < 2 <= Z.min 3 4) by (cbn; lia).
  assert (Hwf : array2_wf demo_subject_mask).
  { split; [cbn; lia|]. split; [cbn; lia|]. reflexivity. }
  destruct (patch_window_inside_image (RS := counter_rng) demo_ray_mask
              demo_subject_mask 2 3 4 2 Hsize Hwf eq_refl eq_refl)
    as [Hreturns Hwindow].
  destruct (Hreturns eq_refl eq_refl)
    as (select_inds & mask & [x_min y_min] & [x_max y_max] & s' & Hcall).
  destruct (Hwindow _ _ _ _ _ _ _ Hcall) as (Hx & Hy & _).
  vm_compute in Hcall. injection Hcall as <- <- <- <- <- <- <-.
  split; [vm_compute; reflexivity|]. split; [exact Hx | exact Hy].
Defined.

(** * Further properties of the module *)

(** ** The lookup tables *)

Lemma after_last_slash_append (dir name : string) :
  after_last_slash name = None ->
  after_last_slash (dir +:+ "/" +:+ name) = Some name.
Proof.
  intros Hname. induction dir as [|c dir IH].
  - change (after_last_slash (String "/" name) = Some name).
    cbn [after_last_slash]. by rewrite Hname.
  - change (after_last_slash (String c (dir +:+ "/" +:+ name)) = Some name).
    cbn [after_last_slash]. by rewrite IH.
Qed.

Lemma after_last_slash_None (name : string) :
  Forall (fun c => c <> "/"%char) (list_ascii_of_string name) ->
  after_last_slash name = None.
Proof.
  induction name as [|c name IH]; simpl; intros Hall; [reflexivity|].
  apply Forall_cons in Hall as [Hc Hall]. rewrite (IH Hall).
  destruct (Ascii.eqb_spec c "/"); [contradiction | reflexivity].
Qed.

Lemma basename_append (dir name : string) :
  Forall (fun c => c <> "/"%char) (list_ascii_of_string name) ->
  basename (dir +:+ "/" +:+ name) = basename name.
Proof.
  intros Hall. apply after_last_slash_None in Hall. unfold basename.
  by rewrite (after_last_slash_append _ _ Hall), Hall.
Qed.

(** X1. The three lookups read the scene name through [os.path.basename] only:
    a directory in front of a name without a slash changes none of them. *)
Theorem lookups_by_basename {LM : Libm} {capture : Type} {CO : Capture capture}
    (dir name : string) (nframes : Z) (captures : list capture) :
  Forall (fun c => c <> "/"%char) (list_ascii_of_string name) ->
  mocap_path (dir +:+ "/" +:+ name) = mocap_path name /\
  alignment (dir +:+ "/" +:+ name) = alignment name /\
  rendering_caps (dir +:+ "/" +:+ name) nframes captures
  = rendering_caps name nframes captures.
Proof.
  intros Hall. pose proof (basename_append dir name Hall) as Hb.
  unfold mocap_path, alignment, rendering_caps. rewrite !Hb. tauto.
Qed.

Lemma lookups_by_basename_witness :
  Forall (fun c => c <> "/"%char) (list_ascii_of_string "bike") /\
  mocap_path "data/neuman/bike" = Ok ("./data/MPI_mosh/50002/misc_poses.npz"%string, 0, 250, 1).
Proof.
  assert (Hall : Forall (fun c => c <> "/"%char) (list_ascii_of_string "bike")).
  { repeat (apply List.Forall_cons; [discriminate|]). apply List.Forall_nil. }
  split; [exact Hall|].
  destruct (lookups_by_basename (LM := stub_libm) (CO := demo_capture_ops)
              "data/neuman" "bike" 0 [] Hall) as (Hm & _).
  etransitivity; [exact Hm | reflexivity].
Defined.

Lemma recognized_cases (b : string) :
  b ∈ recognized_scenes <->
  String.eqb b "seattle" || String.eqb b "citron" || String.eqb b "parkinglot"
  || String.eqb b "bike" || String.eqb b "jogging" || String.eqb b "lab" = true.
Proof.
  unfold recognized_scenes. rewrite !orb_true_iff, !String.eqb_eq.
  rewrite !elem_of_cons, elem_of_nil. tauto.
Qed.

(** X2. [mocap_path] knows exactly the six recognized scenes, and the frame
    range it returns for them is a proper slice: [0 <= start < end] with a
    step of at least one, so [poses[start:end:skip]] never meets a zero
    step. *)
Theorem mocap_path_slice (scene_name : string) :
  (is_ok (mocap_path scene_name) = true
   <-> basename scene_name ∈ recognized_scenes) /\
  forall (path : string) (start_idx end_idx skip : Z),
    mocap_path scene_name = Ok (path, start_idx, end_idx, skip) ->
    0 <= start_idx < end_idx /\ 1 <= skip.
Proof.
  rewrite recognized_cases. unfold mocap_path.
  repeat (destruct (String.eqb (basename scene_name) _);
          [simpl; split; [tauto|]; intros ? ? ? ? [= <- <- <- <-]; lia|]).
  simpl. split; [split; discriminate|]. discriminate.
Qed.

(** X3. [alignment] returns for every scene name: a translation and a rotation
    of three entries each, the rotation in floats (radians), and a positive
    scale. *)
Theorem alignment_total (scene_name : string) :
  exists (manual_trans : ndarray1) (manual_rot : vec) (manual_scale : pynum),
    alignment scene_name = Ok (manual_trans, FloatArray manual_rot, manual_scale) /\
    ndarray1_len manual_trans = 3 /\ py_len manual_rot = 3 /\
    pynum_positive manual_scale = true.
Proof.
  unfold alignment.
  repeat (destruct (String.eqb (basename scene_name) _);
          [do 3 eexists; split; [reflexivity|]; by vm_compute|]).
  do 3 eexists; split; [reflexivity|]; by vm_compute.
Qed.

(** ** [rendering_caps] *)

Lemma py_index_out_of_range {A : Type} (l : list A) (i : Z) :
  i < - py_len l \/ py_len l <= i -> py_index l i = Raise IndexError.
Proof.
  intros Hi. unfold py_index.
  destruct (_ && _) eqn:Hb; [|reflexivity].
  apply andb_true_iff in Hb. lia.
Qed.

Lemma mapM_total_length {A B : Type} (f : A -> result B) (l : list A) :
  Forall (fun x => exists v, f x = Ok v) l ->
  exists vs, mapM f l = Ok vs /\ length vs = length l.
Proof.
  intros Hall. destruct (mapM_total f l Hall) as [vs Hvs].
  exists vs. split; [exact Hvs | by eapply mapM_Ok_length].
Qed.

Section RenderingCapsProps.

Context {LM : Libm} {capture : Type} {CO : Capture capture}.

Lemma caps_loop_Ok (nframes : Z) (body : Z -> result capture) :
  (forall i, 0 <= i < nframes -> exists c, body i = Ok c) ->
  exists caps, caps_loop nframes body = Ok caps /\ py_len caps = Z.max 0 nframes.
Proof.
  intros Hbody. unfold caps_loop.
  destruct (mapM_total_length body (py_range nframes)) as (caps & Hcaps & Hlen).
  - apply Forall_forall. intros i Hi. apply elem_of_py_range in Hi. auto.
  - exists caps. split; [exact Hcaps|]. unfold py_len.
    rewrite Hlen, length_py_range. lia.
Qed.

Lemma caps_loop_first (nframes : Z) (body : Z -> result capture) (e : exn) :
  0 < nframes -> body 0 = Raise e -> caps_loop nframes body = Raise e.
Proof.
  intros Hn Hbody. unfold caps_loop, py_range.
  destruct (Z.to_nat nframes) as [|n] eqn:E; [lia|].
  simpl. by rewrite Hbody.
Qed.

Lemma caps_loop_none (nframes : Z) (body : Z -> result capture) :
  nframes <= 0 -> caps_loop nframes body = Ok [].
Proof.
  intros Hn. unfold caps_loop, py_range.
  by replace (Z.to_nat nframes) with 0%nat by lia.
Qed.

Lemma py_truediv_int_Ok (a b : Z) :
  b <> 0 -> exists q, py_truediv_int a b = Ok q.
Proof.
  intros Hb. unfold py_truediv_int.
  destruct (b =? 0) eqn:E; [lia | eauto].
Qed.

(** X4. [rendering_caps] on a recognized scene.  Without frames to render it
    returns the empty path, whatever the scene holds.  With [nframes > 0]
    it copies one reference capture of the scene per frame: a scene of more
    than 67 captures has every reference capture, and the path has [nframes]
    captures; a scene of at most 20 captures has none of them, and the call
    raises [IndexError]. *)
Theorem rendering_caps_frames (scene_name : string) (nframes : Z)
    (captures : list capture) :
  basename scene_name ∈ recognized_scenes ->
  (nframes <= 0 -> rendering_caps scene_name nframes captures = Ok []) /\
  (0 < nframes -> 67 < py_len captures ->
   exists caps, rendering_caps scene_name nframes captures = Ok caps /\
                py_len caps = nframes) /\
  (0 < nframes -> py_len captures <= 20 ->
   rendering_caps scene_name nframes captures = Raise IndexError).
Proof.
  intros Hrec. apply recognized_cases in Hrec. unfold rendering_caps.
  repeat
    (destruct (String.eqb (basename scene_name) _);
     [clear Hrec; split; [|split];
      [ intros Hn; by apply caps_loop_none
      | intros Hn Hlen;
        match goal with
        | |- exists caps, caps_loop _ ?body = Ok caps /\ _ =>
            destruct (caps_loop_Ok nframes body) as (caps & Hcaps & Hl);
            [|exists caps; split; [exact Hcaps | lia]]
        end;
        intros i Hi; unfold ellipse_cap, angle1, angle2;
        match goal with
        | |- context [py_index captures ?ref] =>
            destruct (py_index_in_range captures ref) as (cap & -> & _); [lia|]
        end;
        cbn [mbind result_bind];
        try match goal with
            | |- context [py_truediv_int ?a nframes] =>
                destruct (py_truediv_int_Ok a nframes) as (q & ->); [lia|]
            end;
        cbn [mbind result_bind]; eauto
      | intros Hn Hlen; apply caps_loop_first; [exact Hn|];
        unfold ellipse_cap;
        match goal with
        | |- context [py_index captures ?ref] =>
            rewrite (py_index_out_of_range captures ref) by lia
        end;
        reflexivity ]
     |]).
  simpl in Hrec. discriminate.
Qed.

End RenderingCapsProps.

Lemma rendering_caps_frames_witness :
  basename "data/lab" ∈ recognized_scenes /\
  rendering_caps (LM := stub_libm) (CO := demo_capture_ops) "data/lab" 3
    [demo_cap; demo_cap] = Raise IndexError /\
  rendering_caps (LM := stub_libm) (CO := demo_capture_ops) "data/lab" 0
    [demo_cap; demo_cap] = Ok [].
Proof.
  assert (Hrec : basename "data/lab" ∈ recognized_scenes).
  { apply recognized_cases. reflexivity. }
  split; [exact Hrec|].
  destruct (rendering_caps_frames (LM := stub_libm) (CO := demo_capture_ops)
              "data/lab" 3 [demo_cap; demo_cap] Hrec) as (_ & _ & Hfew).
  destruct (rendering_caps_frames (LM := stub_libm) (CO := demo_capture_ops)
              "data/lab" 0 [demo_cap; demo_cap] Hrec) as (Hnone & _).
  split; [apply Hfew; [reflexivity | vm_compute; discriminate]
         | apply Hnone; vm_compute; discriminate].
Defined.

(** ** Boolean masks, windows and crops *)

Lemma py_range_from_app (s : Z) (n m : nat) :
  py_range_from s (n + m) = py_range_from s n ++ py_range_from (s + Z.of_nat n) m.
Proof.
  revert s; induction n as [|n IH]; intros s; simpl.
  - by rewrite Z.add_0_r.
  - rewrite IH. do 3 f_equal. lia.
Qed.

Lemma py_range_from_add (d s : Z) (n : nat) :
  (fun j => d + j) <$> py_range_from s n = py_range_from (d + s) n.
Proof.
  revert s; induction n as [|n IH]; intros s; [reflexivity|].
  cbn [py_range_from]. rewrite fmap_cons, IH. do 2 f_equal. lia.
Qed.

Lemma py_range_from_shift (s : Z) (n : nat) :
  py_range_from s n = (fun j => s + j) <$> py_range_from 0 n.
Proof. by rewrite py_range_from_add, Z.add_0_r. Qed.

Lemma compress_app {A : Type} (m1 m2 : list bool) (a1 a2 : list A) :
  length m1 = length a1 ->
  compress (m1 ++ m2) (a1 ++ a2) = compress m1 a1 ++ compress m2 a2.
Proof.
  revert a1; induction m1 as [|b m1 IH]; intros [|x a1] Hlen; try discriminate.
  - reflexivity.
  - injection Hlen as Hlen. simpl. rewrite (IH a1 Hlen). by destruct b.
Qed.

Lemma compress_nil_r {A : Type} (m : list bool) : compress m (@nil A) = [].
Proof. by destruct m as [|[] m]. Qed.

(** A mask that holds on the columns [c0 <= j < c1] keeps that stretch. *)
Lemma compress_band {A : Type} (c0 c1 : Z) (n : nat) (s : Z) (row : list A) :
  length row = n -> 0 <= s ->
  compress ((fun j => (c0 <=? j) && (j <? c1)) <$> py_range_from s n) row
  = take (Z.to_nat (c1 - Z.max c0 s)) (drop (Z.to_nat (c0 - s)) row).
Proof.
  revert s row; induction n as [|n IH]; intros s [|x row] Hlen Hs;
    try discriminate.
  - by rewrite drop_nil, take_nil.
  - injection Hlen as Hlen. simpl py_range_from. rewrite fmap_cons.
    cbn [compress]. rewrite (IH (s + 1) row Hlen) by lia.
    destruct (Z.leb_spec c0 s) as [H0|H0], (Z.ltb_spec s c1) as [H1|H1];
      cbn [andb].
    + replace (Z.to_nat (c0 - s)) with 0%nat by lia.
      replace (Z.to_nat (c0 - (s + 1))) with 0%nat by lia.
      replace (Z.to_nat (c1 - Z.max c0 s))
        with (S (Z.to_nat (c1 - Z.max c0 (s + 1)))) by lia.
      reflexivity.
    + replace (Z.to_nat (c1 - Z.max c0 s)) with 0%nat by lia.
      replace (Z.to_nat (c1 - Z.max c0 (s + 1))) with 0%nat by lia.
      reflexivity.
    + replace (Z.to_nat (c0 - s)) with (S (Z.to_nat (c0 - (s + 1)))) by lia.
      replace (Z.max c0 (s + 1)) with (Z.max c0 s) by lia. reflexivity.
    + replace (Z.to_nat (c1 - Z.max c0 s)) with 0%nat by lia.
      replace (Z.to_nat (c1 - Z.max c0 (s + 1))) with 0%nat by lia.
      reflexivity.
Qed.

Lemma compress_all_false {A : Type} (m : list bool) (a : list A) :
  Forall (fun b => b = false) m -> compress m a = [].
Proof.
  intros Hall. revert a. induction Hall as [|b m -> _ IH]; intros [|x a];
    simpl; auto.
Qed.

Lemma concat_fmap_nil {A B : Type} (f : A -> list B) (l : list A) :
  Forall (fun x => f x = []) l -> concat (f <$> l) = [].
Proof.
  induction 1 as [|x l Hx _ IH]; [reflexivity|].
  rewrite fmap_cons. cbn [concat]. by rewrite Hx, IH.
Qed.

Section Window.

Context {A : Type}.
Variables (H W r0 r1 c0 c1 : Z).
Hypothesis (HH : 0 <= H) (HW : 0 <= W).
Hypothesis (Hr : 0 <= r0 <= r1 /\ r1 <= H) (Hc : 0 <= c0 <= c1 /\ c1 <= W).

Let inside (k : Z) : bool :=
  (r0 <=? k / W) && (k / W <? r1) && (c0 <=? k mod W) && (k mod W <? c1).

Let stretch (l : list A) (r : Z) : list A :=
  take (Z.to_nat (c1 - c0)) (drop (Z.to_nat (r * W + c0)) l).

(** One row of the window mask against one row of the array. *)
Lemma compress_window_row (r : Z) (row : list A) :
  0 <= r -> length row = Z.to_nat W ->
  compress (inside <$> py_range_from (r * W) (Z.to_nat W)) row
  = if (r0 <=? r) && (r <? r1)
    then take (Z.to_nat (c1 - c0)) (drop (Z.to_nat c0) row) else [].
Proof.
  intros Hr0 Hlen.
  assert (Hrow : inside <$> py_range_from (r * W) (Z.to_nat W)
                 = (fun j => (r0 <=? r) && (r <? r1) && ((c0 <=? j) && (j <? c1)))
                   <$> py_range_from 0 (Z.to_nat W)).
  { rewrite py_range_from_shift, <- list_fmap_compose.
    apply list_fmap_ext. intros _ j Hj%list_elem_of_lookup_2.
    apply elem_of_py_range_from in Hj. simpl. unfold inside.
    replace ((r * W + j) / W) with r by (apply Z.div_unique with j; lia).
    replace ((r * W + j) mod W) with j by (apply Z.mod_unique with r; lia).
    by rewrite <- !andb_assoc. }
  rewrite Hrow. destruct ((r0 <=? r) && (r <? r1)).
  - cbn [andb]. rewrite compress_band by (done || lia).
    by rewrite Z.max_l, Z.sub_0_r by lia.
  - apply compress_all_false. apply Forall_fmap, Forall_forall. by intros.
Qed.

(** All rows from row [r] on. *)
Lemma compress_window_rows (n : nat) (r : Z) (l : list A) :
  0 <= r -> length l = (Z.to_nat (r + Z.of_nat n) * Z.to_nat W)%nat ->
  compress (inside <$> py_range_from (r * W) (n * Z.to_nat W))
           (drop (Z.to_nat (r * W)) l)
  = concat ((fun r' => if (r0 <=? r') && (r' <? r1) then stretch l r' else [])
            <$> py_range_from r n).
Proof.
  revert r; induction n as [|n IH]; intros r Hr0 Hlen.
  - reflexivity.
  - replace (S n * Z.to_nat W)%nat with (Z.to_nat W + n * Z.to_nat W)%nat by lia.
    rewrite py_range_from_app, fmap_app.
    rewrite <- (take_drop (Z.to_nat W) (drop (Z.to_nat (r * W)) l)).
    assert (Hrowlen : length (take (Z.to_nat W) (drop (Z.to_nat (r * W)) l))
                      = Z.to_nat W).
    { rewrite length_take, length_drop, Hlen. nia. }
    rewrite compress_app by (by rewrite length_fmap, length_py_range_from).
    rewrite compress_window_row by done.
    rewrite drop_drop.
    replace (r * W + Z.of_nat (Z.to_nat W)) with ((r + 1) * W) by lia.
    replace (Z.to_nat (r * W) + Z.to_nat W)%nat with (Z.to_nat ((r + 1) * W)) by nia.
    rewrite (IH (r + 1)) by (lia || (rewrite Hlen; f_equal; lia)).
    simpl py_range_from. rewrite fmap_cons. cbn [concat]. f_equal.
    destruct ((r0 <=? r) && (r <? r1)) eqn:Hin; [|reflexivity].
    unfold stretch.
    rewrite (take_drop_commute _ (Z.to_nat W)), drop_drop.
    rewrite take_drop_commute, take_take.
    rewrite (take_drop_commute l).
    replace (Z.to_nat (r * W + c0)) with (Z.to_nat (r * W) + Z.to_nat c0)%nat by nia.
    f_equal. f_equal. lia.
Qed.

End Window.

Lemma concat_window_rows {A : Type} (g : Z -> list A) (H r0 r1 : Z) :
  0 <= r0 <= r1 -> r1 <= H ->
  concat ((fun r => if (r0 <=? r) && (r <? r1) then g r else [])
          <$> py_range_from 0 (Z.to_nat H))
  = concat (g <$> py_range_from r0 (Z.to_nat (r1 - r0))).
Proof.
  intros Hr0 Hr1.
  replace (Z.to_nat H)
    with (Z.to_nat r0 + (Z.to_nat (r1 - r0) + Z.to_nat (H - r1)))%nat by lia.
  rewrite !py_range_from_app, !fmap_app, !concat_app.
  rewrite Z.add_0_l, !Z2Nat.id by lia.
  rewrite (concat_fmap_nil _ (py_range_from 0 _)), app_nil_l.
  - rewrite (concat_fmap_nil _ (py_range_from (r0 + _) _)), app_nil_r.
    + f_equal. apply list_fmap_ext. intros _ r Hin%list_elem_of_lookup_2.
      apply elem_of_py_range_from in Hin.
      destruct (Z.leb_spec r0 r), (Z.ltb_spec r r1); (reflexivity || lia).
    + apply Forall_forall. intros r Hin. apply elem_of_py_range_from in Hin.
      destruct (Z.leb_spec r0 r), (Z.ltb_spec r r1); (reflexivity || lia).
  - apply Forall_forall. intros r Hin. apply elem_of_py_range_from in Hin.
    destruct (Z.leb_spec r0 r), (Z.ltb_spec r r1); (reflexivity || lia).
Qed.

(** Indexing a flat array by the window mask yields the crop of the array to
    the window: [a.reshape(-1)[w.reshape(-1)]] is
    [a[y0:y1, x0:x1].reshape(-1)] for [w = zeros_like(a); w[y0:y1, x0:x1] = True]. *)
Lemma compress_window {A B : Type} (a : array2 B) (l : list A)
    (y0 y1 x0 x1 : Z) :
  array2_wf a -> py_len l = nrows a * ncols a ->
  compress (cells (window_mask a y0 y1 x0 x1)) l
  = cells (crop (mk_array2 (nrows a) (ncols a) l) y0 y1 x0 x1).
Proof.
  intros (HH & HW & _) Hlen. unfold window_mask, crop. cbn [nrows ncols cells].
  pose proof (slice_range_bounds (nrows a) y0 y1 HH) as Hy.
  pose proof (slice_range_bounds (ncols a) x0 x1 HW) as Hx.
  destruct (slice_range (nrows a) y0 y1) as [r0 r1].
  destruct (slice_range (ncols a) x0 x1) as [c0 c1]. cbn [fst snd cells] in *.
  rewrite <- (concat_window_rows _ (nrows a)) by lia.
  unfold py_range.
  replace (Z.to_nat (nrows a * ncols a))
    with (Z.to_nat (nrows a) * Z.to_nat (ncols a))%nat by nia.
  pose proof (compress_window_rows (A := A) (nrows a) (ncols a) r0 r1 c0 c1
                HH HW Hy Hx (Z.to_nat (nrows a)) 0 l ltac:(lia)) as Hrows.
  rewrite Z.mul_0_l in Hrows. cbn [Z.to_nat drop] in Hrows.
  apply Hrows. unfold py_len in Hlen. nia.
Qed.

(** ** Prefix sums and boolean indexing *)

Lemma compress_zip_andb {A : Type} (w r : list bool) (a : list A) :
  compress (zip_with andb w r) a = compress (compress w r) (compress w a).
Proof.
  revert r a; induction w as [|b w IH]; intros [|c r] [|x a]; simpl;
    try reflexivity;
    destruct b; simpl; rewrite ?compress_nil_r; try reflexivity;
    try destruct c; simpl; by rewrite ?IH.
Qed.

Lemma compress_compress_andb (w r : list bool) :
  compress w (zip_with andb w r) = compress w r.
Proof.
  revert r; induction w as [|b w IH]; intros [|c r]; simpl; try reflexivity;
    destruct b; simpl; by rewrite ?IH.
Qed.

Lemma count_true_compress_andb (w r : list bool) :
  count_true (zip_with andb w r) = count_true (compress w r).
Proof.
  revert r; induction w as [|b w IH]; intros [|c r]; simpl; try reflexivity.
  rewrite count_true_cons, IH. destruct b; simpl; [|lia].
  rewrite count_true_cons. lia.
Qed.

(** [a[np.where(m)]] is [a[m]]. *)
Lemma np_take_where {A : Type} (m : list bool) (a : list A) :
  length m = length a -> np_take a (np_where m) = Ok (compress m a).
Proof.
  intros Hlen. unfold np_take, np_where.
  enough (Hgen : forall (p : list A),
             mapM (py_index (p ++ a)) (np_where_from (py_len p) m)
             = Ok (compress m a)) by apply (Hgen []).
  revert a Hlen; induction m as [|b m IH]; intros [|x a] Hlen p;
    try discriminate; [reflexivity|].
  injection Hlen as Hlen. cbn [np_where_from compress].
  specialize (IH a Hlen (p ++ [x])).
  rewrite <- app_assoc in IH. cbn [app] in IH.
  replace (py_len (p ++ [x])) with (py_len p + 1) in IH
    by (unfold py_len; rewrite length_app; simpl; lia).
  destruct b; [|exact IH].
  cbn [mapM].
  rewrite (py_index_lookup (p ++ x :: a) (py_len p) x).
  - cbn [mbind result_bind]. fold (@mapM result _ _ Z A (py_index (p ++ x :: a))).
    rewrite IH. reflexivity.
  - unfold py_len. lia.
  - unfold py_len. rewrite Nat2Z.id. by rewrite list_lookup_middle.
Qed.

(** The prefix sum of a mask, less one, sends a position that the mask holds
    to the place of its entry in the compacted array. *)
Lemma compress_lookup_cumsum {A : Type} (m : list bool) (a : list A) (k : nat) :
  length m = length a -> m !! k = Some true ->
  compress m a !! Z.to_nat (count_true (take (S k) m) - 1) = a !! k.
Proof.
  revert a k; induction m as [|b m IH]; intros [|x a] k Hlen Hk;
    try discriminate.
  injection Hlen as Hlen. rewrite firstn_cons, count_true_cons.
  destruct k as [|k]; simpl in Hk.
  - injection Hk as ->. rewrite take_0, count_true_nil. reflexivity.
  - pose proof (count_true_take_pos _ _ Hk) as Hpos.
    specialize (IH a k Hlen Hk). cbn [compress]. destruct b.
    + replace (Z.to_nat (1 + count_true (take (S k) m) - 1))
        with (S (Z.to_nat (count_true (take (S k) m) - 1))) by lia.
      exact IH.
    + replace (0 + count_true (take (S k) m) - 1)
        with (count_true (take (S k) m) - 1) by lia.
      exact IH.
Qed.

Lemma count_true_take_lt (m : list bool) (i j : nat) :
  (i < j)%nat -> m !! j = Some true ->
  count_true (take (S i) m) < count_true (take (S j) m).
Proof.
  revert i j; induction m as [|b m IH]; intros i j Hij Hj; [discriminate|].
  rewrite !firstn_cons, !count_true_cons.
  destruct j as [|j]; [lia|]. simpl in Hj.
  destruct i as [|i].
  - rewrite take_0, count_true_nil.
    pose proof (count_true_take_pos _ _ Hj). lia.
  - specialize (IH i j ltac:(lia) Hj). lia.
Qed.

Lemma np_where_from_sorted (m : list bool) (start : Z) :
  StronglySorted Z.lt (np_where_from start m).
Proof.
  revert start; induction m as [|b m IH]; intros start; simpl; [constructor|].
  destruct b; [|apply IH]. constructor; [apply IH|].
  apply Forall_forall. intros k Hk. apply np_where_from_spec in Hk. lia.
Qed.

Lemma mapM_ext_in {A B : Type} (f g : A -> result B) (l : list A) :
  (forall x, x ∈ l -> f x = g x) -> mapM f l = mapM g l.
Proof.
  induction l as [|x l IH]; intros Hfg; [reflexivity|].
  cbn [mapM]. rewrite (Hfg x) by left.
  fold (@mapM result _ _ A B f) (@mapM result _ _ A B g).
  rewrite IH; [reflexivity|]. intros y Hy. apply Hfg. by right.
Qed.

Lemma mapM_Ok_fmap {A B : Type} (g : A -> B) (l : list A) :
  mapM (fun x => Ok (g x)) l = Ok (g <$> l).
Proof.
  induction l as [|x l IH]; [reflexivity|].
  cbn [mapM]. cbn [mbind result_bind].
  fold (@mapM result _ _ A B (fun x => Ok (g x))). by rewrite IH.
Qed.

Lemma mapM_fmap {A B C : Type} (f : B -> result C) (g : A -> B) (l : list A) :
  mapM f (g <$> l) = mapM (fun x => f (g x)) l.
Proof.
  induction l as [|x l IH]; [reflexivity|].
  rewrite fmap_cons. cbn [mapM].
  fold (@mapM result _ _ B C f) (@mapM result _ _ A C (fun x => f (g x))).
  by rewrite IH.
Qed.

(** ** One patch *)

Lemma StronglySorted_fmap_in {A B : Type} (R : relation A) (R' : relation B)
    (f : A -> B) (l : list A) :
  StronglySorted R l ->
  (forall x y, x ∈ l -> y ∈ l -> R x y -> R' (f x) (f y)) ->
  StronglySorted R' (f <$> l).
Proof.
  induction 1 as [|x l Hl IH Hx]; intros Hf; [constructor|].
  rewrite fmap_cons. constructor.
  - apply IH. intros y z Hy Hz. apply Hf; by right.
  - apply Forall_fmap, Forall_forall. intros y Hy. simpl.
    rewrite Forall_forall in Hx. apply Hf; [by left | by right | by apply Hx].
Qed.

Lemma crop_cells_eq {A : Type} (H W : Z) (l1 l2 : list A) (y0 y1 x0 x1 : Z) :
  cells (crop (mk_array2 H W l1) y0 y1 x0 x1)
  = cells (crop (mk_array2 H W l2) y0 y1 x0 x1) ->
  crop (mk_array2 H W l1) y0 y1 x0 x1 = crop (mk_array2 H W l2) y0 y1 x0 x1.
Proof.
  unfold crop. cbn [nrows ncols cells].
  destruct (slice_range H y0 y1) as [r0 r1], (slice_range W x0 x1) as [c0 c1].
  cbn [cells]. by intros ->.
Qed.

Section OnePatch.

Context {rng : Type} {RS : RandomState rng}.

Variables (ray_mask : list bool) (candidate_mask : array2 bool).
Variables (patch_size H W : Z) (s s' : rng).
Variables (select_inds : list Z) (mask : array2 bool).
Variables (x_min y_min x_max y_max : Z).

Hypothesis Hwf : array2_wf candidate_mask.
Hypothesis HH : nrows candidate_mask = H.
Hypothesis HW : ncols candidate_mask = W.
Hypothesis Hlen : py_len ray_mask = H * W.
Hypothesis Hcall :
  _get_patch_ray_indices ray_mask candidate_mask patch_size H W s
  = Ok (select_inds, mask, (x_min, y_min), (x_max, y_max), s').

Let window : list bool :=
  cells (window_mask candidate_mask y_min y_max x_min x_max).

Let place (k : Z) : Z := count_true (take (S (Z.to_nat k)) ray_mask) - 1.

Lemma window_length : length window = length ray_mask.
Proof.
  pose proof (window_mask_length candidate_mask y_min y_max x_min x_max Hwf) as Hl.
  rewrite HH, HW, <- Hlen in Hl. unfold py_len in Hl. unfold window. lia.
Qed.

(** The steps of [_get_patch_ray_indices] on an image-shaped input. *)
Lemma _get_patch_ray_indices_steps :
  select_inds = place <$> np_where (zip_with andb window ray_mask) /\
  mask = crop (mk_array2 H W (zip_with andb window ray_mask))
              y_min y_max x_min x_max.
Proof.
  pose proof window_length as Hwl.
  apply _get_patch_ray_indices_Ok in Hcall
    as (cx & cy & inter & _ & Hmin & Hmax & Hand & Htake & _ & Hmask).
  cbn [fst snd] in Hand, Hmask.
  unfold np_bitwise_and in Hand. fold window in Hand.
  replace (py_len window =? py_len ray_mask) with true in Hand
    by (symmetry; apply Z.eqb_eq; unfold py_len; lia).
  injection Hand as <-. split; [|exact Hmask].
  unfold np_take in Htake.
  rewrite (mapM_ext_in _ (fun k => Ok (place k))) in Htake.
  - rewrite mapM_Ok_fmap in Htake. by injection Htake as <-.
  - intros k Hk. apply np_where_spec in Hk as [Hk0 Hk].
    apply lookup_lt_Some in Hk as Hlt. rewrite length_zip_with in Hlt.
    apply py_index_lookup; [exact Hk0|].
    rewrite list_lookup_fmap. unfold np_cumsum.
    rewrite np_cumsum_from_lookup by lia. simpl. unfold place. f_equal; lia.
Qed.

Lemma inter_on_ray_mask (k : Z) :
  k ∈ np_where (zip_with andb window ray_mask) ->
  0 <= k /\ ray_mask !! Z.to_nat k = Some true.
Proof.
  intros Hk. apply np_where_spec in Hk as [Hk0 Hk]. split; [exact Hk0|].
  apply lookup_zip_with_Some in Hk as (x & y & Hxy & _ & Hy).
  symmetry in Hxy. apply andb_true_iff in Hxy as [_ ->]. exact Hy.
Qed.

(** The patch mask is the ray mask, as an image, cut to the window. *)
Lemma patch_mask_crop :
  mask = crop (mk_array2 H W ray_mask) y_min y_max x_min x_max.
Proof.
  destruct _get_patch_ray_indices_steps as [_ ->].
  apply crop_cells_eq. rewrite <- HH, <- HW.
  rewrite <- !(compress_window candidate_mask) by
    (done || (unfold py_len; rewrite ?length_zip_with, <- ?window_length;
              pose proof window_length; unfold py_len in Hlen; lia)).
  apply compress_compress_andb.
Qed.

Lemma patch_indices_count : py_len select_inds = count_true (cells mask).
Proof.
  rewrite patch_mask_crop.
  destruct _get_patch_ray_indices_steps as [-> _].
  unfold py_len at 1. rewrite length_fmap.
  fold (py_len (np_where (zip_with andb window ray_mask))).
  unfold np_where. rewrite np_where_from_length, count_true_compress_andb.
  unfold window.
  rewrite <- HH, <- HW, <- (compress_window candidate_mask); [reflexivity|done|].
  by rewrite HH, HW.
Qed.

(** The rows that the ray indices pick from a compacted array. *)
Lemma np_take_compress_patch {A : Type} (a : list A) :
  py_len a = H * W ->
  np_take (compress ray_mask a) select_inds
  = Ok (compress (cells mask)
          (cells (crop (mk_array2 H W a) y_min y_max x_min x_max))).
Proof.
  intros Ha. pose proof patch_mask_crop as Hmask.
  destruct _get_patch_ray_indices_steps as [Hsel _].
  pose proof window_length as Hwl.
  assert (Hla : length ray_mask = length a) by (unfold py_len in *; lia).
  rewrite Hsel. unfold np_take. rewrite mapM_fmap.
  rewrite (mapM_ext_in _ (py_index a)).
  - fold (np_take a (np_where (zip_with andb window ray_mask))).
    rewrite np_take_where by (rewrite length_zip_with; lia).
    rewrite compress_zip_andb, Hmask. unfold window.
    rewrite <- HH, <- HW, <- !(compress_window candidate_mask);
      [reflexivity | done | by rewrite HH, HW | done | by rewrite HH, HW].
  - intros k Hk. apply inter_on_ray_mask in Hk as [Hk0 Hk].
    pose proof (compress_lookup_cumsum ray_mask a (Z.to_nat k) Hla Hk) as Hc.
    apply lookup_lt_Some in Hk as Hlt.
    destruct (lookup_lt_is_Some_2 a (Z.to_nat k)) as [x Hx]; [lia|].
    rewrite (py_index_lookup a k x Hk0 Hx).
    apply py_index_lookup.
    + pose proof (count_true_take_pos _ _ Hk). unfold place. lia.
    + unfold place. by rewrite Hc.
Qed.

End OnePatch.

Section OnePatchTheorems.

Context {rng : Type} {RS : RandomState rng}.

(** X5. The ray indices of one patch come out strictly increasing: no ray is
    selected twice, and the rays keep the row-major order of their pixels. *)
Theorem patch_indices_increasing (ray_mask : list bool)
    (candidate_mask : array2 bool) (patch_size H W : Z) (s s' : rng)
    (select_inds : list Z) (mask : array2 bool) (xy_min xy_max : Z * Z) :
  array2_wf candidate_mask ->
  nrows candidate_mask = H -> ncols candidate_mask = W ->
  py_len ray_mask = H * W ->
  _get_patch_ray_indices ray_mask candidate_mask patch_size H W s
  = Ok (select_inds, mask, xy_min, xy_max, s') ->
  StronglySorted Z.lt select_inds.
Proof.
  destruct xy_min as [x_min y_min], xy_max as [x_max y_max].
  intros Hwf HH HW Hlen Hcall.
  destruct (_get_patch_ray_indices_steps _ _ _ _ _ _ _ _ _ _ _ _ _
              Hwf HH HW Hlen Hcall) as [-> _].
  eapply StronglySorted_fmap_in; [apply np_where_from_sorted|].
  intros k1 k2 Hk1 Hk2 Hlt. simpl in Hlt.
  apply (inter_on_ray_mask ray_mask candidate_mask) in Hk1 as [Hk1 _].
  apply (inter_on_ray_mask ray_mask candidate_mask) in Hk2 as [_ Hk2].
  pose proof (count_true_take_lt ray_mask (Z.to_nat k1) (Z.to_nat k2)
                ltac:(lia) Hk2).
  lia.
Qed.

(** X6. The validity mask of a patch is the ray mask, seen as an [H x W] image,
    cut to the window of the patch; its true entries are as many as the ray
    indices of the patch. *)
Theorem patch_mask_is_ray_mask_crop (ray_mask : list bool)
    (candidate_mask : array2 bool) (patch_size H W : Z) (s s' : rng)
    (select_inds : list Z) (mask : array2 bool) (x_min y_min x_max y_max : Z) :
  array2_wf candidate_mask ->
  nrows candidate_mask = H -> ncols candidate_mask = W ->
  py_len ray_mask = H * W ->
  _get_patch_ray_indices ray_mask candidate_mask patch_size H W s
  = Ok (select_inds, mask, (x_min, y_min), (x_max, y_max), s') ->
  mask = crop (mk_array2 H W ray_mask) y_min y_max x_min x_max /\
  py_len select_inds = count_true (cells mask).
Proof.
  intros Hwf HH HW Hlen Hcall. split.
  - by eapply patch_mask_crop.
  - by eapply patch_indices_count.
Qed.

(** X7. Compaction and patch selection undo each other: the rows that the ray
    indices of a patch pick from an array compacted by the ray mask are the
    rows of the full array inside the window, at the true entries of the
    patch mask and in their order.  In numpy's words,
    [a[ray_mask][select_inds]] is
    [a.reshape(H, W, -1)[y_min:y_max, x_min:x_max][mask]]. *)
Theorem patch_rows_round_trip {A : Type} (a : list A) (ray_mask : list bool)
    (candidate_mask : array2 bool) (patch_size H W : Z) (s s' : rng)
    (select_inds : list Z) (mask : array2 bool) (x_min y_min x_max y_max : Z) :
  array2_wf candidate_mask ->
  nrows candidate_mask = H -> ncols candidate_mask = W ->
  py_len ray_mask = H * W -> py_len a = H * W ->
  _get_patch_ray_indices ray_mask candidate_mask patch_size H W s
  = Ok (select_inds, mask, (x_min, y_min), (x_max, y_max), s') ->
  (compacted ← np_mask_index a ray_mask; np_take compacted select_inds)
  = Ok (compress (cells mask)
          (cells (crop (mk_array2 H W a) y_min y_max x_min x_max))).
Proof.
  intros Hwf HH HW Hlen Ha Hcall.
  unfold np_mask_index. rewrite Hlen, Ha, Z.eqb_refl. cbn [mbind result_bind].
  by eapply np_take_compress_patch.
Qed.

End OnePatchTheorems.

Lemma demo_patch_call :
  _get_patch_ray_indices (RS := counter_rng) demo_ray_mask demo_subject_mask
    2 3 4 2
  = Ok ([3; 4; 5], mk_array2 2 2 [true; false; true; true], (2, 1), (4, 3), 3).
Proof. vm_compute. reflexivity. Qed.

Lemma demo_subject_mask_wf : array2_wf demo_subject_mask.
Proof. split; [cbn; lia|]. split; [cbn; lia|]. reflexivity. Qed.

Lemma patch_indices_increasing_witness : StronglySorted Z.lt [3; 4; 5].
Proof.
  exact (patch_indices_increasing (RS := counter_rng) demo_ray_mask
           demo_subject_mask 2 3 4 2 3 _ _ _ _
           demo_subject_mask_wf eq_refl eq_refl eq_refl demo_patch_call).
Defined.

Lemma patch_mask_is_ray_mask_crop_witness :
  mk_array2 2 2 [true; false; true; true]
  = crop (mk_array2 3 4 demo_ray_mask) 1 3 2 4 /\
  py_len [3; 4; 5] = count_true [true; false; true; true].
Proof.
  exact (patch_mask_is_ray_mask_crop (RS := counter_rng) demo_ray_mask
           demo_subject_mask 2 3 4 2 3 _ _ _ _ _ _
           demo_subject_mask_wf eq_refl eq_refl eq_refl demo_patch_call).
Defined.

Lemma patch_rows_round_trip_witness :
  (compacted ← np_mask_index (py_range 12) demo_ray_mask;
   np_take compacted [3; 4; 5])
  = Ok (compress [true; false; true; true]
          (cells (crop (mk_array2 3 4 (py_range 12)) 1 3 2 4))).
Proof.
  exact (patch_rows_round_trip (RS := counter_rng) (py_range 12) demo_ray_mask
           demo_subject_mask 2 3 4 2 3 _ _ _ _ _ _
           demo_subject_mask_wf eq_refl eq_refl eq_refl eq_refl demo_patch_call).
Defined.

(** ** Several patches *)

Section PatchLayout.

Context {rng : Type} {RS : RandomState rng}.

Lemma patch_loop_layout (n : nat) (ray_mask : list bool)
    (subject_mask : array2 bool) (patch_size H W : Z)
    (acc acc' : patch_acc) (s s' : rng) :
  array2_wf subject_mask ->
  nrows subject_mask = H -> ncols subject_mask = W ->
  py_len ray_mask = H * W ->
  patch_loop n ray_mask subject_mask patch_size H W acc s = Ok (acc', s') ->
  patch_layout ray_mask H W (list_mask acc) (list_xy_min acc) (list_xy_max acc)
    (patch_div_indices acc) ->
  last (patch_div_indices acc) = Some (total_rays acc) ->
  length (list_ray_indices acc) = length (list_mask acc) ->
  patch_layout ray_mask H W (list_mask acc') (list_xy_min acc')
    (list_xy_max acc') (patch_div_indices acc') /\
  length (list_mask acc') = (length (list_mask acc) + n)%nat /\
  length (list_ray_indices acc') = length (list_mask acc').
Proof.
  intros Hwf HH HW Hlen. revert acc s.
  induction n as [|n IH]; intros acc s Hloop Hlay Hlast Hri; simpl in Hloop.
  - injection Hloop as <- _. rewrite Nat.add_0_r. tauto.
  - apply bind_Ok in Hloop as ([[[[inds mask] [x_min y_min]] [x_max y_max]] s1]
                                & Hp & Hloop).
    apply IH in Hloop; clear IH.
    + cbn [list_mask list_ray_indices] in Hloop. rewrite !length_app in Hloop.
      simpl in Hloop. destruct Hloop as (Hl & Hn & Hr).
      split; [exact Hl|]. split; lia.
    + cbn [list_mask list_xy_min list_xy_max patch_div_indices].
      destruct Hlay as (Hmin & Hmax & Hdiv & Hk).
      split; [rewrite !length_app; simpl; lia|].
      split; [rewrite !length_app; simpl; lia|].
      split; [rewrite !length_app; simpl; lia|].
      intros k m Hm.
      destruct (decide (k < length (list_mask acc))%nat) as [Hlt|Hge].
      * rewrite lookup_app_l in Hm by exact Hlt.
        destruct (Hk k m Hm)
          as (a & b & c & d & d0 & d1 & H1 & H2 & H3 & H4 & H5 & H6).
        exists a, b, c, d, d0, d1.
        rewrite !lookup_app_l by lia. tauto.
      * apply lookup_lt_Some in Hm as Hlt. rewrite length_app in Hlt.
        simpl in Hlt. assert (k = length (list_mask acc)) as -> by lia.
        rewrite list_lookup_middle in Hm by reflexivity. injection Hm as <-.
        exists x_min, y_min, x_max, y_max, (total_rays acc),
               (total_rays acc + py_len inds).
        rewrite (list_lookup_middle (list_xy_min acc)) by lia.
        rewrite (list_lookup_middle (list_xy_max acc)) by lia.
        rewrite (list_lookup_middle (patch_div_indices acc) [] _
                   (S (length (list_mask acc)))) by lia.
        rewrite (lookup_app_l (patch_div_indices acc)) by lia.
        rewrite last_lookup in Hlast. rewrite Hdiv in Hlast. simpl in Hlast.
        split; [reflexivity|]. split; [reflexivity|].
        split; [by eapply patch_mask_crop|].
        split; [exact Hlast|]. split; [reflexivity|].
        pose proof (patch_indices_count _ _ _ _ _ _ _ _ _ _ _ _ _
                      Hwf HH HW Hlen Hp). lia.
    + cbn [patch_div_indices total_rays]. apply last_snoc.
    + cbn [list_mask list_ray_indices]. rewrite !length_app. simpl. lia.
Qed.

(** X8. What [get_patch_ray_indices] returns for an image-shaped input: it only
    returns when at least one patch is requested; it returns one mask and two
    corners per patch and one more boundary than patches; the mask of each
    patch is the ray mask cut to the window of the patch, and the stretch of
    the boundaries that belongs to the patch is as long as that mask has true
    entries. *)
Theorem get_patch_ray_indices_layout (N_patch : Z) (ray_mask : list bool)
    (subject_mask : array2 bool) (patch_size H W : Z) (s s' : rng)
    (select_inds : list Z) (info : patch_info) (div : list Z) :
  array2_wf subject_mask ->
  nrows subject_mask = H -> ncols subject_mask = W ->
  py_len ray_mask = H * W ->
  get_patch_ray_indices N_patch ray_mask subject_mask patch_size H W s
  = Ok (select_inds, info, div, s') ->
  1 <= N_patch /\ py_len (info_mask info) = N_patch /\
  patch_layout ray_mask H W (info_mask info) (info_xy_min info)
    (info_xy_max info) div.
Proof.
  intros Hwf HH HW Hlen Hg. unfold get_patch_ray_indices in Hg.
  apply bind_Ok in Hg as ([acc s1] & Hloop & Hg).
  apply bind_Ok in Hg as (inds & Hcat & Hg).
  apply bind_Ok in Hg as (masks & Hstack & Hg).
  injection Hg as <- <- <- <-. cbn [info_mask info_xy_min info_xy_max].
  assert (Hmasks : masks = list_mask acc).
  { unfold np_stack in Hstack. destruct (list_mask acc); [discriminate|].
    destruct (forallb _ _); [by injection Hstack | discriminate]. }
  subst masks.
  apply (patch_loop_layout _ _ _ _ _ _ _ _ _ _ Hwf HH HW Hlen) in Hloop
    as (Hlay & Hn & Hri).
  - simpl in Hn. unfold np_concatenate in Hcat.
    destruct (list_ray_indices acc) eqn:E; [discriminate|].
    simpl in Hri. unfold py_len. split; [lia|]. split; [lia | exact Hlay].
  - repeat split. intros k m Hm. discriminate.
  - reflexivity.
  - reflexivity.
Qed.

End PatchLayout.

Lemma demo_patches_call :
  get_patch_ray_indices (RS := counter_rng) 2 demo_ray_mask demo_subject_mask
    2 3 4 0
  = Ok ([1; 2; 3; 0; 2],
        mk_patch_info
          [mk_array2 2 2 [false; true; true; true];
           mk_array2 2 2 [true; false; false; true]]
          [(1, 0); (0, 0)] [(3, 2); (2, 2)],
        [0; 3; 5], 2).
Proof. vm_compute. reflexivity. Qed.

Lemma get_patch_ray_indices_layout_witness :
  1 <= 2 /\
  py_len [mk_array2 2 2 [false; true; true; true];
          mk_array2 2 2 [true; false; false; true]] = 2 /\
  patch_layout demo_ray_mask 3 4
    [mk_array2 2 2 [false; true; true; true];
     mk_array2 2 2 [true; false; false; true]]
    [(1, 0); (0, 0)] [(3, 2); (2, 2)] [0; 3; 5].
Proof.
  exact (get_patch_ray_indices_layout (RS := counter_rng) 2 demo_ray_mask
           demo_subject_mask 2 3 4 0 2 _ _ _
           demo_subject_mask_wf eq_refl eq_refl eq_refl demo_patches_call).
Defined.

(** ** The splits of a dataset *)

Lemma elem_of_take_in {A : Type} (n : nat) (l : list A) (x : A) :
  x ∈ take n l -> x ∈ l.
Proof. intros Hx. rewrite <- (take_drop n l). apply elem_of_app. by left. Qed.

(** X9. The two splits that [__init__] keeps.  They are non-empty, made of
    capture indices below the number of captures (so [scene.captures[idx]]
    finds a capture for each of them), and share no index; together they
    leave out at least one capture, since the second list of
    [get_data_splits] is dropped. *)
Theorem init_splits_valid {capture : Type} (captures : list capture)
    (train_split val_split : list Z) :
  init_splits captures = Ok (train_split, val_split) ->
  (forall idx, idx ∈ train_split ++ val_split ->
               exists cap, py_index captures idx = Ok cap) /\
  NoDup (train_split ++ val_split) /\
  0 < py_len train_split /\ 0 < py_len val_split /\
  py_len train_split + py_len val_split < py_len captures.
Proof.
  unfold init_splits. intros Hi.
  apply bind_Ok in Hi as ([[tr va] te] & Hs & Hi). injection Hi as <- <-.
  apply get_data_splits_Ok in Hs
    as (v & h & Hnd & Hsub & -> & -> & -> & Htr & Hte & Hva).
  pose proof (list_difference_length _ _ (NoDup_py_range (py_len captures))
                Hnd Hsub) as Hlen.
  split; [|split; [|split; [exact Htr|split; [exact Hte|]]]].
  - intros idx Hin.
    assert (Hr : idx ∈ py_range (py_len captures)).
    { apply elem_of_app in Hin as [Hin|Hin].
      - by apply list_elem_of_difference in Hin as [Hin _].
      - apply Hsub. by eapply elem_of_take_in. }
    apply elem_of_py_range in Hr.
    destruct (py_index_in_range captures idx Hr) as (cap & Hcap & _). eauto.
  - apply NoDup_app. split; [|split].
    + apply NoDup_list_difference, NoDup_py_range.
    + intros x Hx Hx'. apply list_elem_of_difference in Hx as [_ Hx].
      apply Hx. by eapply elem_of_take_in.
    + rewrite <- (take_drop h v) in Hnd. by apply NoDup_app in Hnd as [? _].
  - unfold py_len in *. rewrite length_py_range in Hlen.
    pose proof (f_equal length (take_drop h v)) as Hv.
    rewrite length_app in Hv. lia.
Qed.

Lemma init_splits_valid_witness :
  init_splits (replicate 100 tt)
  = Ok (list_difference (py_range 100)
          [2; 7; 12; 17; 22; 27; 32; 37; 42; 47; 52; 57; 62; 67; 72; 77; 82;
           87; 92; 97],
        [2; 7; 12; 17; 22; 27; 32; 37; 42; 47]) /\
  py_len (list_difference (py_range 100)
            [2; 7; 12; 17; 22; 27; 32; 37; 42; 47; 52; 57; 62; 67; 72; 77; 82;
             87; 92; 97])
  + py_len [2; 7; 12; 17; 22; 27; 32; 37; 42; 47] < py_len (replicate 100 tt).
Proof.
  assert (Hcall :
    init_splits (replicate 100 tt)
    = Ok (list_difference (py_range 100)
            [2; 7; 12; 17; 22; 27; 32; 37; 42; 47; 52; 57; 62; 67; 72; 77; 82;
             87; 92; 97],
          [2; 7; 12; 17; 22; 27; 32; 37; 42; 47]))
    by (vm_compute; reflexivity).
  split; [exact Hcall|].
  by destruct (init_splits_valid _ _ _ Hcall) as (_ & _ & _ & _ & Hlt).
Defined.

(** ** Indexing a dataset *)

Lemma py_index_wrap {A : Type} (l : list A) (i : Z) :
  - py_len l <= i < 0 -> py_index l i = py_index l (i + py_len l).
Proof.
  intros Hi. unfold py_index.
  replace ((- py_len l <=? i) && (i <? py_len l)) with true
    by (symmetry; apply andb_true_iff; lia).
  replace ((- py_len l <=? i + py_len l) && (i + py_len l <? py_len l)) with true
    by (symmetry; apply andb_true_iff; lia).
  destruct (Z.ltb_spec i 0); [|lia].
  destruct (Z.ltb_spec (i + py_len l) 0); [lia | reflexivity].
Qed.

Section IndexingProps.

Context {LM : Libm} {EX : Externals} {capture : Type} {CO : Capture capture}
        {rng : Type} {RS : RandomState rng}.

Implicit Type self : NeumanDataset capture.

(** X10. Indexing of a training or validation dataset follows the Python list of
    its split: an index from [-len] to [-1] counts from the end, and any
    index outside [-len, len) raises [IndexError]. *)
Theorem get_single_item_index self :
  split self <> anim ->
  (forall (i : Z) (s : rng), - __len__ self <= i < 0 ->
     get_single_item self i s = get_single_item self (i + __len__ self) s) /\
  (forall (i : Z) (s : rng), i < - __len__ self \/ __len__ self <= i ->
     get_single_item self i s = Raise IndexError).
Proof.
  intros Hsplit. unfold get_single_item, __len__.
  split; intros i s; destruct (split self); try done; intros Hi.
  - rewrite (py_index_wrap _ i Hi). reflexivity.
  - rewrite (py_index_wrap _ i Hi). reflexivity.
  - rewrite (py_index_out_of_range _ i Hi). reflexivity.
  - rewrite (py_index_out_of_range _ i Hi). reflexivity.
Qed.

Lemma build_cache_length self (indices : list Z) (s s' : rng)
    (cache : list datum) :
  build_cache self indices s = Ok (cache, s') -> length cache = length indices.
Proof.
  revert s s' cache. induction indices as [|j rest IH]; intros s s' cache Hb;
    simpl in Hb.
  - by injection Hb as <- _.
  - apply bind_Ok in Hb as ([d1 s1] & _ & Hb).
    apply bind_Ok in Hb as ([tail s2] & Htail & Hb).
    injection Hb as <- _. simpl. f_equal. by eapply IH.
Qed.

Lemma init_cached_data_Ok self (s s' : rng) (self' : NeumanDataset capture) :
  init_cached_data self s = Ok (self', s') ->
  exists cache : list datum,
    cached_data self' = Some cache /\
    build_cache self (py_range (__len__ self)) s = Ok (cache, s') /\
    py_len cache = Z.max 0 (__len__ self).
Proof.
  unfold init_cached_data. simpl. unfold load_data_to_cuda. intros Hinit.
  apply bind_Ok in Hinit as ([cache s1] & Hbuild & Hinit).
  injection Hinit as <- ->. exists cache. split; [reflexivity|].
  change (__len__ (set_cached_data self None)) with (__len__ self) in Hbuild.
  apply build_cache_length in Hbuild as Hl.
  rewrite length_py_range in Hl. unfold py_len. split; [|lia].
  revert Hbuild. generalize (py_range (__len__ self)). intros indices.
  clear Hl. revert s s' cache.
  induction indices as [|j rest IH]; intros s s' cache Hb;
    simpl in Hb |- *; [exact Hb|].
  apply bind_Ok in Hb as ([d1 s2] & Hitem & Hb).
  apply bind_Ok in Hb as ([tail s3] & Htail & Hb).
  rewrite get_single_item_cache_irrelevant in Hitem. rewrite Hitem.
  cbn [mbind result_bind]. rewrite (IH _ _ _ Htail). exact Hb.
Qed.

(** X11. Once [__init__] has filled the cache, [__getitem__] indexes a Python
    list with one record per index of the dataset: an index from [-len] to
    [-1] serves the record counted from the end, and an index outside
    [-len, len) raises [IndexError]; no record is computed any more. *)
Theorem __getitem___index self (s s' : rng) (self' : NeumanDataset capture) :
  init_cached_data self s = Ok (self', s') ->
  (forall idx : Z, 0 <= idx < __len__ self ->
     exists d : datum, __getitem__ self' idx = Ok d) /\
  (forall idx : Z, - __len__ self <= idx < 0 ->
     __getitem__ self' idx = __getitem__ self' (idx + __len__ self)) /\
  (forall idx : Z, idx < - __len__ self \/ __len__ self <= idx ->
     __getitem__ self' idx = Raise IndexError).
Proof.
  intros Hinit.
  apply init_cached_data_Ok in Hinit as (cache & Hc & _ & Hlen).
  unfold __getitem__. rewrite Hc. split; [|split]; intros idx Hidx.
  - destruct (py_index_in_range cache idx) as (d & Hd & _); [lia | eauto].
  - replace (__len__ self) with (py_len cache) by lia.
    apply py_index_wrap. lia.
  - apply py_index_out_of_range.
    destruct (Z.le_gt_cases 0 (__len__ self)); [lia|].
    unfold py_len in *. lia.
Qed.

(** X12. Every tensor of every cached record is on the accelerator, and the
    entries of a cached record that are not tensors (numpy arrays, Python
    numbers) are those that [get_single_item] produced. *)
Theorem cached_tensors_on_cuda self (s s' : rng)
    (self' : NeumanDataset capture) :
  init_cached_data self s = Ok (self', s') ->
  forall (idx : Z) (d : datum), __getitem__ self' idx = Ok d ->
    (forall (key : string) (dev : device) (t : nd),
       d !! key = Some (VTensor dev t) -> dev = cuda) /\
    exists (i : Z) (s_i s_next : rng) (d0 : datum),
      get_single_item self i s_i = Ok (d0, s_next) /\
      dom d = dom d0 /\
      forall (key : string) (v : value),
        d0 !! key = Some v -> (forall dev t, v <> VTensor dev t) ->
        d !! key = Some v.
Proof.
  intros Hinit idx d Hget.
  apply init_cached_data_Ok in Hinit as (cache & Hc & Hbuild & _).
  unfold __getitem__ in Hget. rewrite Hc in Hget.
  apply py_index_Ok in Hget as [_ Hd].
  set (k := Z.to_nat _) in Hd.
  destruct (lookup_lt_is_Some_2 (py_range (__len__ self)) k) as [i Hi].
  { apply lookup_lt_Some in Hd. apply build_cache_length in Hbuild. lia. }
  destruct (build_cache_lookup _ _ _ _ _ Hbuild _ _ Hi)
    as (s_i & s_next & d0 & Hd0 & Hk).
  rewrite Hd in Hk. injection Hk as ->. split.
  - intros key dev t Hkey. rewrite lookup_fmap in Hkey.
    destruct (d0 !! key) as [[]|]; simpl in Hkey; try discriminate;
      by injection Hkey as <- _.
  - exists i, s_i, s_next, d0. split; [exact Hd0|]. split; [apply dom_fmap_L|].
    intros key v Hv Hnt. rewrite lookup_fmap, Hv. simpl. f_equal.
    destruct v; try reflexivity. by destruct (Hnt d t).
Qed.

End IndexingProps.

Lemma demo_init_Ok :
  exists (self' : NeumanDataset demo_capture) (s' : Z), demo_init 0 = Ok (self', s').
Proof.
  pose proof demo_cache_1 as Hc.
  destruct (demo_init 0) as [[self' s']|e]; [eauto | discriminate Hc].
Qed.

Lemma get_single_item_index_witness :
  split demo_dataset <> anim /\
  demo_item (-1) 0 = demo_item 1 0 /\ demo_item 2 0 = Raise IndexError.
Proof.
  assert (Hsplit : split demo_dataset <> anim) by discriminate.
  split; [exact Hsplit|].
  destruct (get_single_item_index (LM := stub_libm) (EX := demo_externals)
              (CO := demo_capture_ops) (RS := counter_rng) demo_dataset Hsplit)
    as [Hwrap Hout].
  split.
  - apply (Hwrap (-1) 0). vm_compute. split; [discriminate | reflexivity].
  - apply (Hout 2 0). right. vm_compute. discriminate.
Defined.

Lemma __getitem___index_witness :
  exists (self' : NeumanDataset demo_capture),
    __getitem__ self' (-1) = __getitem__ self' 1 /\
    __getitem__ self' 2 = Raise IndexError.
Proof.
  destruct demo_init_Ok as (self' & s' & Hinit). exists self'.
  destruct (__getitem___index (LM := stub_libm) (EX := demo_externals)
              (CO := demo_capture_ops) (RS := counter_rng)
              demo_dataset 0 s' self' Hinit) as (_ & Hwrap & Hout).
  split.
  - apply (Hwrap (-1)). vm_compute. split; [discriminate | reflexivity].
  - apply (Hout 2). right. vm_compute. discriminate.
Defined.

Lemma cached_tensors_on_cuda_witness :
  exists (self' : NeumanDataset demo_capture) (d : datum),
    __getitem__ self' 0 = Ok d /\
    forall (key : string) (dev : device) (t : nd),
      d !! key = Some (VTensor dev t) -> dev = cuda.
Proof.
  destruct demo_init_Ok as (self' & s' & Hinit).
  destruct (__getitem___index (LM := stub_libm) (EX := demo_externals)
              (CO := demo_capture_ops) (RS := counter_rng)
              demo_dataset 0 s' self' Hinit) as (Hin & _).
  destruct (Hin 0) as [d Hd]; [vm_compute; split; [discriminate | reflexivity]|].
  exists self', d. split; [exact Hd|].
  by destruct (cached_tensors_on_cuda (LM := stub_libm) (EX := demo_externals)
                 (CO := demo_capture_ops) (RS := counter_rng)
                 demo_dataset 0 s' self' Hinit 0 d Hd) as [Hcuda _].
Defined.

(** ** The box of a mask *)

Lemma np_where_from_all_false (m : list bool) (start : Z) :
  Forall (fun b => b = false) m -> np_where_from start m = [].
Proof.
  intros Hall. revert start. induction Hall as [|b m -> _ IH]; intros start;
    simpl; auto.
Qed.

Lemma foldl_zip_orb_all_false (init : list bool) (rows : list (list bool)) :
  Forall (fun b => b = false) init ->
  Forall (Forall (fun b => b = false)) rows ->
  Forall (fun b => b = false) (foldl (zip_with orb) init rows).
Proof.
  intros Hinit Hrows. revert init Hinit.
  induction Hrows as [|row rows Hrow _ IH]; intros init Hinit; simpl; [done|].
  apply IH. clear IH. revert row Hrow.
  induction Hinit as [|b init -> _ IHi]; intros [|c row] Hrow; simpl;
    try constructor.
  - by apply Forall_cons in Hrow as [-> _].
  - apply IHi. by apply Forall_cons in Hrow as [_ ?].
Qed.

Lemma foldl_zip_orb_length (init : list bool) (rows : list (list bool)) :
  Forall (fun row => length row = length init) rows ->
  length (foldl (zip_with orb) init rows) = length init.
Proof.
  intros Hrows. revert init Hrows.
  induction rows as [|row rows IH]; intros init Hrows; simpl; [done|].
  apply Forall_cons in Hrows as [Hrow Hrows].
  assert (Hl : length (zip_with orb init row) = length init)
    by (rewrite length_zip_with; lia).
  rewrite IH; [exact Hl|]. rewrite Hl. exact Hrows.
Qed.

(** A column of the running disjunction holds when it held at the start or
    holds in one of the rows. *)
Lemma foldl_zip_orb_lookup (init : list bool) (rows : list (list bool))
    (j : nat) :
  Forall (fun row => length row = length init) rows ->
  foldl (zip_with orb) init rows !! j = Some true <->
  init !! j = Some true \/ exists row, row ∈ rows /\ row !! j = Some true.
Proof.
  intros Hrows. revert init Hrows.
  induction rows as [|row rows IH]; intros init Hrows; simpl.
  - split; [by left|]. intros [?|(row & Hin & _)]; [done|].
    by apply elem_of_nil in Hin.
  - apply Forall_cons in Hrows as [Hrow Hrows].
    assert (Hl : length (zip_with orb init row) = length init)
      by (rewrite length_zip_with; lia).
    rewrite IH by (by rewrite Hl). rewrite lookup_zip_with_Some. split.
    + intros [(x & y & Hxy & Hx & Hy)|(r & Hin & Hr)].
      * symmetry in Hxy. apply orb_true_iff in Hxy as [->| ->]; [by left|].
        right. exists row. split; [by left | exact Hy].
      * right. exists r. split; [by right | exact Hr].
    + intros [Hi|(r & Hin & Hr)].
      * left. destruct (lookup_lt_is_Some_2 row j) as [y Hy].
        { apply lookup_lt_Some in Hi. lia. }
        exists true, y. by rewrite Hi, Hy.
      * apply elem_of_cons in Hin as [->|Hin]; [|right; eauto].
        left. destruct (lookup_lt_is_Some_2 init j) as [x Hx].
        { apply lookup_lt_Some in Hr. lia. }
        exists x, true. rewrite Hx, Hr. by rewrite orb_true_r.
Qed.

Lemma StronglySorted_lt_lookup (l : list Z) (i j : nat) (x y : Z) :
  StronglySorted Z.lt l -> (i <= j)%nat ->
  l !! i = Some x -> l !! j = Some y -> x <= y.
Proof.
  intros Hs. revert i j. induction Hs as [|z l _ IH Hz]; intros i j Hij Hi Hj;
    [discriminate|].
  destruct i as [|i], j as [|j]; simpl in Hi, Hj; try lia.
  - simplify_eq. lia.
  - simplify_eq. rewrite Forall_forall in Hz.
    apply list_elem_of_lookup_2 in Hj. specialize (Hz y Hj). lia.
  - apply (IH i j); [lia | exact Hi | exact Hj].
Qed.

(** [np.where(m)[0][[0, -1]]]: the first and the last position that holds. *)
Lemma first_last_true_Ok (m : list bool) (lo hi : Z) :
  first_last_true m = Ok (lo, hi) ->
  (0 <= lo /\ m !! Z.to_nat lo = Some true) /\
  (0 <= hi /\ m !! Z.to_nat hi = Some true) /\
  forall k : nat, m !! k = Some true -> lo <= Z.of_nat k <= hi.
Proof.
  unfold first_last_true. intros Hf. inv_bind Hf. injection Hf as <- <-.
  apply py_index_Ok in Hstep as [_ Hlo], Hstep0 as [Hr Hhi].
  change (0 <? 0) with false in Hlo. change (-1 <? 0) with true in Hhi.
  cbn iota in Hlo, Hhi. change (Z.to_nat 0) with 0%nat in Hlo.
  set (l := np_where m) in *.
  pose proof (np_where_from_sorted m 0) as Hs. fold (np_where m) in Hs. fold l in Hs.
  split; [by apply np_where_spec, list_elem_of_lookup_2 with 0%nat|].
  split; [by eapply np_where_spec, list_elem_of_lookup_2|].
  intros k Hk.
  assert (Hin : Z.of_nat k ∈ l).
  { apply np_where_spec. split; [lia|]. by rewrite Nat2Z.id. }
  apply list_elem_of_lookup in Hin as [i Hi].
  apply lookup_lt_Some in Hi as Hlt. split.
  - apply (StronglySorted_lt_lookup l 0 i _ _ Hs); [lia | exact Hlo | exact Hi].
  - apply (StronglySorted_lt_lookup l i (Z.to_nat (-1 + py_len l)) _ _ Hs);
      [unfold py_len; lia | exact Hi | exact Hhi].
Qed.

Lemma first_last_true_empty (m : list bool) :
  Forall (fun b => b = false) m -> first_last_true m = Raise IndexError.
Proof.
  intros Hall. unfold first_last_true, np_where.
  by rewrite np_where_from_all_false.
Qed.

Section Rows.

Context {A : Type}.
Variable a : array2 A.
Hypothesis Hwf : array2_wf a.

Lemma array2_rows_lookup (r : nat) :
  Z.of_nat r < nrows a ->
  array2_rows a !! r
  = Some (take (Z.to_nat (ncols a))
            (drop (Z.to_nat (Z.of_nat r * ncols a)) (cells a))).
Proof.
  intros Hr. unfold array2_rows. rewrite list_lookup_fmap, py_range_seqZ.
  by rewrite lookup_seqZ_lt.
Qed.

Lemma array2_rows_length : length (array2_rows a) = Z.to_nat (nrows a).
Proof. unfold array2_rows. by rewrite length_fmap, length_py_range. Qed.

Lemma array2_rows_row_length (row : list A) :
  row ∈ array2_rows a -> length row = Z.to_nat (ncols a).
Proof.
  destruct Hwf as (Hr & Hc & Hlen). intros Hin.
  apply list_elem_of_lookup in Hin as [r Hrow].
  apply lookup_lt_Some in Hrow as Hlt. rewrite array2_rows_length in Hlt.
  rewrite array2_rows_lookup in Hrow by lia. injection Hrow as <-.
  rewrite length_take, length_drop. unfold py_len in Hlen. nia.
Qed.

(** [a[r, c]] read through the rows. *)
Lemma array2_get_rows (r c : Z) (x : A) :
  array2_get a r c = Some x <->
  0 <= r /\ 0 <= c /\
  exists row, array2_rows a !! Z.to_nat r = Some row /\ row !! Z.to_nat c = Some x.
Proof.
  destruct Hwf as (Hr & Hc & Hlen). unfold array2_get. split.
  - destruct (_ && _) eqn:Hb; [|discriminate]. intros Hx.
    repeat (apply andb_true_iff in Hb as [Hb ?]).
    split; [lia|]. split; [lia|]. eexists. split.
    + rewrite array2_rows_lookup by lia. reflexivity.
    + rewrite lookup_take_lt, lookup_drop by lia. rewrite <- Hx. f_equal. nia.
  - intros (Hr0 & Hc0 & row & Hrow & Hx).
    apply lookup_lt_Some in Hrow as Hlt. rewrite array2_rows_length in Hlt.
    rewrite array2_rows_lookup in Hrow by lia. injection Hrow as <-.
    apply lookup_lt_Some in Hx as Hclt. rewrite length_take in Hclt.
    replace ((0 <=? r) && (r <? nrows a) && (0 <=? c) && (c <? ncols a))
      with true by (symmetry; rewrite !andb_true_iff; lia).
    rewrite lookup_take_lt, lookup_drop in Hx by lia. rewrite <- Hx. f_equal. nia.
Qed.

End Rows.

Lemma np_any_axis1_lookup (msk : array2 float) (r : nat) :
  np_any_axis1 msk !! r = Some true <->
  exists row, array2_rows msk !! r = Some row /\ existsb nonzero row = true.
Proof.
  unfold np_any_axis1. rewrite list_lookup_fmap.
  destruct (array2_rows msk !! r) as [row|]; simpl.
  - split; [intros [= Hrow]; eauto | intros (row' & [= <-] & Hrow); by f_equal].
  - split; [discriminate | intros (row' & ? & _); discriminate].
Qed.

Lemma np_any_axis0_lookup (msk : array2 float) (c : nat) :
  array2_wf msk ->
  np_any_axis0 msk !! c = Some true <->
  exists row x, row ∈ array2_rows msk /\ row !! c = Some x /\ nonzero x = true.
Proof.
  intros Hwf. unfold np_any_axis0. rewrite foldl_zip_orb_lookup.
  - split.
    + intros [Hinit|(brow & Hin & Hc)].
      * apply lookup_replicate in Hinit as [? _]. discriminate.
      * apply list_elem_of_fmap in Hin as (row & -> & Hin).
        rewrite list_lookup_fmap in Hc.
        destruct (row !! c) as [x|] eqn:Hx; [|discriminate].
        injection Hc as Hc. eauto.
    + intros (row & x & Hin & Hx & Hnz). right.
      exists (nonzero <$> row). split; [by apply list_elem_of_fmap_2|].
      by rewrite list_lookup_fmap, Hx, <- Hnz.
  - apply Forall_fmap, Forall_forall. intros row Hin. simpl.
    rewrite length_fmap, length_replicate.
    by apply (array2_rows_row_length msk Hwf).
Qed.

Lemma existsb_nonzero (row : list float) :
  existsb nonzero row = true <->
  exists (c : nat) (x : float), row !! c = Some x /\ nonzero x = true.
Proof.
  rewrite existsb_exists. split.
  - intros (x & Hin & Hnz). apply list_elem_of_In in Hin.
    apply list_elem_of_lookup in Hin as [c Hc]. eauto.
  - intros (c & x & Hc & Hnz). exists x. split; [|exact Hnz].
    apply list_elem_of_In. by eapply list_elem_of_lookup_2.
Qed.

Lemma all_zero_rows (msk : array2 float) :
  Forall (fun x => nonzero x = false) (cells msk) ->
  Forall (Forall (fun x => nonzero x = false)) (array2_rows msk).
Proof.
  intros Hall. unfold array2_rows. apply Forall_fmap, Forall_forall.
  intros r _. simpl. by apply Forall_take, Forall_drop.
Qed.

Lemma mask_bbox_empty (msk : array2 float) :
  Forall (fun x => nonzero x = false) (cells msk) ->
  mask_bbox msk = Raise IndexError.
Proof.
  intros Hall. unfold mask_bbox.
  rewrite (first_last_true_empty (np_any_axis0 msk)); [reflexivity|].
  unfold np_any_axis0. apply foldl_zip_orb_all_false.
  - apply Forall_replicate. reflexivity.
  - apply Forall_fmap. eapply Forall_impl; [apply all_zero_rows, Hall|].
    intros row Hrow. simpl. apply Forall_fmap. exact Hrow.
Qed.

(** X13. The box of a mask (lines 460-464).  A mask without a nonzero pixel has
    no box: taking the first and the last of no position raises
    [IndexError].  Otherwise the box is [[xmin, ymin, xmax, ymax]] in which
    [xmin] and [xmax] are the first and the last row that hold a nonzero
    pixel and [ymin] and [ymax] the first and the last such column (the code
    names the column flags [rows] and the row flags [cols]): every nonzero
    pixel lies within these bounds, and each bound is met by one. *)
Theorem mask_bbox_spec (msk : array2 float) :
  array2_wf msk ->
  (Forall (fun x => nonzero x = false) (cells msk) ->
   mask_bbox msk = Raise IndexError) /\
  forall bbox : list Z, mask_bbox msk = Ok bbox ->
    exists xmin ymin xmax ymax : Z,
      bbox = [xmin; ymin; xmax; ymax] /\
      (forall (r c : Z) (x : float),
         array2_get msk r c = Some x -> nonzero x = true ->
         xmin <= r <= xmax /\ ymin <= c <= ymax) /\
      (exists c x, array2_get msk xmin c = Some x /\ nonzero x = true) /\
      (exists c x, array2_get msk xmax c = Some x /\ nonzero x = true) /\
      (exists r x, array2_get msk r ymin = Some x /\ nonzero x = true) /\
      (exists r x, array2_get msk r ymax = Some x /\ nonzero x = true).
Proof.
  intros Hwf. split.
  - apply mask_bbox_empty.
  - intros bbox Hb. unfold mask_bbox in Hb.
    apply bind_Ok in Hb as ([ymin ymax] & Hy & Hb).
    apply bind_Ok in Hb as ([xmin xmax] & Hx & Hb). injection Hb as <-.
    exists xmin, ymin, xmax, ymax. split; [reflexivity|].
    apply first_last_true_Ok in Hy as ((Hy0 & Hylo) & (Hy1 & Hyhi) & Hyall).
    apply first_last_true_Ok in Hx as ((Hx0 & Hxlo) & (Hx1 & Hxhi) & Hxall).
    assert (Hrowhit : forall r : Z, 0 <= r ->
              np_any_axis1 msk !! Z.to_nat r = Some true ->
              exists c x, array2_get msk r c = Some x /\ nonzero x = true).
    { intros r Hr0 Hr. apply np_any_axis1_lookup in Hr as (row & Hrow & Hex).
      apply existsb_nonzero in Hex as (c & x & Hc & Hnz).
      exists (Z.of_nat c), x. split; [|exact Hnz].
      apply (array2_get_rows msk Hwf). split; [lia|]. split; [lia|].
      exists row. by rewrite Nat2Z.id. }
    assert (Hcolhit : forall c : Z, 0 <= c ->
              np_any_axis0 msk !! Z.to_nat c = Some true ->
              exists r x, array2_get msk r c = Some x /\ nonzero x = true).
    { intros c Hc0 Hc.
      apply (np_any_axis0_lookup msk _ Hwf) in Hc as (row & x & Hin & Hx & Hnz).
      apply list_elem_of_lookup in Hin as [r Hrow].
      exists (Z.of_nat r), x. split; [|exact Hnz].
      apply (array2_get_rows msk Hwf). split; [lia|]. split; [lia|].
      exists row. by rewrite Nat2Z.id. }
    split; [|auto].
    intros r c x Hget Hnz.
    apply (array2_get_rows msk Hwf) in Hget as (Hr0 & Hc0 & row & Hrow & Hx).
    split.
    + assert (Hr : np_any_axis1 msk !! Z.to_nat r = Some true).
      { apply np_any_axis1_lookup. exists row. split; [exact Hrow|].
        apply existsb_nonzero. eauto. }
      specialize (Hxall _ Hr). lia.
    + assert (Hc : np_any_axis0 msk !! Z.to_nat c = Some true).
      { apply (np_any_axis0_lookup msk _ Hwf). exists row, x.
        split; [by eapply list_elem_of_lookup_2 | done]. }
      specialize (Hyall _ Hc). lia.
Qed.

Lemma mask_bbox_spec_witness :
  array2_wf (mk_array2 2 3 [0; 0; 0; 0; 1; 0]%float) /\
  mask_bbox (mk_array2 2 3 [0; 0; 0; 0; 1; 0]%float) = Ok [1; 1; 1; 1] /\
  mask_bbox (mk_array2 2 3 [0; 0; 0; 0; 0; 0]%float) = Raise IndexError.
Proof.
  assert (Hwf : forall l : list float,
            length l = 6%nat -> array2_wf (mk_array2 2 3 l)).
  { intros l Hl. split; [cbn; lia|]. split; [cbn; lia|].
    unfold py_len. cbn. lia. }
  split; [by apply Hwf|]. split; [reflexivity|].
  destruct (mask_bbox_spec (mk_array2 2 3 [0; 0; 0; 0; 0; 0]%float)
              (Hwf [0; 0; 0; 0; 0; 0]%float eq_refl)) as [Hempty _].
  apply Hempty. repeat (apply List.Forall_cons; [reflexivity|]).
  apply List.Forall_nil.
Defined.

Section EmptyMask.

Context {LM : Libm} {EX : Externals} {capture : Type} {CO : Capture capture}
        {rng : Type} {RS : RandomState rng}.

(** X14. A training or validation frame whose mask holds no nonzero pixel yields
    no sample: [get_single_item] raises [IndexError] while it takes the box
    of the mask, before any ray is cast or any patch is drawn. *)
Theorem get_single_item_empty_mask (self : NeumanDataset capture) (i : Z)
    (s : rng) (idx : Z) (cap : capture) (msk : array2 float) :
  split self <> anim ->
  frame_index self i = Ok idx ->
  py_index (scene_captures self) idx = Ok cap ->
  load_mask self idx = Ok msk ->
  Forall (fun x => nonzero x = false) (cells msk) ->
  get_single_item self i s = Raise IndexError.
Proof.
  intros Hsplit Hidx Hcap Hmsk Hall.
  pose proof (mask_bbox_empty msk Hall) as Hbox.
  unfold get_single_item. unfold frame_index in Hidx. rewrite Hidx.
  cbn [mbind result_bind]. rewrite Hcap. cbn [mbind result_bind].
  unfold image_fields. rewrite Hmsk. cbn [mbind result_bind]. rewrite Hbox.
  by destruct (split self).
Qed.

End EmptyMask.

Lemma get_single_item_empty_mask_witness :
  get_single_item (LM := stub_libm) (EX := demo_externals)
    (CO := demo_capture_ops) (RS := counter_rng)
    (mk_dataset train "human_scene" [demo_cap] demo_smpl_params
       [mk_array2 1 2 [0; 0]] [0] [0] (NdList []) (NdList []) (NdList [])
       1 None) 0 0
  = Raise IndexError.
Proof.
  eapply (get_single_item_empty_mask (LM := stub_libm) (EX := demo_externals)
            (CO := demo_capture_ops) (RS := counter_rng) _ 0 0 0 demo_cap).
  - discriminate.
  - reflexivity.
  - reflexivity.
  - reflexivity.
  - repeat (apply List.Forall_cons; [reflexivity|]). apply List.Forall_nil.
Defined.

(** ** The entries of a sample record *)

Lemma unit_channel (c : Z) :
  0 <= c <= 255 ->
  PrimFloat.leb 0%float (f32 (PrimFloat.div (py_float_of_int c) 255%float))
  && PrimFloat.leb (f32 (PrimFloat.div (py_float_of_int c) 255%float)) 1%float
  = true.
Proof.
  intros Hc.
  assert (Hall : forallb
            (fun c => PrimFloat.leb 0%float
                        (f32 (PrimFloat.div (py_float_of_int c) 255%float))
                      && PrimFloat.leb
                           (f32 (PrimFloat.div (py_float_of_int c) 255%float))
                           1%float)
            (py_range 256) = true) by (vm_compute; reflexivity).
  rewrite forallb_forall in Hall. apply Hall.
  apply list_elem_of_In, elem_of_py_range. lia.
Qed.

(** X15. The image of a sample (lines 451-452): the first three channels of
    each pixel, scaled from bytes to float32 values between 0 and 1, in the
    shape of the captured image. *)
Theorem load_image_unit_range {capture : Type} {CO : Capture capture}
    (cap : capture) :
  Forall (Forall (fun c => 0 <= c <= 255)) (cells (captured_image cap)) ->
  nrows (load_image cap) = nrows (captured_image cap) /\
  ncols (load_image cap) = ncols (captured_image cap) /\
  length (cells (load_image cap)) = length (cells (captured_image cap)) /\
  Forall (fun px => (length px <= 3)%nat /\
                    Forall (fun v => fle 0%float v /\ fle v 1%float) px)
         (cells (load_image cap)).
Proof.
  intros Hbytes. unfold load_image, array2_map. cbn [nrows ncols cells].
  split; [reflexivity|]. split; [reflexivity|].
  split; [by rewrite length_fmap|].
  apply Forall_fmap. eapply Forall_impl; [exact Hbytes|].
  intros px Hpx. simpl. split.
  - rewrite length_fmap, length_take. lia.
  - apply Forall_fmap.
    assert (Hpx3 : Forall (fun c => 0 <= c <= 255) (take 3 px))
      by (by apply Forall_take).
    eapply Forall_impl; [exact Hpx3|]. intros c Hc. simpl.
    apply unit_channel in Hc. apply andb_true_iff in Hc. exact Hc.
Qed.

Lemma load_image_unit_range_witness :
  Forall (Forall (fun c => 0 <= c <= 255)) [[0; 128; 255; 7]] /\
  Forall (fun px => (length px <= 3)%nat /\
                    Forall (fun v => fle 0%float v /\ fle v 1%float) px)
    (cells (load_image (CO := demo_capture_ops)
              (mk_demo_capture (mk_array2 1 1 [[0; 128; 255; 7]]) [] []
                 (1, 1) []))).
Proof.
  assert (Hb : Forall (Forall (fun c => 0 <= c <= 255)) [[0; 128; 255; 7]]).
  { apply List.Forall_cons; [|apply List.Forall_nil].
    repeat (apply List.Forall_cons; [lia|]). apply List.Forall_nil. }
  split; [exact Hb|].
  by destruct (load_image_unit_range (CO := demo_capture_ops)
                 (mk_demo_capture (mk_array2 1 1 [[0; 128; 255; 7]]) [] []
                    (1, 1) []) Hb) as (_ & _ & _ & Hrange).
Defined.

Section RecordProps.

Context {LM : Libm} {EX : Externals} {capture : Type} {CO : Capture capture}
        {rng : Type} {RS : RandomState rng}.

Implicit Type self : NeumanDataset capture.

Lemma image_fields_dom self (cap : capture) (idx : Z) (img : array2 vec)
    (msk : array2 float) (datum0 : datum) :
  image_fields self cap idx = Ok (img, msk, datum0) ->
  load_mask self idx = Ok msk /\
  dom datum0 = list_to_set image_keys.
Proof.
  unfold image_fields. intros Hi. inv_bind Hi. injection Hi as _ <- <-.
  split; [exact Hstep|]. rewrite !dom_insert_L, dom_empty_L. reflexivity.
Qed.

Lemma camera_fields_dom self (cap : capture) (idx : Z) (datum0 datum1 : datum) :
  camera_fields self cap idx datum0 = Ok datum1 ->
  dom datum1 = list_to_set camera_keys ∪ dom datum0.
Proof.
  unfold camera_fields. intros Hc. inv_bind Hc. injection Hc as <-.
  rewrite !dom_insert_L. unfold camera_keys. cbn [list_to_set foldr].
  by rewrite <- !(assoc_L (∪)), (left_id_L ∅ (∪)).
Qed.

(** X16. The entries of a sample.  A training or validation sample has the 37
    entries of the image, of the camera and pose, and of the rays, the patch
    and the canonical body; an animation sample has the 16 entries of the
    camera and pose and the three of the manual alignment, and none of the
    image or of the rays. *)
Theorem sample_keys_spec self (i : Z) (s s' : rng) (d : datum) :
  get_single_item self i s = Ok (d, s') ->
  dom d = list_to_set (sample_keys (split self)) /\
  NoDup (sample_keys (split self)) /\
  length (sample_keys (split self))
  = match split self with anim => 19%nat | _ => 37%nat end.
Proof.
  intros Hg. split; [|split].
  - assert (Hcase : split self = anim \/ split self <> anim)
      by (destruct (split self); auto; right; discriminate).
    destruct Hcase as [Ha|Hsplit].
    + unfold get_single_item in Hg. rewrite Ha in *.
      apply bind_Ok in Hg as (idx & _ & Hg).
      apply bind_Ok in Hg as (cap & _ & Hg).
      apply bind_Ok in Hg as (datum1 & Hcam & Hg). injection Hg as <- _.
      apply camera_fields_dom in Hcam. unfold anim_fields.
      rewrite !dom_insert_L, Hcam, dom_empty_L.
      unfold sample_keys, anim_keys. rewrite list_to_set_app_L.
      cbn [list_to_set foldr].
      by rewrite <- !(assoc_L (∪)), (left_id_L ∅ (∪)), (right_id_L ∅ (∪)).
    + apply get_single_item_Ok in Hg
        as (idx & cap & img & msk & datum0 & datum1 & _ & Him & Hcam & Ht);
        [|exact Hsplit].
      apply train_fields_Ok in Ht
        as (cnl & fr & ic & c & p & b & _ & _ & _ & _ & _ & _ & ->).
      apply image_fields_dom in Him as [_ Him].
      apply camera_fields_dom in Hcam. unfold train_datum.
      destruct (body_pose_to_body_RTs _ _) as [dst_Rs dst_Ts].
      rewrite !dom_insert_L, Hcam, Him.
      replace (sample_keys (split self))
        with (train_keys ++ camera_keys ++ image_keys)
        by (by destruct (split self)).
      rewrite !list_to_set_app_L. unfold train_keys.
      cbn [list_to_set foldr].
      by rewrite <- !(assoc_L (∪)), (left_id_L ∅ (∪)).
  - destruct (split self); apply (bool_decide_unpack _); vm_compute; exact I.
  - by destruct (split self).
Qed.

Lemma compact_rays_rows (dst_bbox : bbox) (img rays_o rays_d : array2 vec)
    (c : compacted) :
  compact_rays dst_bbox img rays_o rays_d = Ok c ->
  c_rays_o c = compress (c_ray_mask c) (cells rays_o) /\
  c_rays_d c = compress (c_ray_mask c) (cells rays_d) /\
  c_ray_img c = compress (c_ray_mask c) (cells img).
Proof.
  unfold compact_rays, reshape_flat.
  destruct (rays_intersect_3d_bbox _ _ _) as [[near far] ray_mask].
  unfold np_mask_index. intros Hc.
  destruct (py_len ray_mask =? py_len (cells rays_o)); [|discriminate].
  destruct (py_len ray_mask =? py_len (cells rays_d)); [|discriminate].
  destruct (py_len ray_mask =? py_len (cells img)); [|discriminate].
  by injection Hc as <-.
Qed.

Lemma array2_map_wf {A B : Type} (f : A -> B) (a : array2 A) :
  array2_wf a -> array2_wf (array2_map f a).
Proof.
  intros (Hr & Hc & Hl). unfold array2_wf, array2_map. cbn [nrows ncols cells].
  unfold py_len in *. by rewrite length_fmap.
Qed.

(** X17. The patch entries of a training or validation sample fit together.
    [patch_masks] holds one mask, the ray mask cut to the window of the
    patch; [target_rgbs] holds the colours of the image inside the window at
    the true entries of that mask, in their order; [target_patches] holds the
    window of the image whose background (mask equal to 0) is painted with
    [bgcolor]; and when the image is at least 160 pixels high and wide the
    window is 160 by 160. *)
Theorem patch_entries_consistent self (i : Z) (s s' : rng) (d : datum) :
  split self <> anim ->
  Forall (fun cap => array2_wf (captured_image cap) /\
                     size cap = (nrows (captured_image cap),
                                 ncols (captured_image cap)))
         (scene_captures self) ->
  (forall idx msk, load_mask self idx = Ok msk -> array2_wf msk) ->
  get_single_item self i s = Ok (d, s') ->
  exists (cap : capture) (idx : Z) (msk : array2 float) (img_cv2 : array2 vec)
         (c : compacted) (pm : array2 bool) (x_min y_min x_max y_max : Z),
    cap ∈ scene_captures self /\
    load_mask self idx = Ok msk /\
    mask_background (load_image cap) msk bgcolor = Ok img_cv2 /\
    d !! "ray_mask" = Some (VArray (nd_bools (c_ray_mask c))) /\
    pm = crop (mk_array2 (size cap).1 (size cap).2 (c_ray_mask c))
              y_min y_max x_min x_max /\
    d !! "patch_masks" = Some (VArray (nd_patches NdB [pm])) /\
    d !! "target_rgbs"
    = Some (VArray (nd_rows
              (compress (cells pm)
                 (cells (crop (load_image cap) y_min y_max x_min x_max))))) /\
    d !! "target_patches"
    = Some (VArray (nd_patches nd_vec [crop img_cv2 y_min y_max x_min x_max])) /\
    d !! "target_patch_masks"
    = Some (VArray (nd_patches NdF [crop msk y_min y_max x_min x_max])) /\
    (160 <= (size cap).1 -> 160 <= (size cap).2 ->
     0 <= x_min /\ x_max = x_min + 160 /\ x_max <= (size cap).2 /\
     0 <= y_min /\ y_max = y_min + 160 /\ y_max <= (size cap).1 /\
     nrows pm = 160 /\ ncols pm = 160).
Proof.
  intros Hsplit Hcaps Hmasks Hg.
  apply get_single_item_Ok in Hg
    as (idx & cap & img & msk & datum0 & datum1 & Hcap & Him & _ & Ht);
    [|exact Hsplit].
  apply py_index_elem_of in Hcap.
  rewrite Forall_forall in Hcaps. destruct (Hcaps cap Hcap) as [Hwfi Hsize].
  apply image_fields_Ok in Him as Himg. subst img.
  apply image_fields_dom in Him as [Hmsk _].
  pose proof (Hmasks idx msk Hmsk) as Hwfm.
  apply train_fields_Ok in Ht
    as (cnl & fr & img_cv2 & c & p & b & _ & _ & Hbg & Hc & Hp & _ & ->).
  apply mask_background_Ok in Hbg as Hshape. destruct Hshape as [Hrows Hcols].
  apply compact_rays_Ok in Hc as Hlens. destruct Hlens as (Hray & _).
  apply compact_rays_rows in Hc as (_ & _ & Hrimg).
  apply sample_patch_rays_Ok in Hp
    as (select_inds & pm & x_min & y_min & x_max & y_max & Hcall & _ & _ & Himgs
        & _ & _ & Htp & Htm & Hpm & _).
  set (H := (size cap).1) in *. set (W := (size cap).2) in *.
  assert (HH : nrows (load_image cap) = H) by (subst H; by rewrite Hsize).
  assert (HW : ncols (load_image cap) = W) by (subst W; by rewrite Hsize).
  assert (Hwfl : array2_wf (load_image cap)) by (by apply array2_map_wf).
  assert (Hcells : py_len (cells (load_image cap)) = H * W).
  { destruct Hwfl as (_ & _ & Hl). by rewrite Hl, HH, HW. }
  set (subject := array2_map (fun x => PrimFloat.ltb 0%float x) msk) in *.
  assert (Hwfs : array2_wf subject) by (by apply array2_map_wf).
  assert (HsH : nrows subject = H) by (cbn; lia).
  assert (HsW : ncols subject = W) by (cbn; lia).
  assert (Hraylen : py_len (c_ray_mask c) = H * W) by lia.
  pose proof (patch_mask_crop _ _ _ _ _ _ _ _ _ _ _ _ _
                Hwfs HsH HsW Hraylen Hcall) as Hcrop.
  pose proof (np_take_compress_patch _ _ _ _ _ _ _ _ _ _ _ _ _
                Hwfs HsH HsW Hraylen Hcall (cells (load_image cap)) Hcells)
    as Hround.
  rewrite <- Hrimg, Himgs in Hround.
  replace (mk_array2 H W (cells (load_image cap))) with (load_image cap)
    in Hround by (rewrite <- HH, <- HW; by destruct (load_image cap)).
  assert (Hrgb : ps_ray_img p
                 = compress (cells pm)
                     (cells (crop (load_image cap) y_min y_max x_min x_max)))
    by congruence.
  clear Hround.
  exists cap, idx, msk, img_cv2, c, pm, x_min, y_min, x_max, y_max.
  split; [exact Hcap|]. split; [exact Hmsk|]. split; [exact Hbg|].
  unfold train_datum. destruct (body_pose_to_body_RTs _ _) as [dst_Rs dst_Ts].
  split.
  { repeat (rewrite lookup_insert_ne by discriminate).
    by rewrite lookup_insert_eq. }
  split; [exact Hcrop|]. split.
  { repeat (rewrite lookup_insert_ne by discriminate).
    by rewrite lookup_insert_eq, Hpm. }
  split.
  { repeat (rewrite lookup_insert_ne by discriminate).
    by rewrite lookup_insert_eq, Hrgb. }
  split.
  { repeat (rewrite lookup_insert_ne by discriminate).
    by rewrite lookup_insert_eq, Htp. }
  split.
  { repeat (rewrite lookup_insert_ne by discriminate).
    by rewrite lookup_insert_eq, Htm. }
  intros H160 W160.
  assert (Hsz : 0 < 160 <= Z.min H W) by lia.
  destruct (_get_patch_ray_indices_window _ _ _ _ _ _ _ _ _ _ _ _ _
              Hsz Hwfs HsH HsW Hcall)
    as ((? & ? & ?) & (? & ? & ?) & (? & ? & _) & _).
  tauto.
Qed.

End RecordProps.

Lemma demo_mask_wf : array2_wf demo_mask.
Proof. split; [cbn; lia|]. split; [cbn; lia|]. vm_compute. reflexivity. Qed.

Lemma demo_load_mask_wf (idx : Z) (msk : array2 float) :
  load_mask (EX := demo_externals) demo_dataset idx = Ok msk -> array2_wf msk.
Proof.
  unfold load_mask. intros Hl. apply bind_Ok in Hl as (raw & Hraw & Hl).
  injection Hl as <-. apply py_index_elem_of in Hraw.
  assert (raw = demo_mask) as ->.
  { cbn in Hraw. apply elem_of_cons in Hraw as [->|Hraw]; [done|].
    apply elem_of_cons in Hraw as [->|Hraw]; [done|].
    by apply elem_of_nil in Hraw. }
  change (String.eqb (mode demo_dataset) "scene") with false. cbn iota.
  apply array2_map_wf, array2_map_wf, demo_mask_wf.
Qed.

Lemma demo_shapes :
  Forall (fun cap =>
            array2_wf (captured_image (Capture := demo_capture_ops) cap) /\
            size (Capture := demo_capture_ops) cap
            = (nrows (captured_image (Capture := demo_capture_ops) cap),
               ncols (captured_image (Capture := demo_capture_ops) cap)))
         (scene_captures demo_dataset).
Proof.
  pose proof demo_image_wf as Hwf. rewrite Forall_forall in Hwf.
  apply Forall_forall. intros cap Hcap. split; [by apply Hwf|].
  cbn in Hcap. apply elem_of_cons in Hcap as [->|Hcap]; [reflexivity|].
  apply elem_of_cons in Hcap as [->|Hcap]; [reflexivity|].
  by apply elem_of_nil in Hcap.
Qed.

Lemma sample_keys_spec_witness :
  exists (d : datum) (s' : Z),
    demo_item 0 0 = Ok (d, s') /\ dom d = list_to_set (sample_keys train).
Proof.
  destruct (patch_summary_Ok _ _ demo_item_0_0) as (d & s' & Hd).
  exists d, s'. split; [exact Hd|].
  by destruct (sample_keys_spec (LM := stub_libm) (EX := demo_externals)
                 (CO := demo_capture_ops) (RS := counter_rng)
                 demo_dataset 0 0 s' d Hd) as [Hdom _].
Defined.

Lemma patch_entries_consistent_witness :
  split demo_dataset <> anim /\
  exists (d : datum) (s' : Z) (pm : array2 bool),
    demo_item 0 0 = Ok (d, s') /\
    d !! "patch_masks" = Some (VArray (nd_patches NdB [pm])) /\
    nrows pm = 160 /\ ncols pm = 160.
Proof.
  assert (Hsplit : split demo_dataset <> anim) by discriminate.
  split; [exact Hsplit|].
  destruct (patch_summary_Ok _ _ demo_item_0_0) as (d & s' & Hd).
  destruct (patch_entries_consistent (LM := stub_libm) (EX := demo_externals)
              (CO := demo_capture_ops) (RS := counter_rng)
              demo_dataset 0 0 s' d Hsplit demo_shapes demo_load_mask_wf Hd)
    as (cap & idx & msk & img_cv2 & c & pm & x_min & y_min & x_max & y_max
        & Hcap & _ & _ & _ & _ & Hpm & _ & _ & _ & Hsize).
  exists d, s', pm. split; [exact Hd|]. split; [exact Hpm|].
  pose proof (proj1 (Forall_forall _ _) demo_sizes cap Hcap) as Hs.
  cbv beta in Hs. rewrite Hs in Hsize. cbn [fst snd] in Hsize.
  destruct Hsize as (_ & _ & _ & _ & _ & _ & Hr & Hc); [lia | lia |].
  split; [exact Hr | exact Hc].
Defined.

(** ** [load_smpl_param] *)

Lemma npz_get_Ok (m : gmap string nd) (key : string) (a : nd) :
  npz_get m key = Ok a <-> m !! key = Some a.
Proof.
  unfold npz_get. destruct (m !! key); split; intros Hm; by simplify_eq.
Qed.

Lemma nd_slice_last_vec (f : list nd -> list nd) (f' : vec -> vec) (row : vec) :
  f [] = [] -> f (NdF <$> row) = NdF <$> f' row ->
  nd_slice_last f (nd_vec row) = Ok (nd_vec (f' row)).
Proof.
  intros Hnil Hf. unfold nd_vec. destruct row as [|x row].
  - simpl. simpl in Hf. rewrite Hnil in Hf. by rewrite <- Hf.
  - simpl. by rewrite <- Hf.
Qed.

Lemma nd_slice_last_rows (f : list nd -> list nd) (f' : vec -> vec)
    (rows : list vec) :
  f [] = [] -> (forall row, f (NdF <$> row) = NdF <$> f' row) ->
  nd_slice_last f (nd_rows rows) = Ok (nd_rows (f' <$> rows)).
Proof.
  intros Hnil Hf. unfold nd_rows. cbn [nd_slice_last].
  replace (forallb nd_is_list (nd_vec <$> rows)) with true.
  - rewrite mapM_fmap.
    rewrite (mapM_ext_in _ (fun row => Ok (nd_vec (f' row)))).
    + rewrite mapM_Ok_fmap. cbn [mbind result_bind].
      by rewrite <- list_fmap_compose.
    + intros row _. by apply nd_slice_last_vec.
  - symmetry. apply forallb_forall. intros a Ha.
    apply list_elem_of_In, list_elem_of_fmap in Ha as (row & -> & _).
    reflexivity.
Qed.

Lemma nd_astype_f32_rows (rows : list vec) :
  nd_astype_f32 (nd_rows rows) = nd_rows ((fun row : vec => f32 <$> row) <$> rows).
Proof.
  unfold nd_rows, nd_vec. cbn [nd_astype_f32]. f_equal.
  rewrite <- !list_fmap_compose. apply list_fmap_ext. intros _ row _. simpl.
  f_equal. rewrite <- !list_fmap_compose. by apply list_fmap_ext.
Qed.

(** X18. What [load_smpl_param] needs and what it returns.  It returns only when
    the archive holds [betas] with ten entries, [transl], and either [thetas]
    or both [body_pose] and [global_orient]; a missing array raises
    [KeyError].  The dictionary it returns has exactly the four keys [betas],
    [body_pose], [global_orient] and [transl], with [betas] of shape
    [(1, 10)]. *)
Theorem load_smpl_param_keys (npz r : gmap string nd) :
  load_smpl_param npz = Ok r ->
  dom r
  = list_to_set ["betas"; "body_pose"; "global_orient"; "transl"]%string /\
  (exists b : vec, r !! "betas" = Some (nd_rows [b]) /\ length b = 10%nat) /\
  is_Some (npz !! "betas") /\ is_Some (npz !! "transl") /\
  (is_Some (npz !! "thetas") \/
   is_Some (npz !! "body_pose") /\ is_Some (npz !! "global_orient")).
Proof.
  unfold load_smpl_param. intros Hl.
  apply bind_Ok in Hl as (sp & Hsp & Hl).
  apply bind_Ok in Hl as (betas & Hb & Hl).
  apply bind_Ok in Hl as (betas' & Hb' & Hl).
  apply bind_Ok in Hl as (bp & Hbp & Hl).
  apply bind_Ok in Hl as (go & Hgo & Hl).
  apply bind_Ok in Hl as (tr & Htr & Hl). injection Hl as <-.
  apply npz_get_Ok in Hb, Hbp, Hgo, Htr.
  split.
  { rewrite !dom_insert_L, dom_empty_L. reflexivity. }
  split.
  { unfold nd_reshape_1_10 in Hb'.
    destruct (Z.eqb_spec (py_len (nd_floats (nd_astype_f32 betas))) 10)
      as [Hlen|]; [|discriminate].
    injection Hb' as <-. eexists. rewrite lookup_insert_eq.
    split; [reflexivity|]. unfold py_len in Hlen. lia. }
  destruct (npz !! "thetas") as [thetas|] eqn:Hth.
  - apply bind_Ok in Hsp as (bp0 & _ & Hsp).
    apply bind_Ok in Hsp as (th & _ & Hsp).
    apply bind_Ok in Hsp as (go0 & _ & Hsp). injection Hsp as <-.
    rewrite !lookup_insert_ne in Hb, Htr by discriminate.
    split; [by eexists|]. split; [by eexists|]. left. by eexists.
  - injection Hsp as <-.
    split; [by eexists|]. split; [by eexists|]. right. split; by eexists.
Qed.

(** X19. When the archive holds [thetas] as a two-dimensional array,
    [global_orient] and [body_pose] are its first three columns and the
    columns from the fourth on, in float32, whatever the archive holds under
    these two names; put side by side they give [thetas] back. *)
Theorem load_smpl_param_thetas (npz r : gmap string nd) (rows : list vec) :
  npz !! "thetas" = Some (nd_rows rows) ->
  load_smpl_param npz = Ok r ->
  r !! "global_orient"
  = Some (nd_rows ((fun row : vec => f32 <$> take 3 row) <$> rows)) /\
  r !! "body_pose"
  = Some (nd_rows ((fun row : vec => f32 <$> drop 3 row) <$> rows)) /\
  zip_with app ((fun row : vec => f32 <$> take 3 row) <$> rows)
               ((fun row : vec => f32 <$> drop 3 row) <$> rows)
  = (fun row : vec => f32 <$> row) <$> rows.
Proof.
  intros Hth Hl. unfold load_smpl_param in Hl. rewrite Hth in Hl.
  rewrite (nd_slice_last_rows (drop 3) (drop 3)) in Hl
    by (done || intros; by rewrite fmap_drop).
  cbn [mbind result_bind] in Hl.
  assert (Hget : forall x : nd,
            npz_get (<["body_pose" := x]> npz) "thetas" = Ok (nd_rows rows)).
  { intros x. apply npz_get_Ok. by rewrite lookup_insert_ne. }
  rewrite Hget in Hl. cbn [mbind result_bind] in Hl.
  rewrite (nd_slice_last_rows (take 3) (take 3)) in Hl
    by (done || intros; by rewrite fmap_take).
  cbn [mbind result_bind] in Hl.
  apply bind_Ok in Hl as (betas & _ & Hl).
  apply bind_Ok in Hl as (betas' & _ & Hl).
  apply bind_Ok in Hl as (bp & Hbp & Hl).
  apply bind_Ok in Hl as (go & Hgo & Hl).
  apply bind_Ok in Hl as (tr & _ & Hl). injection Hl as <-.
  apply npz_get_Ok in Hbp, Hgo.
  rewrite lookup_insert_eq in Hgo. injection Hgo as <-.
  rewrite lookup_insert_ne, lookup_insert_eq in Hbp by discriminate.
  injection Hbp as <-.
  split; [|split].
  - rewrite !lookup_insert_ne by discriminate. rewrite lookup_insert_eq.
    by rewrite nd_astype_f32_rows, <- list_fmap_compose.
  - rewrite lookup_insert_ne by discriminate. rewrite lookup_insert_eq.
    by rewrite nd_astype_f32_rows, <- list_fmap_compose.
  - clear. induction rows as [|row rows IH]; [reflexivity|].
    rewrite !fmap_cons. cbn [zip_with]. rewrite IH.
    by rewrite <- fmap_app, take_drop.
Qed.

Lemma demo_npz_loads : exists r, load_smpl_param demo_npz = Ok r.
Proof. apply is_ok_Ok. vm_compute. reflexivity. Qed.

Lemma load_smpl_param_keys_witness :
  exists r : gmap string nd,
    load_smpl_param demo_npz = Ok r /\
    dom r
    = list_to_set ["betas"; "body_pose"; "global_orient"; "transl"]%string.
Proof.
  destruct demo_npz_loads as [r Hr]. exists r. split; [exact Hr|].
  by destruct (load_smpl_param_keys demo_npz r Hr) as [Hdom _].
Defined.

Lemma load_smpl_param_thetas_witness :
  exists r : gmap string nd,
    load_smpl_param demo_npz = Ok r /\
    r !! "global_orient" = Some (nd_rows [[1; 2; 3]%float]) /\
    r !! "body_pose" = Some (nd_rows [[4; 5]%float]).
Proof.
  destruct demo_npz_loads as [r Hr]. exists r. split; [exact Hr|].
  assert (Hth : demo_npz !! "thetas" = Some (nd_rows [[1; 2; 3; 4; 5]%float]))
    by (vm_compute; reflexivity).
  destruct (load_smpl_param_thetas demo_npz r _ Hth Hr) as (Hgo & Hbp & _).
  split; [exact Hgo | exact Hbp].
Defined.

(** ** The random generator *)

Section Draws.

Context {LM : Libm} {EX : Externals} {capture : Type} {CO : Capture capture}
        {rng : Type} {RS : RandomState rng}.

Lemma choose_center_draw (candidate_mask : array2 bool) (s s' : rng)
    (center_x center_y : Z) :
  choose_center candidate_mask s = Ok (center_x, center_y, s') ->
  0 < count_true (cells candidate_mask) /\
  s' = (random_choice s (count_true (cells candidate_mask))).2.
Proof.
  unfold choose_center, np_where2. intros Hc.
  apply bind_Ok in Hc as ([select_idx s1] & Hdraw & Hc).
  apply bind_Ok in Hc as (cx & _ & Hc). apply bind_Ok in Hc as (cy & _ & Hc).
  injection Hc as _ _ <-.
  unfold np_random_choice in Hdraw.
  replace (py_len ((fun k => k `div` ncols candidate_mask)
                   <$> np_where (cells candidate_mask)))
    with (count_true (cells candidate_mask)) in Hdraw
    by (unfold py_len; rewrite length_fmap; symmetry;
        apply np_where_from_length).
  destruct (Z.leb_spec (count_true (cells candidate_mask)) 0); [discriminate|].
  injection Hdraw as Hdraw. split; [lia|]. by rewrite Hdraw.
Qed.

(** X20. A sample costs the random generator one draw or none.  An animation
    sample leaves the generator as it found it.  A training or validation
    sample draws once, the center of its patch among the pixels where the
    mask of the frame is positive, of which there is at least one. *)
Theorem one_draw_per_sample (self : NeumanDataset capture) (i : Z)
    (s s' : rng) (d : datum) :
  get_single_item self i s = Ok (d, s') ->
  (split self = anim -> s' = s) /\
  (split self <> anim ->
   exists (idx : Z) (msk : array2 float) (n : Z),
     frame_index self i = Ok idx /\ load_mask self idx = Ok msk /\
     n = count_true (cells (array2_map (fun x => PrimFloat.ltb 0%float x) msk)) /\
     0 < n /\ s' = (random_choice s n).2).
Proof.
  intros Hg. split.
  - intros Ha. unfold get_single_item in Hg. rewrite Ha in Hg.
    apply bind_Ok in Hg as (idx & _ & Hg).
    apply bind_Ok in Hg as (cap & _ & Hg).
    apply bind_Ok in Hg as (datum1 & _ & Hg). by injection Hg as _ <-.
  - intros Hsplit.
    assert (Hidx : exists idx cap img msk datum0 datum1,
               frame_index self i = Ok idx /\
               image_fields self cap idx = Ok (img, msk, datum0) /\
               train_fields self cap idx img msk datum1 s = Ok (d, s')).
    { unfold get_single_item in Hg. unfold frame_index.
      apply bind_Ok in Hg as (idx & Hidx & Hg).
      apply bind_Ok in Hg as (cap & _ & Hg).
      exists idx, cap.
      destruct (split self); [| |done];
        apply bind_Ok in Hg as ([[img msk] datum0] & Him & Hg);
        apply bind_Ok in Hg as (datum1 & _ & Hg); eauto 10. }
    destruct Hidx as (idx & cap & img & msk & datum0 & datum1 & Hidx & Him & Ht).
    apply image_fields_dom in Him as [Hmsk _].
    apply train_fields_Ok in Ht
      as (cnl & fr & ic & c & p & b & _ & _ & _ & _ & Hp & _ & _).
    apply sample_patch_rays_Ok in Hp
      as (sel & pm & x0 & y0 & x1 & y1 & Hcall & _).
    apply _get_patch_ray_indices_Ok in Hcall as (cx & cy & inter & Hc & _).
    apply choose_center_draw in Hc as [Hpos Hs'].
    eexists idx, msk, _. split; [exact Hidx|]. split; [exact Hmsk|].
    split; [reflexivity|]. split; [exact Hpos | exact Hs'].
Qed.

End Draws.

Lemma one_draw_per_sample_witness :
  exists (d : datum) (s' : Z), demo_item 0 0 = Ok (d, s') /\ s' = 1.
Proof.
  destruct (patch_summary_Ok _ _ demo_item_0_0) as (d & s' & Hd).
  exists d, s'. split; [exact Hd|].
  destruct (one_draw_per_sample (LM := stub_libm) (EX := demo_externals)
              (CO := demo_capture_ops) (RS := counter_rng)
              demo_dataset 0 0 s' d Hd) as [_ Htrain].
  destruct Htrain as (idx & msk & n & _ & _ & _ & _ & Hs'); [discriminate|].
  exact Hs'.
Defined.

(** ** Patch sampling inside a sample *)

Lemma np_take_total {A : Type} (a : list A) (inds : list Z) :
  Forall (fun v => 0 <= v < py_len a) inds -> exists vs, np_take a inds = Ok vs.
Proof.
  intros Hall. apply mapM_total. eapply Forall_impl; [exact Hall|].
  intros v Hv. simpl. destruct (py_index_in_range a v Hv) as (x & Hx & _). eauto.
Qed.

Section SamplePatch.

Context {rng : Type} {RS : RandomState rng}.

(** X21. [sample_patch_rays] returns on consistent inputs: with a subject mask of
    the image's shape that holds a true pixel, a ray mask with one entry per
    pixel and five ray arrays with one row per true entry of the ray mask,
    no ray index of the patch falls outside the arrays that [select_rays]
    reads, and the one patch is returned. *)
Theorem sample_patch_rays_returns (img : array2 vec) (mask : array2 float)
    (H W : Z) (subject_mask : array2 bool) (ray_mask : list bool)
    (rays_o rays_d ray_img nerf_near nerf_far : list vec) (s : rng) :
  array2_wf subject_mask ->
  nrows subject_mask = H -> ncols subject_mask = W ->
  py_len ray_mask = H * W ->
  0 < count_true (cells subject_mask) ->
  py_len rays_o = count_true ray_mask ->
  py_len rays_d = count_true ray_mask ->
  py_len ray_img = count_true ray_mask ->
  py_len nerf_near = count_true ray_mask ->
  py_len nerf_far = count_true ray_mask ->
  exists (p : patch_sample) (s' : rng),
    sample_patch_rays img mask H W subject_mask ray_mask rays_o rays_d ray_img
      nerf_near nerf_far s = Ok (p, s') /\
    py_len (ps_rays_o p) = py_len (ps_ray_img p) /\
    py_len (ps_rays_d p) = py_len (ps_ray_img p) /\
    py_len (ps_nerf_near p) = py_len (ps_ray_img p) /\
    py_len (ps_nerf_far p) = py_len (ps_ray_img p) /\
    ps_patch_div_indices p = [0; py_len (ps_ray_img p)].
Proof.
  intros Hwf HH HW Hlen Hpos Ho Hd Hi Hn Hf.
  destruct (_get_patch_ray_indices_total ray_mask subject_mask 160 H W s
              Hwf HH HW Hlen Hpos)
    as (inds & pm & [x_min y_min] & [x_max y_max] & s' & Hp).
  pose proof (_get_patch_ray_indices_range _ _ _ _ _ _ _ _ _ _ _ Hp) as Hrange.
  assert (Htake : forall a : list vec, py_len a = count_true ray_mask ->
            exists vs, np_take a (inds ++ []) = Ok vs /\
                       py_len vs = py_len inds).
  { intros a Ha. rewrite app_nil_r.
    destruct (np_take_total a inds) as [vs Hvs].
    - eapply Forall_impl; [exact Hrange|]. simpl. intros; lia.
    - exists vs. split; [exact Hvs|]. by eapply np_take_length. }
  destruct (Htake rays_o Ho) as (ro & Hro & Hlo).
  destruct (Htake rays_d Hd) as (rd & Hrd & Hld).
  destruct (Htake ray_img Hi) as (ri & Hri & Hli).
  destruct (Htake nerf_near Hn) as (nn & Hnn & Hln).
  destruct (Htake nerf_far Hf) as (nf & Hnf & Hlf).
  unfold sample_patch_rays, get_patch_ray_indices.
  change (Z.to_nat 1) with 1%nat. cbn [patch_loop].
  rewrite Hp. cbn [mbind result_bind list_ray_indices list_mask list_xy_min
                   list_xy_max patch_div_indices total_rays app].
  unfold np_concatenate. cbn [concat mbind result_bind].
  change (np_stack [pm]) with (Ok [pm]). cbn [mbind result_bind].
  unfold select_rays. rewrite Hro, Hrd, Hri, Hnn, Hnf.
  cbn [mbind result_bind].
  change (patch_targets img mask
            (mk_patch_info [pm] [(x_min, y_min)] [(x_max, y_max)]) 1)
    with (Ok ([crop img y_min y_max x_min x_max],
              [crop mask y_min y_max x_min x_max])).
  cbn [mbind result_bind].
  change (np_stack [crop img y_min y_max x_min x_max])
    with (Ok [crop img y_min y_max x_min x_max]).
  change (np_stack [crop mask y_min y_max x_min x_max])
    with (Ok [crop mask y_min y_max x_min x_max]).
  cbn [mbind result_bind info_mask].
  eexists _, s'. split; [reflexivity|].
  cbn [ps_rays_o ps_rays_d ps_ray_img ps_nerf_near ps_nerf_far
       ps_patch_div_indices].
  rewrite Hlo, Hld, Hli, Hln, Hlf. repeat split.
Qed.

End SamplePatch.

Lemma sample_patch_rays_returns_witness :
  exists (p : patch_sample) (s' : Z),
    sample_patch_rays (RS := counter_rng)
      (mk_array2 3 4 (replicate 12 [])) (mk_array2 3 4 (replicate 12 0%float))
      3 4 demo_subject_mask demo_ray_mask
      (replicate 6 []) (replicate 6 []) (replicate 6 []) (replicate 6 [])
      (replicate 6 []) 0 = Ok (p, s').
Proof.
  destruct (sample_patch_rays_returns (RS := counter_rng)
              (mk_array2 3 4 (replicate 12 []))
              (mk_array2 3 4 (replicate 12 0%float))
              3 4 demo_subject_mask demo_ray_mask
              (replicate 6 []) (replicate 6 []) (replicate 6 [])
              (replicate 6 []) (replicate 6 []) 0
              demo_subject_mask_wf eq_refl eq_refl eq_refl eq_refl
              eq_refl eq_refl eq_refl eq_refl eq_refl) as (p & s' & Hp & _).
  exists p, s'. exact Hp.
Defined.

Lemma count_true_elem (m : list bool) : true ∈ m -> 0 < count_true m.
Proof.
  induction m as [|b m IH]; intros Hin; [by apply elem_of_nil in Hin|].
  rewrite count_true_cons. pose proof (count_true_nonneg m).
  destruct b; [lia|]. apply elem_of_cons in Hin as [?|Hin]; [done|].
  specialize (IH Hin). lia.
Qed.

Lemma mask_channel_positive (c : Z) :
  0 <= c <= 255 ->
  nonzero (f32 (PrimFloat.div (py_float_of_int c) 255%float))
  = PrimFloat.ltb 0%float (f32 (PrimFloat.div (py_float_of_int c) 255%float)).
Proof.
  intros Hc.
  assert (Hall : forallb
            (fun c => Bool.eqb
                        (nonzero (f32 (PrimFloat.div (py_float_of_int c) 255%float)))
                        (PrimFloat.ltb 0%float
                           (f32 (PrimFloat.div (py_float_of_int c) 255%float))))
            (py_range 256) = true) by (vm_compute; reflexivity).
  rewrite forallb_forall in Hall. apply Bool.eqb_prop, Hall.
  apply list_elem_of_In, elem_of_py_range. lia.
Qed.

Lemma mask_bbox_hit (msk : array2 float) (bbox : list Z) :
  mask_bbox msk = Ok bbox ->
  exists x : float, x ∈ cells msk /\ nonzero x = true.
Proof.
  unfold mask_bbox. intros Hb.
  apply bind_Ok in Hb as ([ymin ymax] & _ & Hb).
  apply bind_Ok in Hb as ([xmin xmax] & Hx & _).
  apply first_last_true_Ok in Hx as ((_ & Hlo) & _).
  apply np_any_axis1_lookup in Hlo as (row & Hrow & Hex).
  apply existsb_nonzero in Hex as (c & x & Hc & Hnz).
  exists x. split; [|exact Hnz].
  unfold array2_rows in Hrow. rewrite list_lookup_fmap in Hrow.
  destruct (py_range (nrows msk) !! Z.to_nat xmin) as [r|]; [|discriminate].
  injection Hrow as <-. apply list_elem_of_lookup_2 in Hc.
  apply elem_of_take_in in Hc.
  rewrite <- (take_drop (Z.to_nat (r * ncols msk)) (cells msk)).
  apply elem_of_app. by right.
Qed.

Section CenterFound.

Context {EX : Externals} {capture : Type} {rng : Type} {RS : RandomState rng}.

(** X22. Inside [get_single_item] the draw of the patch center cannot run out of
    candidates.  For a mask read from bytes and not dilated, once the box of
    the mask has been taken (which needs a nonzero pixel) the subject mask
    [msk > 0] holds a true pixel, and the draw returns a center. *)
Theorem patch_center_found (self : NeumanDataset capture) (idx : Z)
    (raw : array2 Z) (msk : array2 float) (bbox : list Z) (s : rng) :
  String.eqb (mode self) "scene" = false ->
  py_index (msk_lists self) idx = Ok raw ->
  Forall (fun c => 0 <= c <= 255) (cells raw) ->
  load_mask self idx = Ok msk ->
  mask_bbox msk = Ok bbox ->
  0 < count_true (cells (array2_map (fun x => PrimFloat.ltb 0%float x) msk)) /\
  exists (center_x center_y : Z) (s' : rng),
    choose_center (array2_map (fun x => PrimFloat.ltb 0%float x) msk) s
    = Ok (center_x, center_y, s').
Proof.
  intros Hmode Hraw Hbytes Hl Hb.
  unfold load_mask in Hl. rewrite Hraw, Hmode in Hl.
  cbn [mbind result_bind] in Hl. injection Hl as <-.
  apply mask_bbox_hit in Hb as (x & Hx & Hnz).
  assert (Hpos : 0 < count_true
            (cells (array2_map (fun x => PrimFloat.ltb 0%float x)
               (array2_map f32
                  (array2_map
                     (fun c => PrimFloat.div (py_float_of_int c) 255%float)
                     raw))))).
  { apply count_true_elem. cbn [array2_map cells] in Hx |- *.
    rewrite <- list_fmap_compose in Hx.
    apply list_elem_of_fmap in Hx as (c & -> & Hc).
    rewrite Forall_forall in Hbytes. specialize (Hbytes c Hc).
    simpl in Hnz. rewrite (mask_channel_positive c Hbytes) in Hnz.
    rewrite <- Hnz. rewrite <- !list_fmap_compose.
    apply list_elem_of_fmap. exists c. split; [reflexivity | exact Hc]. }
  split; [exact Hpos|]. by apply choose_center_total.
Qed.

End CenterFound.

Lemma patch_center_found_witness :
  exists (center_x center_y s' : Z),
    choose_center (RS := counter_rng)
      (array2_map (fun x => PrimFloat.ltb 0%float x)
         (mk_array2 1 2 [0; 1]%float)) 0
    = Ok (center_x, center_y, s').
Proof.
  destruct (patch_center_found (EX := demo_externals) (RS := counter_rng)
              (mk_dataset (capture := demo_capture) train "human_scene" [demo_cap] demo_smpl_params
                 [mk_array2 1 2 [0; 255]] [0] [0] (NdList []) (NdList [])
                 (NdList []) 1 None)
              0 (mk_array2 1 2 [0; 255]) (mk_array2 1 2 [0; 1]%float)
              [0; 1; 0; 1] 0)
    as [_ Hc].
  - reflexivity.
  - reflexivity.
  - repeat (apply List.Forall_cons; [lia|]). apply List.Forall_nil.
  - vm_compute. reflexivity.
  - vm_compute. reflexivity.
  - exact Hc.
Defined.
